(** * Composer manager: manifest extraction and lock-file artifact synthesis

    A shallow embedding of [lib/modules/manager/composer/extract.ts] and of
    the composer artifacts module ([getAuthJson], [updateArtifacts]), with
    the properties of the specification stated over it.

    JavaScript strings are modelled as [string] (a sequence of 8-bit code
    units); objects used as dictionaries are [gmap string _]; effectful code
    is written in a small state-and-exception monad that threads the
    collaborators' world and records every collaborator call in a log.

    extract.ts is embedded twice: [Extract] is the code on manifests and
    lock files of the types the file declares for them, [ExtractJson] the
    code on whatever [JSON.parse] returns, with the [try] blocks and the
    errors they catch; [Refinement] shows that the two agree on values of
    the declared types. *)

From Stdlib Require Import String Ascii List Bool Arith Lia.
From stdpp Require Import base option list gmap strings pretty.

(** ** JavaScript string primitives used by the two source files *)

Module JsString.

(** [s.startsWith(p)] *)
Definition startsWith (s p : string) : bool := String.prefix p s.

(** [s.endsWith(suf)]: some tail of [s] is [suf]. *)
Fixpoint endsWith (s suf : string) : bool :=
  if String.eqb s suf then true
  else match s with
       | EmptyString => false
       | String _ s' => endsWith s' suf
       end.

(** [s.includes(needle)] *)
Fixpoint includes (s needle : string) : bool :=
  if String.prefix needle s then true
  else match s with
       | EmptyString => false
       | String _ s' => includes s' needle
       end.

(** [s.replace(/suf$/, repl)] for a literal [suf]: without the [m] flag
    [$] only matches at the very end of the input, so the single match,
    if any, is the tail equal to [suf]. *)
Fixpoint replaceSuffix (suf repl s : string) : string :=
  if String.eqb s suf then repl
  else match s with
       | EmptyString => EmptyString
       | String c s' => String c (replaceSuffix suf repl s')
       end.

(** [s.replace(/^v/i, '')] *)
Definition stripLeadingV (s : string) : string :=
  match s with
  | String c s' =>
      if (Ascii.eqb c "v" || Ascii.eqb c "V")%bool then s' else s
  | EmptyString => EmptyString
  end.

(** White space of [String.prototype.trim] among the code units below
    256: TAB, LF, VT, FF, CR, SP and NBSP. *)
Definition isWhiteSpace (c : ascii) : bool :=
  let n := nat_of_ascii c in
  ((9 <=? n) && (n <=? 13) || (n =? 32) || (n =? 160))%bool%nat.

Fixpoint trimStart (s : string) : string :=
  match s with
  | String c s' => if isWhiteSpace c then trimStart s' else s
  | EmptyString => EmptyString
  end.

Fixpoint trimEnd (s : string) : string :=
  match s with
  | String c s' =>
      let t := trimEnd s' in
      if (isWhiteSpace c && String.eqb t EmptyString)%bool
      then EmptyString else String c t
  | EmptyString => EmptyString
  end.

(** [s.trim()] *)
Definition trim (s : string) : string := trimEnd (trimStart s).

(** [xs.join(sep)] on an array of strings *)
Definition join (sep : string) (xs : list string) : string :=
  String.concat sep xs.

(** Truthiness of a possibly absent string: [undefined], [null] and the
    empty string are falsy. *)
Definition truthy (o : option string) : bool :=
  match o with
  | Some s => negb (String.eqb s EmptyString)
  | None => false
  end.

End JsString.

(** ** extract.ts *)

Module Extract.
Import JsString.

(** *** Data model ([./schema], [../types]) *)

Inductive DepType := require | require_dev.

Inductive SkipReason := path_dependency | unsupported.

(** [ComposerRepository], as declared by the schema the file imports. *)
Record ComposerRepository := {
  repo_name : option string;
  repo_type : option string;
  repo_url : string;
  repo_packagist : option bool;
  repo_packagist_org : option bool
}.

(** A value of the record form of [repositories]: a repository object or
    a boolean. *)
Inductive RepoEntry :=
| RepoObject (repo : ComposerRepository)
| RepoBoolean (b : bool).

(** [ComposerRepositories]: an array of repositories or a record keyed by
    name; the record keeps the order of [Object.entries]. *)
Inductive ComposerRepositories :=
| ReposArray (items : list ComposerRepository)
| ReposRecord (props : list (string * RepoEntry)).

(** [ComposerConfig]: a group holds its name/constraint pairs in the order
    in which [Object.entries] enumerates the parsed object, one pair per
    name. That is the order of the manifest text but for names that are
    array indices, which come first and in ascending order. *)
Record ComposerConfig := {
  cfg_type : option string;
  cfg_repositories : option ComposerRepositories;
  cfg_require : option (list (string * string));
  cfg_require_dev : option (list (string * string))
}.

Record LockedPackage := {
  lock_name : string;
  lock_version : string
}.

Record ComposerLock := {
  lock_packages : option (list LockedPackage);
  lock_packages_dev : option (list LockedPackage)
}.

Record PackageDependency := {
  depType : DepType;
  depName : string;
  currentValue : string;
  datasource : option string;
  packageName : option string;
  extractVersion : option string;
  skipReason : option SkipReason;
  lockedVersion : option string;
  registryUrls : option (list string)
}.

Record PackageFileContent := {
  deps : list PackageDependency;
  lockFiles : option (list string);
  managerData : option string;        (* [{ composerJsonType }] *)
  extractedConstraints : option string (* [{ php }] *)
}.

(** What the file imports and [src/] does not hold: the three datasource
    identifiers, [semverComposer.isVersion], [readLocalFile], and
    [JSON.parse] at the two types it is used at ([None] when it throws;
    for the lock also when the parsed value is falsy). The file casts what
    [JSON.parse] returns to these types without a test: this module is the
    code on texts that parse to values of the declared types, and
    [ExtractJson] below is the code on any parsed value. *)
Record Imports := {
  GithubTagsDatasource_id : string;
  GitTagsDatasource_id : string;
  PackagistDatasource_id : string;
  isVersion : string -> bool;
  readLocalFile : string -> option string;
  JSON_parse_config : string -> option ComposerConfig;
  JSON_parse_lock : string -> option ComposerLock
}.

(** *** transformRegUrl *)

Definition transformRegUrl (url : string) : string :=
  replaceSuffix "/packages.json" "" url.

(** *** parseRepositories *)

(** The two accumulators the caller passes in, and the local flag. The
    object [repositories] is used as a dictionary from names to
    repositories; names are taken not to be those of members that every
    object inherits. *)
Record RepoState := {
  repositories : gmap string ComposerRepository;
  registryUrls_acc : list string;
  packagist : bool
}.

(** [Object.entries(repoJson)]: an array has its indices as keys. *)
Definition entries (repoJson : ComposerRepositories)
  : list (string * RepoEntry) :=
  match repoJson with
  | ReposArray items => imap (fun i r => (pretty i, RepoObject r)) items
  | ReposRecord props => props
  end.

Definition is_array (repoJson : ComposerRepositories) : bool :=
  match repoJson with ReposArray _ => true | ReposRecord _ => false end.

(** A property key: [undefined] is converted to the string "undefined". *)
Definition propertyKey (name : option string) : string :=
  match name with Some n => n | None => "undefined" end.

Definition type_is (repo : ComposerRepository) (t : string) : bool :=
  match repo_type repo with
  | Some t' => String.eqb t' t
  | None => false
  end.

Definition is_false (b : option bool) : bool :=
  match b with Some false => true | _ => false end.

(** The body of the [forEach] callback. *)
Definition parseRepository (isArray : bool) (st : RepoState)
    (entry : string * RepoEntry) : RepoState :=
  let '(key, e) := entry in
  match e with
  | RepoObject repo =>
      let name := if isArray then repo_name repo else Some key in
      let st1 :=
        if (type_is repo "vcs" || type_is repo "git"
            || type_is repo "path")%bool
        then {| repositories := <[propertyKey name := repo]> (repositories st);
                registryUrls_acc := registryUrls_acc st;
                packagist := packagist st |}
        else if type_is repo "composer"
        then {| repositories := repositories st;
                registryUrls_acc :=
                  registryUrls_acc st ++ [transformRegUrl (repo_url repo)];
                packagist := packagist st |}
        else st in
      if (is_false (repo_packagist repo)
          || is_false (repo_packagist_org repo))%bool
      then {| repositories := repositories st1;
              registryUrls_acc := registryUrls_acc st1;
              packagist := false |}
      else st1
  | RepoBoolean b =>
      if ((String.eqb key "packagist" || String.eqb key "packagist.org")
          && negb b)%bool
      then {| repositories := repositories st;
              registryUrls_acc := registryUrls_acc st;
              packagist := false |}
      else st
  end.

(** [parseRepositories(repoJson, repositories, registryUrls)]: the result
    is the final contents of the two accumulators. With the declared types
    no statement of the [try] block throws, so the [catch] is not
    reached; [ExtractJson.parseRepositories] has the [catch]. *)
Definition parseRepositories (repoJson : ComposerRepositories)
    (repos : gmap string ComposerRepository) (registryUrls : list string)
  : gmap string ComposerRepository * list string :=
  let st := fold_left (parseRepository (is_array repoJson)) (entries repoJson)
              {| repositories := repos;
                 registryUrls_acc := registryUrls;
                 packagist := true |} in
  (repositories st,
   if packagist st
   then registryUrls_acc st ++ ["https://packagist.org"]
   else registryUrls_acc st).

(** *** extractPackageFile *)

Section WithImports.
Variable I : Imports.

(** [lockParsed[lockField]] *)
Definition lockField (t : DepType) (lock : ComposerLock)
  : option (list LockedPackage) :=
  match t with
  | require => lock_packages lock
  | require_dev => lock_packages_dev lock
  end.

(** [lockParsed[lockField]?.find((item) => item.name === dep.depName)] *)
Definition findLocked (t : DepType) (lock : ComposerLock) (name : string)
  : option LockedPackage :=
  match lockField t lock with
  | Some items => List.find (fun item => String.eqb (lock_name item) name) items
  | None => None
  end.

(** Lines 158-190: the record built once datasource and package name are
    known. [bound] is [repositories[depName]]. *)
Definition registryDependency (bound : option ComposerRepository)
    (registryUrls : list string) (lockParsed : option ComposerLock)
    (t : DepType) (name value ds pkg : string) : PackageDependency :=
  let skip := if includes name "/" then None else Some unsupported in
  let locked :=
    match lockParsed with
    | Some lock =>
        match findLocked t lock name with
        | Some lockedDep =>
            if isVersion I (lock_version lockedDep)
            then Some (stripLeadingV (lock_version lockedDep))
            else None
        | None => None
        end
    | None => None
    end in
  let unbound :=
    match bound with
    | None => true
    | Some repo => type_is repo "composer"
    end in
  {| depType := t;
     depName := name;
     currentValue := value;
     datasource := Some ds;
     packageName := if String.eqb name pkg then None else Some pkg;
     extractVersion := None;
     skipReason := skip;
     lockedVersion := locked;
     registryUrls :=
       match skip, unbound, registryUrls with
       | None, true, _ :: _ => Some registryUrls
       | _, _, _ => None
       end |}.

(** The body of the inner [for] loop: every name/constraint pair pushes
    exactly one record, on each of its three paths. *)
Definition extractDependency (repos : gmap string ComposerRepository)
    (registryUrls : list string) (lockParsed : option ComposerLock)
    (t : DepType) (entry : string * string) : PackageDependency :=
  let '(name, version) := entry in
  let value := trim version in
  if String.eqb name "php" then
    {| depType := t;
       depName := name;
       currentValue := value;
       datasource := Some (GithubTagsDatasource_id I);
       packageName := Some "php/php-src";
       extractVersion := Some "^php-(?<version>.*)$";
       skipReason := None;
       lockedVersion := None;
       registryUrls := None |}
  else
    let bound := repos !! name in
    let finish := registryDependency bound registryUrls lockParsed t name value in
    match bound with
    | Some repo =>
        if (type_is repo "vcs" || type_is repo "git")%bool then
          finish (GitTagsDatasource_id I) (repo_url repo)
        else if type_is repo "path" then
          {| depType := t;
             depName := name;
             currentValue := value;
             datasource := None;
             packageName := None;
             extractVersion := None;
             skipReason := Some path_dependency;
             lockedVersion := None;
             registryUrls := None |}
        else finish (PackagistDatasource_id I) name
    | None => finish (PackagistDatasource_id I) name
    end.

(** [composerJson[depType]] *)
Definition declared (t : DepType) (composerJson : ComposerConfig)
  : list (string * string) :=
  match t with
  | require => default [] (cfg_require composerJson)
  | require_dev => default [] (cfg_require_dev composerJson)
  end.

(** [composerJson.require?.php] *)
Definition requiredPhp (composerJson : ComposerConfig) : option string :=
  match cfg_require composerJson with
  | Some pairs =>
      snd <$> List.find (fun kv => String.eqb (fst kv) "php") pairs
  | None => None
  end.

(** Lines 99-110: the lock file next to the manifest, as read and as
    parsed. *)
Definition lockfilePath (fileName : string) : string :=
  replaceSuffix ".json" ".lock" fileName.

Definition lockContents (fileName : string) : option string :=
  readLocalFile I (lockfilePath fileName).

Definition lockParsed (fileName : string) : option ComposerLock :=
  if truthy (lockContents fileName)
  then lockContents fileName ≫= JSON_parse_lock I
  else None.

(** Lines 94-95 and 113-115: the two accumulators after the repositories
    block was handled. *)
Definition customRepositories (composerJson : ComposerConfig)
  : gmap string ComposerRepository * list string :=
  match cfg_repositories composerJson with
  | Some repoJson => parseRepositories repoJson ∅ []
  | None => (∅, [])
  end.

(** Lines 117-198: the array [deps] after both groups were walked. With
    the declared types ([Record<string, string>] for a group) no statement
    of the [try] block throws. *)
Definition extractDeps (composerJson : ComposerConfig) (fileName : string)
  : list PackageDependency :=
  let '(repos, registryUrls) := customRepositories composerJson in
  flat_map
    (fun t => map (extractDependency repos registryUrls (lockParsed fileName) t)
                  (declared t composerJson))
    [require; require_dev].

Definition extractPackageFile (content fileName : string)
  : option PackageFileContent :=
  match JSON_parse_config I content with
  | None => None
  | Some composerJson =>
      match extractDeps composerJson fileName with
      | [] => None
      | deps =>
          Some {| deps := deps;
                  lockFiles :=
                    if truthy (lockContents fileName)
                    then Some [lockfilePath fileName] else None;
                  managerData := cfg_type composerJson;
                  extractedConstraints :=
                    if truthy (requiredPhp composerJson)
                    then requiredPhp composerJson else None |}
      end
  end.

End WithImports.

(** *** Vocabulary of the properties *)

(** The registry URL that an entry of the repositories block contributes:
    the one of a repository of type [composer]. *)
Definition composerUrl (entry : string * RepoEntry) : list string :=
  match entry.2 with
  | RepoObject repo =>
      if type_is repo "composer" then [transformRegUrl (repo_url repo)] else []
  | RepoBoolean _ => []
  end.

(** [repositories[depName]] is a repository of type [path]. *)
Definition boundToPath (repos : gmap string ComposerRepository)
    (name : string) : bool :=
  match repos !! name with
  | Some repo => type_is repo "path"
  | None => false
  end.

(** The name under which an entry of the repositories block is kept in
    [repositories], if it is kept. *)
Definition retainedAs (isArray : bool) (entry : string * RepoEntry)
  : option (string * ComposerRepository) :=
  match entry.2 with
  | RepoObject repo =>
      if (type_is repo "vcs" || type_is repo "git" || type_is repo "path")%bool
      then Some (propertyKey (if isArray then repo_name repo else Some entry.1),
                 repo)
      else None
  | RepoBoolean _ => None
  end.

(** Storing named repositories one after the other. *)
Definition store (m : gmap string ComposerRepository)
    (named : string * ComposerRepository) : gmap string ComposerRepository :=
  <[named.1 := named.2]> m.

End Extract.

(** ** Parsed JSON values

    [JSON.parse] returns a value of no checked type, and extract.ts casts
    it to [ComposerConfig] and [ComposerLock] without a test. The values
    [JSON.parse] builds, with the operations of the language that the file
    applies to them, whatever their shape. *)

Module Json.
Import JsString.

(** A number is kept as the string [String(n)] of its value; the members
    of an object are its own properties in the order of [Object.entries],
    under distinct keys. *)
#[local] Set Warnings "-register-all".
Inductive Json :=
| JNull
| JBool (b : bool)
| JNumber (text : string)
| JString (s : string)
| JArray (items : list Json)
| JObject (members : list (string * Json)).

(** What a property read gives: a value or [undefined]. *)
Definition Value : Type := option Json.

(** Truthiness: [undefined], [null], [false], [0] and the empty string are
    falsy. *)
Definition truthyValue (v : Value) : bool :=
  match v with
  | None | Some JNull => false
  | Some (JBool b) => b
  | Some (JNumber text) => negb (String.eqb text "0")
  | Some (JString s) => negb (String.eqb s "")
  | Some (JArray _) | Some (JObject _) => true
  end.

(** The indexed properties of an array, and of a string: its characters. *)
Definition indexed (items : list Json) : list (string * Json) :=
  imap (fun i x => (pretty i, x)) items.

Definition characters (s : string) : list Json :=
  map (fun c => JString (String c EmptyString)) (list_ascii_of_string s).

(** [Object.entries(v)]: [None] when it throws, which it does on [null]
    (and on [undefined]). *)
Definition Object_entries (v : Json) : option (list (string * Json)) :=
  match v with
  | JNull => None
  | JBool _ | JNumber _ => Some []
  | JString s => Some (indexed (characters s))
  | JArray items => Some (indexed items)
  | JObject members => Some members
  end.

Definition own (key : string) (members : list (string * Json)) : Value :=
  snd <$> List.find (fun kv => String.eqb kv.1 key) members.

(** [v[key]] for a [v] that is not [null]: an own property of [v]. The
    [length] of an array or string and the methods every value inherits
    are not values of [Json] and are left out: the file reads none of them
    from a parsed value by name, and where it reads a property under the
    name of a dependency, a dependency named like one of them has no [/]
    and is extracted the same way whether it is bound to a value without
    [type] or to none. *)
Definition get (v : Json) (key : string) : Value :=
  match v with
  | JObject members => own key members
  | JArray items => own key (indexed items)
  | JString s => own key (indexed (characters s))
  | JNull | JBool _ | JNumber _ => None
  end.

(** [v?.[key]] *)
Definition getOptional (v : Value) (key : string) : Value :=
  match v with
  | None | Some JNull => None
  | Some x => get x key
  end.

(** [value === 'text'] *)
Definition is_string (v : Value) (text : string) : bool :=
  match v with
  | Some (JString s) => String.eqb s text
  | _ => false
  end.

(** [value === false] *)
Definition is_false (v : Value) : bool :=
  match v with Some (JBool false) => true | _ => false end.

(** [is.object(v)]: an object or an array. *)
Definition is_object (v : Json) : bool :=
  match v with JArray _ | JObject _ => true | _ => false end.

(** [is.array(v)] *)
Definition is_array (v : Json) : bool :=
  match v with JArray _ => true | _ => false end.

(** The conversion of a value to a string, as a property key needs it:
    [None] when it throws. An array is joined with commas, [null] elements
    as empty strings; an object is [[object Object]] through the inherited
    [toString], and the conversion throws when an own property hides that
    method, no own property of a parsed object being callable. *)
Fixpoint toString (v : Json) : option string :=
  match v with
  | JNull => Some "null"
  | JBool true => Some "true"
  | JBool false => Some "false"
  | JNumber text => Some text
  | JString s => Some s
  | JArray items =>
      join "," <$>
        (fix elements (items : list Json) : option (list string) :=
           match items with
           | [] => Some []
           | item :: rest =>
               match match item with JNull => Some "" | _ => toString item end,
                     elements rest with
               | Some s, Some ss => Some (s :: ss)
               | _, _ => None
               end
           end) items
  | JObject members =>
      match own "toString" members with
      | Some _ => None
      | None => Some "[object Object]"
      end
  end.

(** The first character is a decimal digit, as in every index. *)
Definition headIsDigit (s : string) : bool :=
  match s with
  | String c _ => ((48 <=? nat_of_ascii c) && (nat_of_ascii c <=? 57))%nat
  | EmptyString => false
  end.

(** The key under which [object[name] = ...] writes. *)
Definition propertyKey (name : Value) : option string :=
  match name with
  | None => Some "undefined"
  | Some v => toString v
  end.

End Json.

(** ** extract.ts on parsed values of any shape

    The same two functions on the values [JSON.parse] returns, with the
    [try] blocks and what they catch. [Extract] above is this code on
    values of the declared types. *)

Module ExtractJson.
Import JsString Json.

(** The two enumerations and [transformRegUrl] are those of [Extract]. *)
Abbreviation DepType := Extract.DepType.
Abbreviation require := Extract.require.
Abbreviation require_dev := Extract.require_dev.
Abbreviation SkipReason := Extract.SkipReason.
Abbreviation path_dependency := Extract.path_dependency.
Abbreviation unsupported := Extract.unsupported.
Abbreviation transformRegUrl := Extract.transformRegUrl.

(** A record as the loop pushes it. [packageName] is the [url] of a
    repository that nothing has tested: [Some None] is the property set to
    [undefined]. *)
Record PackageDependency := {
  depType : DepType;
  depName : string;
  currentValue : string;
  datasource : option string;
  packageName : option Value;
  extractVersion : option string;
  skipReason : option SkipReason;
  lockedVersion : option string;
  registryUrls : option (list string)
}.

Record PackageFileContent := {
  deps : list PackageDependency;
  lockFiles : option (list string);
  managerData : option string;
  extractedConstraints : option Json
}.

(** How the asynchronous function ends: it returns, or its promise is
    rejected with the [TypeError] of a property read from [null]. *)
Inductive Completion (A : Type) :=
| Returns (a : A)
| ThrowsTypeError.
Arguments Returns {A} a.
Arguments ThrowsTypeError {A}.

(** The imports, now on values of any shape: [JSON.parse] is [None] when
    it throws; [semverComposer.isVersion] is handed whatever the lock file
    has under [version], and is [None] when it throws. *)
Record Imports := {
  GithubTagsDatasource_id : string;
  GitTagsDatasource_id : string;
  PackagistDatasource_id : string;
  isVersion : Value -> option bool;
  readLocalFile : string -> option string;
  JSON_parse : string -> option Json
}.

(** *** parseRepositories *)

(** The object [repositories]: created as [{}], written under computed
    keys and read under the names of the dependencies. A write under
    [__proto__] reaches the setter every object inherits, which makes the
    value the prototype of [repositories], unless [__proto__] is by then a
    data property, own or of the prototype. A read falls back from the own
    properties to those of the prototype, and under [__proto__] to the
    prototype itself. *)
Record Repositories := {
  own_properties : gmap string Json;
  prototype : option Json
}.

Definition newObject : Repositories :=
  {| own_properties := ∅; prototype := None |}.

(** [repositories[key] = repo], for a [repo] that is an object. *)
Definition write (r : Repositories) (key : string) (repo : Json)
  : Repositories :=
  if String.eqb key "__proto__" then
    match own_properties r !! key, getOptional (prototype r) key with
    | None, None =>
        {| own_properties := own_properties r; prototype := Some repo |}
    | _, _ =>
        {| own_properties := <[key := repo]> (own_properties r);
           prototype := prototype r |}
    end
  else {| own_properties := <[key := repo]> (own_properties r);
          prototype := prototype r |}.

(** [repositories[name]] *)
Definition read (r : Repositories) (name : string) : Value :=
  match own_properties r !! name with
  | Some repo => Some repo
  | None =>
      match prototype r with
      | Some proto =>
          match get proto name with
          | Some v => Some v
          | None => if String.eqb name "__proto__" then Some proto else None
          end
      | None => None
      end
  end.

Record RepoState := {
  repositories : Repositories;
  registryUrls_acc : list string;
  packagist : bool
}.

Definition type_is (repo : Json) (t : string) : bool :=
  is_string (get repo "type") t.

(** The body of the [forEach] callback: [None] when it throws, which it
    does before it has written anything. *)
Definition parseRepository (isArray : bool) (st : RepoState)
    (entry : string * Json) : option RepoState :=
  let '(key, repo) := entry in
  if is_object repo then
    let name := if isArray then get repo "name" else Some (JString key) in
    let switched :=
      if (type_is repo "vcs" || type_is repo "git" || type_is repo "path")%bool
      then
        match propertyKey name with
        | Some k =>
            Some {| repositories := write (repositories st) k repo;
                    registryUrls_acc := registryUrls_acc st;
                    packagist := packagist st |}
        | None => None
        end
      else if type_is repo "composer" then
        match get repo "url" with
        | Some (JString url) =>
            Some {| repositories := repositories st;
                    registryUrls_acc :=
                      registryUrls_acc st ++ [transformRegUrl url];
                    packagist := packagist st |}
        | _ => None
        end
      else Some st in
    match switched with
    | Some st1 =>
        Some (if (is_false (get repo "packagist")
                  || is_false (get repo "packagist.org"))%bool
              then {| repositories := repositories st1;
                      registryUrls_acc := registryUrls_acc st1;
                      packagist := false |}
              else st1)
    | None => None
    end
  else if ((String.eqb key "packagist" || String.eqb key "packagist.org")
           && is_false (Some repo))%bool
  then Some {| repositories := repositories st;
               registryUrls_acc := registryUrls_acc st;
               packagist := false |}
  else Some st.

(** [entries.forEach(callback)] inside the [try]: the state when the loop
    ends, and whether it ended without a throw. *)
Fixpoint forEach (isArray : bool) (entries : list (string * Json))
    (st : RepoState) : RepoState * bool :=
  match entries with
  | [] => (st, true)
  | entry :: rest =>
      match parseRepository isArray st entry with
      | Some st' => forEach isArray rest st'
      | None => (st, false)
      end
  end.

(** [parseRepositories(repoJson, repositories, registryUrls)]: the two
    accumulators when it returns. Whatever is thrown inside the [try] is
    caught and logged; what was written before stays, and the default
    registry is not added. *)
Definition parseRepositories (repoJson : Json)
    (repos : Repositories) (registryUrls : list string)
  : Repositories * list string :=
  match Object_entries repoJson with
  | Some entries =>
      let '(st, completed) :=
        forEach (is_array repoJson) entries
          {| repositories := repos;
             registryUrls_acc := registryUrls;
             packagist := true |} in
      (repositories st,
       if (completed && packagist st)%bool
       then registryUrls_acc st ++ ["https://packagist.org"]
       else registryUrls_acc st)
  | None => (repos, registryUrls)
  end.

(** *** extractPackageFile *)

Section WithImports.
Variable I : Imports.

Definition lockFieldName (t : DepType) : string :=
  match t with
  | require => "packages"
  | require_dev => "packages-dev"
  end.

(** [items.find((item) => item.name === name)]: [None] when the callback
    throws, on an item that is [null]. *)
Fixpoint find_named (name : string) (items : list Json) : option Value :=
  match items with
  | [] => Some None
  | item :: rest =>
      match item with
      | JNull => None
      | _ =>
          if is_string (get item "name") name then Some (Some item)
          else find_named name rest
      end
  end.

(** Lines 170-181: the locked version of a name, if any; [None] when one
    of the statements throws. *)
Definition lockedVersionOf (lockParsed : Value) (t : DepType) (name : string)
  : option (option string) :=
  match lockParsed with
  | Some lock =>
      if truthyValue lockParsed then
        match get lock (lockFieldName t) with
        | None | Some JNull => Some None
        | Some (JArray items) =>
            match find_named name items with
            | None => None
            | Some None => Some None
            | Some (Some lockedDep) =>
                match isVersion I (get lockedDep "version") with
                | None => None
                | Some false => Some None
                | Some true =>
                    match get lockedDep "version" with
                    | Some (JString version) =>
                        Some (Some (stripLeadingV version))
                    | _ => None
                    end
                end
            end
        | Some _ => None
        end
      else Some None
  | None => Some None
  end.

(** Lines 158-190. [bound] is [repositories[depName]]. *)
Definition registryDependency (bound : Value) (registryUrls : list string)
    (lockParsed : Value) (t : DepType) (name value ds : string)
    (pkg : Value) : option PackageDependency :=
  let skip := if includes name "/" then None else Some unsupported in
  let unbound :=
    match bound with
    | Some repo =>
        if truthyValue bound then type_is repo "composer" else true
    | None => true
    end in
  match lockedVersionOf lockParsed t name with
  | Some locked =>
      Some {| depType := t;
              depName := name;
              currentValue := value;
              datasource := Some ds;
              packageName := if is_string pkg name then None else Some pkg;
              extractVersion := None;
              skipReason := skip;
              lockedVersion := locked;
              registryUrls :=
                match skip, unbound, registryUrls with
                | None, true, _ :: _ => Some registryUrls
                | _, _, _ => None
                end |}
  | None => None
  end.

(** The body of the inner [for] loop: the record it pushes, or [None]
    when it throws. *)
Definition extractDependency (repos : Repositories)
    (registryUrls : list string) (lockParsed : Value)
    (t : DepType) (entry : string * Json) : option PackageDependency :=
  let '(name, version) := entry in
  match version with
  | JString version =>
      let value := trim version in
      if String.eqb name "php" then
        Some {| depType := t;
                depName := name;
                currentValue := value;
                datasource := Some (GithubTagsDatasource_id I);
                packageName := Some (Some (JString "php/php-src"));
                extractVersion := Some "^php-(?<version>.*)$";
                skipReason := None;
                lockedVersion := None;
                registryUrls := None |}
      else
        let bound := read repos name in
        let finish :=
          registryDependency bound registryUrls lockParsed t name value in
        match bound with
        | Some repo =>
            if truthyValue bound then
              if (type_is repo "vcs" || type_is repo "git")%bool then
                finish (GitTagsDatasource_id I) (get repo "url")
              else if type_is repo "path" then
                Some {| depType := t;
                        depName := name;
                        currentValue := value;
                        datasource := None;
                        packageName := None;
                        extractVersion := None;
                        skipReason := Some path_dependency;
                        lockedVersion := None;
                        registryUrls := None |}
              else finish (PackagistDatasource_id I) (Some (JString name))
            else finish (PackagistDatasource_id I) (Some (JString name))
        | None => finish (PackagistDatasource_id I) (Some (JString name))
        end
  | _ => None
  end.

(** [Object.entries(composerJson[depType])] when [composerJson[depType]]
    is truthy, and no pair otherwise. *)
Definition declared (t : DepType) (composerJson : Json)
  : list (string * Json) :=
  let group :=
    get composerJson
      match t with require => "require" | require_dev => "require-dev" end in
  if truthyValue group
  then default [] (group ≫= Object_entries)
  else [].

Definition lockfilePath (fileName : string) : string :=
  replaceSuffix ".json" ".lock" fileName.

Definition lockContents (fileName : string) : option string :=
  readLocalFile I (lockfilePath fileName).

(** Lines 101-110: [undefined] when there is no lock file or it is not
    valid JSON. *)
Definition lockParsed (fileName : string) : Value :=
  if truthy (lockContents fileName)
  then lockContents fileName ≫= JSON_parse I
  else None.

(** Lines 94-95 and 113-115, for a [composerJson] that is not [null]. *)
Definition customRepositories (composerJson : Json)
  : Repositories * list string :=
  match get composerJson "repositories" with
  | Some repoJson =>
      if truthyValue (Some repoJson)
      then parseRepositories repoJson newObject []
      else (newObject, [])
  | None => (newObject, [])
  end.

(** The inner loop over one group: the records pushed, or [None] when a
    pair throws. *)
Fixpoint extractGroup (repos : Repositories) (registryUrls : list string)
    (lockParsed : Value) (t : DepType) (pairs : list (string * Json))
  : option (list PackageDependency) :=
  match pairs with
  | [] => Some []
  | entry :: rest =>
      match extractDependency repos registryUrls lockParsed t entry with
      | Some d =>
          cons d <$> extractGroup repos registryUrls lockParsed t rest
      | None => None
      end
  end.

(** Lines 117-198: the array [deps] after both groups, or [None] when the
    [catch] of line 193 is reached. *)
Definition extractDeps (composerJson : Json) (fileName : string)
  : option (list PackageDependency) :=
  let '(repos, registryUrls) := customRepositories composerJson in
  let group t :=
    extractGroup repos registryUrls (lockParsed fileName) t
      (declared t composerJson) in
  match group require with
  | Some ds =>
      match group require_dev with
      | Some ds' => Some (ds ++ ds')
      | None => None
      end
  | None => None
  end.

(** [composerJson.require?.php] *)
Definition requiredPhp (composerJson : Json) : Value :=
  getOptional (get composerJson "require") "php".

Definition extractPackageFile (content fileName : string)
  : Completion (option PackageFileContent) :=
  match JSON_parse I content with
  | None => Returns None
  | Some JNull => ThrowsTypeError
  | Some composerJson =>
      match extractDeps composerJson fileName with
      | None => Returns None
      | Some [] => Returns None
      | Some deps =>
          Returns
            (Some {| deps := deps;
                     lockFiles :=
                       if truthy (lockContents fileName)
                       then Some [lockfilePath fileName] else None;
                     managerData :=
                       match get composerJson "type" with
                       | Some (JString type) => Some type
                       | _ => None
                       end;
                     extractedConstraints :=
                       if truthyValue (requiredPhp composerJson)
                       then requiredPhp composerJson else None |})
      end
  end.

End WithImports.

(** *** Vocabulary of the properties *)

(** The repository is of one of the types kept in [repositories]. *)
Definition kept (repo : Json) : bool :=
  (type_is repo "vcs" || type_is repo "git" || type_is repo "path")%bool.

(** The name the callback computes for an entry. *)
Definition nameOf (isArray : bool) (entry : string * Json) : Value :=
  if isArray then get entry.2 "name" else Some (JString entry.1).

(** The callback throws on the entry: it is a repository to keep whose
    name has no string conversion, or a repository of type [composer]
    whose [url] is not a string. *)
Definition throwsOn (isArray : bool) (entry : string * Json) : bool :=
  (is_object entry.2 &&
   (if kept entry.2
    then match propertyKey (nameOf isArray entry) with
         | Some _ => false
         | None => true
         end
    else type_is entry.2 "composer" &&
         match get entry.2 "url" with
         | Some (JString _) => false
         | _ => true
         end))%bool.

(** The entries the loop handles: those before the first one the callback
    throws on. *)
Fixpoint processed (isArray : bool) (entries : list (string * Json))
  : list (string * Json) :=
  match entries with
  | [] => []
  | entry :: rest =>
      if throwsOn isArray entry then []
      else entry :: processed isArray rest
  end.

(** The registry URL an entry contributes: the one of a repository of
    type [composer] whose [url] is a string. *)
Definition composerUrl (entry : string * Json) : list string :=
  if (is_object entry.2 && type_is entry.2 "composer")%bool then
    match get entry.2 "url" with
    | Some (JString url) => [transformRegUrl url]
    | _ => []
    end
  else [].

(** An entry switches the default registry off. *)
Definition disablesDefault (entry : string * Json) : bool :=
  if is_object entry.2 then
    (is_false (get entry.2 "packagist")
     || is_false (get entry.2 "packagist.org"))%bool
  else
    ((String.eqb entry.1 "packagist" || String.eqb entry.1 "packagist.org")
     && is_false (Some entry.2))%bool.

(** The key under which an entry is written to [repositories], if it is. *)
Definition retainedAs (isArray : bool) (entry : string * Json)
  : option (string * Json) :=
  if (is_object entry.2 && kept entry.2)%bool
  then (fun key => (key, entry.2)) <$> propertyKey (nameOf isArray entry)
  else None.

(** Writing the retained repositories one after the other. *)
Definition writeAll (repos : Repositories) (named : list (string * Json))
  : Repositories :=
  fold_left (fun r kv => write r kv.1 kv.2) named repos.

(** [repositories[name]] is truthy and of type [path], and not of type
    [vcs] or [git]: the record of [name] is the path record, built without
    a look at the lock file. *)
Definition boundToPath (repos : Repositories) (name : string) : bool :=
  match read repos name with
  | Some repo =>
      (truthyValue (Some repo) && type_is repo "path")%bool
  | None => false
  end.

(** A declared constraint as the record carries it. *)
Definition trimmed (constraint : Json) : string :=
  match constraint with
  | JString version => trim version
  | _ => ""
  end.

Definition is_a_string (v : Json) : bool :=
  match v with JString _ => true | _ => false end.

End ExtractJson.

(** ** Values of the declared types

    The parsed value that a manifest, a repositories block and a lock file
    of the declared types are, and the imports of [ExtractJson] that those
    of [Extract] stand for. *)

Module Declared.
Import JsString Json.

(** A property of an object that may be missing. *)
Definition field (key : string) (v : option Json) : list (string * Json) :=
  match v with
  | Some x => [(key, x)]
  | None => []
  end.

Definition ofRepository (repo : Extract.ComposerRepository) : Json :=
  JObject
    (field "name" (JString <$> Extract.repo_name repo)
     ++ field "type" (JString <$> Extract.repo_type repo)
     ++ [("url", JString (Extract.repo_url repo))]
     ++ field "packagist" (JBool <$> Extract.repo_packagist repo)
     ++ field "packagist.org" (JBool <$> Extract.repo_packagist_org repo)).

Definition ofEntry (e : Extract.RepoEntry) : Json :=
  match e with
  | Extract.RepoObject repo => ofRepository repo
  | Extract.RepoBoolean b => JBool b
  end.

Definition ofKeyed (entry : string * Extract.RepoEntry) : string * Json :=
  (entry.1, ofEntry entry.2).

Definition ofRepositories (repoJson : Extract.ComposerRepositories) : Json :=
  match repoJson with
  | Extract.ReposArray items => JArray (map ofRepository items)
  | Extract.ReposRecord props => JObject (map ofKeyed props)
  end.

Definition ofPair (pair : string * string) : string * Json :=
  (pair.1, JString pair.2).

Definition ofGroup (pairs : list (string * string)) : Json :=
  JObject (map ofPair pairs).

Definition ofConfig (composerJson : Extract.ComposerConfig) : Json :=
  JObject
    (field "type" (JString <$> Extract.cfg_type composerJson)
     ++ field "repositories"
          (ofRepositories <$> Extract.cfg_repositories composerJson)
     ++ field "require" (ofGroup <$> Extract.cfg_require composerJson)
     ++ field "require-dev" (ofGroup <$> Extract.cfg_require_dev composerJson)).

Definition ofLocked (item : Extract.LockedPackage) : Json :=
  JObject [("name", JString (Extract.lock_name item));
           ("version", JString (Extract.lock_version item))].

Definition ofLockList (items : list Extract.LockedPackage) : Json :=
  JArray (map ofLocked items).

Definition ofLock (lock : Extract.ComposerLock) : Json :=
  JObject
    (field "packages" (ofLockList <$> Extract.lock_packages lock)
     ++ field "packages-dev" (ofLockList <$> Extract.lock_packages_dev lock)).

(** The results, read as results of [ExtractJson]. *)
Definition ofDependency (d : Extract.PackageDependency)
  : ExtractJson.PackageDependency :=
  {| ExtractJson.depType := Extract.depType d;
     ExtractJson.depName := Extract.depName d;
     ExtractJson.currentValue := Extract.currentValue d;
     ExtractJson.datasource := Extract.datasource d;
     ExtractJson.packageName :=
       (fun name => Some (JString name)) <$> Extract.packageName d;
     ExtractJson.extractVersion := Extract.extractVersion d;
     ExtractJson.skipReason := Extract.skipReason d;
     ExtractJson.lockedVersion := Extract.lockedVersion d;
     ExtractJson.registryUrls := Extract.registryUrls d |}.

Definition ofContent (res : Extract.PackageFileContent)
  : ExtractJson.PackageFileContent :=
  {| ExtractJson.deps := map ofDependency (Extract.deps res);
     ExtractJson.lockFiles := Extract.lockFiles res;
     ExtractJson.managerData := Extract.managerData res;
     ExtractJson.extractedConstraints :=
       JString <$> Extract.extractedConstraints res |}.

(** The imports of [Extract] describe those of [ExtractJson] for a
    manifest text and the lock file next to it: the identifiers and
    [readLocalFile] are the same, [isVersion] agrees on strings, and
    [JSON.parse] gives values of the declared types. *)
Record Describes (I : Extract.Imports) (J : ExtractJson.Imports)
    (content fileName : string) : Prop := {
  same_github : ExtractJson.GithubTagsDatasource_id J
                = Extract.GithubTagsDatasource_id I;
  same_git : ExtractJson.GitTagsDatasource_id J
             = Extract.GitTagsDatasource_id I;
  same_packagist : ExtractJson.PackagistDatasource_id J
                   = Extract.PackagistDatasource_id I;
  same_files : forall path,
    ExtractJson.readLocalFile J path = Extract.readLocalFile I path;
  same_versions : forall version,
    ExtractJson.isVersion J (Some (JString version))
    = Some (Extract.isVersion I version);
  typed_manifest :
    ExtractJson.JSON_parse J content
    = ofConfig <$> Extract.JSON_parse_config I content;
  typed_lock : forall text,
    Extract.lockContents I fileName = Some text ->
    ExtractJson.JSON_parse J text = ofLock <$> Extract.JSON_parse_lock I text
}.

(** The object [repositories] of [ExtractJson] holds what the dictionary
    of [Extract] holds: the repository under [__proto__] as its prototype,
    the others as own properties. *)
Definition sim (m : gmap string Extract.ComposerRepository)
    (r : ExtractJson.Repositories) : Prop :=
  ExtractJson.own_properties r = ofRepository <$> delete "__proto__" m /\
  ExtractJson.prototype r = ofRepository <$> m !! "__proto__".

Definition simState (st : Extract.RepoState) (st' : ExtractJson.RepoState)
  : Prop :=
  sim (Extract.repositories st) (ExtractJson.repositories st') /\
  ExtractJson.registryUrls_acc st' = Extract.registryUrls_acc st /\
  ExtractJson.packagist st' = Extract.packagist st.

(** The locked version [Extract.registryDependency] computes. *)
Definition lockedTyped (I : Extract.Imports)
    (lock : option Extract.ComposerLock)
    (t : Extract.DepType) (name : string) : option string :=
  match lock with
  | Some lock =>
      match Extract.findLocked t lock name with
      | Some lockedDep =>
          if Extract.isVersion I (Extract.lock_version lockedDep)
          then Some (stripLeadingV (Extract.lock_version lockedDep))
          else None
      | None => None
      end
  | None => None
  end.

End Declared.

(** ** The artifacts module: [getAuthJson] and [updateArtifacts] *)

Module Artifacts.
Import JsString.

(** *** Data model *)

(** A thrown value, as far as the file looks at it: [err.message]. *)
Record JsError := { message : option string }.

(** A host rule of the credential store. *)
Record HostRule := {
  resolvedHost : option string;
  username : option string;
  password : option string;
  token : option string
}.

(** [AuthJson]: every branch is absent until its first write. *)
Record AuthJson := {
  github_oauth : option (gmap string string);
  gitlab_token : option (gmap string string);
  gitlab_domains : option (list string);
  http_basic : option (gmap string (string * string));
  bearer : option (gmap string string)
}.

Record ToolConstraint := {
  toolName : string;
  constraint : option string
}.

(** [ExecOptions]; the field [docker] is the empty object. *)
Record ExecOptions := {
  cwdFile : string;
  COMPOSER_CACHE_DIR : string;
  COMPOSER_AUTH : option string;
  toolConstraints : list ToolConstraint
}.

(** [StatusResult] of the source-control status query. *)
Record StatusResult := {
  modified : list string;
  not_added : list string;
  deleted : list string
}.

Inductive UpdateArtifactsResult :=
| FileAddition (path : string) (contents : option string)
| FileDeletion (path : string)
| ArtifactError (lockFile : string) (stderr : option string).

(** An element of [updatedDeps]; [depName] is optional in its type. *)
Record UpdatedDep := { upd_depName : option string }.

(** [Schema.safeParse(JSON.parse(text))]: [JSON.parse] throws, or the
    schema rejects the value, or it yields the data. *)
Inductive ParseResult (A : Type) :=
| ParseThrows (e : JsError)
| SafeParseFailure
| SafeParseSuccess (data : A).
Arguments ParseThrows {A} e.
Arguments SafeParseFailure {A}.
Arguments SafeParseSuccess {A} data.

(** One call of a collaborator, with what it returned. *)
Inductive Event :=
| ReadLocalFile (path : string) (result : option string)
| LocalPathExists (path : string) (result : bool)
| EnsureLocalDir (path : string)
| WriteLocalFile (path content : string)
| EnsureCacheDir (name result : string)
| Exec (commands : list string) (options : ExecOptions)
       (raised : option JsError)
| GetRepoStatus (result : StatusResult).

(** How an asynchronous function ends: its promise is fulfilled with a
    value or rejected with an error. *)
Inductive Outcome (A : Type) :=
| Returned (a : A)
| Thrown (e : JsError).
Arguments Returned {A} a.
Arguments Thrown {A} e.

Section WithWorld.
(** [World] is what the collaborators act on, [Options] the run options
    only [getComposerArguments] reads, [Lock] and [Manifest] the data of
    the two schemas. *)
Context {World Options Lock Manifest : Type}.

(** The run configuration: the two options [updateArtifacts] reads
    itself, and the rest. *)
Record UpdateArtifactsConfig := {
  isLockFileMaintenance : option bool;
  constraints : option (gmap string string);
  otherOptions : Options
}.

Record UpdateArtifact := {
  packageFileName : string;
  updatedDeps : list UpdatedDep;
  newPackageFileContent : string;
  config : UpdateArtifactsConfig
}.

(** What the file imports and [src/] does not hold. The filesystem,
    process-execution and status collaborators follow the contracts of the
    specification's section 6: only [exec] raises. *)
Record Imports := {
  (* ../../../constants/error-messages *)
  SYSTEM_INSUFFICIENT_DISK_SPACE : string;
  TEMPORARY_ERROR : string;
  (* shlex *)
  quote : string -> string;
  (* ../../datasource *)
  GitTagsDatasource_id : string;
  PackagistDatasource_id : string;
  (* ../../../util/host-rules *)
  hostRules_findAll : string -> list HostRule;
  (* ./utils *)
  extractConstraints : Manifest -> Lock -> gmap string string;
  findGithubToken : string -> string -> option string;
  getComposerArguments :
    UpdateArtifactsConfig -> ToolConstraint -> string;
  getPhpConstraint : gmap string string -> option string;
  requireComposerDependencyInstallation : Lock -> bool;
  takePersonalAccessTokenIfPossible :
    option string -> option string -> option string;
  (* ./schema, JSON *)
  parseComposerLock : string -> ParseResult Lock;
  parseComposerConfig : string -> ParseResult Manifest;
  JSON_stringify : AuthJson -> string;
  (* ../../../util/fs *)
  getSiblingFileName : string -> string -> string;
  readLocalFile : string -> World -> option string * World;
  localPathExists : string -> World -> bool * World;
  ensureLocalDir : string -> World -> World;
  writeLocalFile : string -> string -> World -> World;
  ensureCacheDir : string -> World -> string * World;
  (* ../../../util/exec, ../../../util/git *)
  exec : list string -> ExecOptions -> World -> option JsError * World;
  getRepoStatus : World -> StatusResult * World
}.

Variable I : Imports.

(** *** getAuthJson *)

Definition emptyAuthJson : AuthJson :=
  {| github_oauth := None; gitlab_token := None; gitlab_domains := None;
     http_basic := None; bearer := None |}.

(** Lines 38-56. *)
Definition selectedGithubToken : option string :=
  takePersonalAccessTokenIfPossible I
    (findGithubToken I "github" "https://api.github.com/")
    (findGithubToken I (GitTagsDatasource_id I) "https://github.com").

Definition addGithub (authJson : AuthJson) : AuthJson :=
  if truthy selectedGithubToken then
    {| github_oauth :=
         Some {[ "github.com" := default "" selectedGithubToken ]};
       gitlab_token := gitlab_token authJson;
       gitlab_domains := gitlab_domains authJson;
       http_basic := http_basic authJson;
       bearer := bearer authJson |}
  else authJson.

(** Lines 58-69: the callback run on every gitlab host rule. A truthy
    field is [Some] of a non-empty string, which [default ""] reads. *)
Definition addGitlab (authJson : AuthJson) (gitlabHostRule : HostRule)
  : AuthJson :=
  if truthy (token gitlabHostRule) then
    let host := default "gitlab.com" (resolvedHost gitlabHostRule) in
    {| github_oauth := github_oauth authJson;
       gitlab_token :=
         Some (<[host := default "" (token gitlabHostRule)]>
                 (default ∅ (gitlab_token authJson)));
       gitlab_domains :=
         Some (host :: default [] (gitlab_domains authJson));
       http_basic := http_basic authJson;
       bearer := bearer authJson |}
  else authJson.

(** Lines 71-82: the callback run on every packagist host rule. *)
Definition addPackagist (authJson : AuthJson) (hostRule : HostRule)
  : AuthJson :=
  let host := default "" (resolvedHost hostRule) in
  if (truthy (resolvedHost hostRule) && truthy (username hostRule)
      && truthy (password hostRule))%bool
  then
    {| github_oauth := github_oauth authJson;
       gitlab_token := gitlab_token authJson;
       gitlab_domains := gitlab_domains authJson;
       http_basic :=
         Some (<[host := (default "" (username hostRule),
                          default "" (password hostRule))]>
                 (default ∅ (http_basic authJson)));
       bearer := bearer authJson |}
  else if (truthy (resolvedHost hostRule) && truthy (token hostRule))%bool
  then
    {| github_oauth := github_oauth authJson;
       gitlab_token := gitlab_token authJson;
       gitlab_domains := gitlab_domains authJson;
       http_basic := http_basic authJson;
       bearer :=
         Some (<[host := default "" (token hostRule)]>
                 (default ∅ (bearer authJson))) |}
  else authJson.

(** The object [authJson] when the [return] statement is reached. *)
Definition buildAuthJson : AuthJson :=
  fold_left addPackagist (hostRules_findAll I (PackagistDatasource_id I))
    (fold_left addGitlab (hostRules_findAll I "gitlab")
       (addGithub emptyAuthJson)).

(** [is.emptyObject]: no own key. *)
Definition emptyObject (authJson : AuthJson) : bool :=
  match github_oauth authJson, gitlab_token authJson,
        gitlab_domains authJson, http_basic authJson, bearer authJson with
  | None, None, None, None, None => true
  | _, _, _, _, _ => false
  end.

Definition getAuthJson : option string :=
  if emptyObject buildAuthJson then None
  else Some (JSON_stringify I buildAuthJson).

(** *** The effects of [updateArtifacts]

    An asynchronous function is a state transformer over the collaborators'
    world together with the log of the calls made so far; it ends by
    returning or by throwing. *)

Definition State : Type := World * list Event.

Definition M (A : Type) : Type := State -> Outcome A * State.

#[local] Instance M_ret : MRet M := fun A a s => (Returned a, s).

#[local] Instance M_bind : MBind M := fun A B k m s =>
  match m s with
  | (Returned a, s') => k a s'
  | (Thrown e, s') => (Thrown e, s')
  end.

Definition throw {A : Type} (e : JsError) : M A := fun s => (Thrown e, s).

(** [try { body } catch (err) { handler }] *)
Definition tryCatch {A : Type} (body : M A) (handler : JsError -> M A) : M A :=
  fun s =>
    match body s with
    | (Returned a, s') => (Returned a, s')
    | (Thrown e, s') => handler e s'
    end.

(** A call of a collaborator that cannot raise: run it on the world and log
    the call with its result. *)
Definition call {A : Type} (op : World -> A * World) (ev : A -> Event) : M A :=
  fun s =>
    let '(a, w) := op s.1 in
    (Returned a, (w, s.2 ++ [ev a])).

Definition await_readLocalFile (path : string) : M (option string) :=
  call (readLocalFile I path) (ReadLocalFile path).

Definition await_localPathExists (path : string) : M bool :=
  call (localPathExists I path) (LocalPathExists path).

Definition await_ensureLocalDir (path : string) : M unit :=
  call (fun w => (tt, ensureLocalDir I path w)) (fun _ => EnsureLocalDir path).

Definition await_writeLocalFile (path content : string) : M unit :=
  call (fun w => (tt, writeLocalFile I path content w))
       (fun _ => WriteLocalFile path content).

Definition await_ensureCacheDir (name : string) : M string :=
  call (ensureCacheDir I name) (EnsureCacheDir name).

Definition await_getRepoStatus : M StatusResult :=
  call (getRepoStatus I) GetRepoStatus.

(** [await exec(commands, execOptions)]: logged, then rethrown if it
    raised. *)
Definition await_exec (commands : list string) (options : ExecOptions)
  : M unit :=
  raised ← call (exec I commands options) (Exec commands options);
  match raised with
  | Some err => throw err
  | None => mret tt
  end.

(** [Schema.safeParse(JSON.parse(text))] inside the [try]: [None] stands
    for [success === false]. *)
Definition safeParse {A : Type} (r : ParseResult A) : M (option A) :=
  match r with
  | ParseThrows e => throw e
  | SafeParseFailure => mret None
  | SafeParseSuccess data => mret (Some data)
  end.

(** *** updateArtifacts *)

(** Lines 157-187: the array [commands] when [exec] is called. *)
Definition plannedCommands (u : UpdateArtifact) (lock : Lock)
    (composerToolConstraint : ToolConstraint) : list string :=
  let install :=
    if requireComposerDependencyInstallation I lock then
      let preCmd := "composer" in
      let preArgs :=
        "install" +:+ getComposerArguments I (config u) composerToolConstraint in
      ["git stash -- composer.json";
       preCmd +:+ " " +:+ preArgs;
       "git stash pop || true"]
    else [] in
  let cmd := "composer" in
  let args :=
    match isLockFileMaintenance (config u) with
    | Some true => "update"
    | _ =>
        trim ("update " +:+
              join " " (map (quote I) (omap upd_depName (updatedDeps u))))
        +:+ " --with-dependencies"
    end in
  let args := args +:+ getComposerArguments I (config u) composerToolConstraint in
  install ++ [cmd +:+ " " +:+ args].

(** [err.message?.includes(text)] *)
Definition messageIncludes (err : JsError) (text : string) : bool :=
  match message err with
  | Some m => includes m text
  | None => false
  end.

(** Lines 231-255: how the [catch] block ends; it calls no collaborator. *)
Definition catchBlock (lockFileName : string) (err : JsError)
  : Outcome (option (list UpdateArtifactsResult)) :=
  if bool_decide (message err = Some (TEMPORARY_ERROR I)) then Thrown err
  else if messageIncludes err
       "Your requirements could not be resolved to an installable set of packages."
  then Returned (Some [ArtifactError lockFileName (message err)])
  else if messageIncludes err "write error (disk full?)"
  then Thrown {| message := Some (SYSTEM_INSUFFICIENT_DISK_SPACE I) |}
  else Returned (Some [ArtifactError lockFileName (message err)]).

(** Lines 210-220: the loop over [[...status.modified, ...status.not_added]]. *)
Fixpoint addVendorFiles (vendorDir : string) (files : list string)
    (res : list UpdateArtifactsResult) : M (list UpdateArtifactsResult) :=
  match files with
  | [] => mret res
  | f :: rest =>
      if startsWith f vendorDir then
        contents ← await_readLocalFile f;
        addVendorFiles vendorDir rest (res ++ [FileAddition f contents])
      else addVendorFiles vendorDir rest res
  end.

(** Lines 132-155: the constraints and the options of [exec]. *)
Definition mergedConstraints (u : UpdateArtifact) (manifestData : Manifest)
    (lockData : Lock) : gmap string string :=
  default ∅ (constraints (config u)) ∪ extractConstraints I manifestData lockData.

Definition composerToolConstraint (merged : gmap string string)
  : ToolConstraint :=
  {| toolName := "composer"; constraint := merged !! "composer" |}.

Definition phpToolConstraint (merged : gmap string string) : ToolConstraint :=
  {| toolName := "php"; constraint := getPhpConstraint I merged |}.

Definition execOptions (u : UpdateArtifact) (merged : gmap string string)
    (cacheDir : string) : ExecOptions :=
  {| cwdFile := packageFileName u;
     COMPOSER_CACHE_DIR := cacheDir;
     COMPOSER_AUTH := getAuthJson;
     toolConstraints :=
       [phpToolConstraint merged; composerToolConstraint merged] |}.

Definition updateArtifacts (u : UpdateArtifact)
  : M (option (list UpdateArtifactsResult)) :=
  let lockFileName := replaceSuffix ".json" ".lock" (packageFileName u) in
  existingLockFileContent ← await_readLocalFile lockFileName;
  if negb (truthy existingLockFileContent) then mret None else
  let vendorDir := getSiblingFileName I (packageFileName u) "vendor" in
  commitVendorFiles ← await_localPathExists vendorDir;
  _ ← await_ensureLocalDir vendorDir;
  tryCatch
    (_ ← await_writeLocalFile (packageFileName u) (newPackageFileContent u);
     composerLockResult ←
       safeParse (parseComposerLock I (default "" existingLockFileContent));
     match composerLockResult with
     | None => mret None
     | Some lockData =>
     newPackageFileResult ←
       safeParse (parseComposerConfig I (newPackageFileContent u));
     match newPackageFileResult with
     | None => mret None
     | Some manifestData =>
     let merged := mergedConstraints u manifestData lockData in
     cacheDir ← await_ensureCacheDir "composer";
     let commands := plannedCommands u lockData (composerToolConstraint merged) in
     _ ← await_exec commands (execOptions u merged cacheDir);
     status ← await_getRepoStatus;
     if negb (bool_decide (lockFileName ∈ modified status)) then mret None else
     contents ← await_readLocalFile lockFileName;
     let res := [FileAddition lockFileName contents] in
     if negb commitVendorFiles then mret (Some res) else
     res ← addVendorFiles vendorDir (modified status ++ not_added status) res;
     mret (Some (res ++ map FileDeletion (deleted status)))
     end end)
    (fun err s => (catchBlock lockFileName err, s)).

(** A run from a world, with nothing logged yet: how it ends, and the calls
    it made. *)
Definition run {A : Type} (m : M A) (w : World) : Outcome A * list Event :=
  let '(o, s) := m (w, []) in (o, s.2).

(** *** Vocabulary of the properties *)

Definition present {A : Type} (branch : option A) : bool :=
  match branch with Some _ => true | None => false end.

(** What a host rule contributes, as the two callbacks test it. *)
Definition gitlabYields (rule : HostRule) : bool := truthy (token rule).

Definition basicYields (rule : HostRule) : bool :=
  truthy (resolvedHost rule) && truthy (username rule) && truthy (password rule).

Definition bearerYields (rule : HostRule) : bool :=
  negb (basicYields rule) && truthy (resolvedHost rule) && truthy (token rule).

(** Every branch that is present holds at least one entry. *)
Definition populated (authJson : AuthJson) : Prop :=
  (forall m, github_oauth authJson = Some m -> m <> ∅) /\
  (forall m, gitlab_token authJson = Some m -> m <> ∅) /\
  (forall l, gitlab_domains authJson = Some l -> l <> []) /\
  (forall m, http_basic authJson = Some m -> m <> ∅) /\
  (forall m, bearer authJson = Some m -> m <> ∅).

(** The branches that are present, in the order github-oauth, gitlab-token,
    gitlab-domains, http-basic, bearer. *)
Definition branches (authJson : AuthJson) : list bool :=
  [present (github_oauth authJson); present (gitlab_token authJson);
   present (gitlab_domains authJson); present (http_basic authJson);
   present (bearer authJson)].

(** Some credential rule yields a token or a username/password pair. *)
Definition collected : bool :=
  truthy selectedGithubToken
  || existsb gitlabYields (hostRules_findAll I "gitlab")
  || existsb (fun rule => basicYields rule || bearerYields rule)
       (hostRules_findAll I (PackagistDatasource_id I)).

(** The path an element of the result is about. *)
Definition resultPath (r : UpdateArtifactsResult) : string :=
  match r with
  | FileAddition path _ => path
  | FileDeletion path => path
  | ArtifactError lockFile _ => lockFile
  end.

(** In the words of the specification: an update that names the given
    dependencies, each shell-quoted, followed by the flag. *)
Definition namedUpdate (names : list string) : string :=
  "update" +:+ String.concat "" (map (fun n => " " +:+ quote I n) names)
  +:+ " --with-dependencies".

(** What [quote] of shlex guarantees here: a word that is not empty and
    does not end in white space. *)
Definition quotesWords : Prop :=
  forall n, quote I n <> "" /\ trimEnd (quote I n) = quote I n.

(** The host a gitlab rule is filed under. *)
Definition gitlabHost (rule : HostRule) : string :=
  default "gitlab.com" (resolvedHost rule).

(** Kinds of collaborator calls, and the elements of a result that are
    file changes. *)
Definition isExec (e : Event) : bool :=
  match e with Exec _ _ _ => true | _ => false end.

Definition isStatus (e : Event) : bool :=
  match e with GetRepoStatus _ => true | _ => false end.

Definition isWrite (e : Event) : bool :=
  match e with
  | WriteLocalFile _ _ | EnsureLocalDir _ => true
  | _ => false
  end.

Definition isFileChange (r : UpdateArtifactsResult) : bool :=
  match r with ArtifactError _ _ => false | _ => true end.

(** The calls of a log other than [readLocalFile] and [localPathExists]:
    those that create a directory, write a file, run commands or query the
    status. *)
Definition effects (log : list Event) : list Event :=
  List.filter
    (fun e => match e with
              | ReadLocalFile _ _ | LocalPathExists _ _ => false
              | EnsureLocalDir _ | WriteLocalFile _ _ | EnsureCacheDir _ _
              | Exec _ _ _ | GetRepoStatus _ => true
              end) log.

(** Every run of [updateArtifacts] ends in one of nine ways. [Run o log]
    lists them: how the run ends, and the collaborator calls it made, each
    with what the collaborator answered. *)

Section OfRequest.
Variable u : UpdateArtifact.

(** The names of the dependencies being changed. *)
Definition changedNames : list string := omap upd_depName (updatedDeps u).

Definition lockFileName : string :=
  replaceSuffix ".json" ".lock" (packageFileName u).

Definition vendorDir : string :=
  getSiblingFileName I (packageFileName u) "vendor".

(** The calls up to the first statement of the [try] block. *)
Definition preamble (existing : option string) (commit : bool) : list Event :=
  [ReadLocalFile lockFileName existing;
   LocalPathExists vendorDir commit;
   EnsureLocalDir vendorDir;
   WriteLocalFile (packageFileName u) (newPackageFileContent u)].

(** The calls that run the planned commands. *)
Definition execution (lockData : Lock) (manifestData : Manifest)
    (cacheDir : string) (raised : option JsError) : list Event :=
  let merged := mergedConstraints u manifestData lockData in
  [EnsureCacheDir "composer" cacheDir;
   Exec (plannedCommands u lockData (composerToolConstraint merged))
        (execOptions u merged cacheDir) raised].

(** The loop over the modified and new paths: the additions it pushes and
    the reads it makes. *)
Inductive VendorReads
  : list string -> list UpdateArtifactsResult -> list Event -> Prop :=
| VendorReads_nil : VendorReads [] [] []
| VendorReads_outside f files added reads :
    startsWith f vendorDir = false ->
    VendorReads files added reads ->
    VendorReads (f :: files) added reads
| VendorReads_under f files contents added reads :
    startsWith f vendorDir = true ->
    VendorReads files added reads ->
    VendorReads (f :: files) (FileAddition f contents :: added)
      (ReadLocalFile f contents :: reads).

Inductive Run
  : Outcome (option (list UpdateArtifactsResult)) -> list Event -> Prop :=
| Run_no_lock existing :
    truthy existing = false ->
    Run (Returned None) [ReadLocalFile lockFileName existing]
| Run_lock_throws existing commit err :
    truthy existing = true ->
    parseComposerLock I (default "" existing) = ParseThrows err ->
    Run (catchBlock lockFileName err) (preamble existing commit)
| Run_lock_invalid existing commit :
    truthy existing = true ->
    parseComposerLock I (default "" existing) = SafeParseFailure ->
    Run (Returned None) (preamble existing commit)
| Run_manifest_throws existing commit lockData err :
    truthy existing = true ->
    parseComposerLock I (default "" existing) = SafeParseSuccess lockData ->
    parseComposerConfig I (newPackageFileContent u) = ParseThrows err ->
    Run (catchBlock lockFileName err) (preamble existing commit)
| Run_manifest_invalid existing commit lockData :
    truthy existing = true ->
    parseComposerLock I (default "" existing) = SafeParseSuccess lockData ->
    parseComposerConfig I (newPackageFileContent u) = SafeParseFailure ->
    Run (Returned None) (preamble existing commit)
| Run_exec_raises existing commit lockData manifestData cacheDir err :
    truthy existing = true ->
    parseComposerLock I (default "" existing) = SafeParseSuccess lockData ->
    parseComposerConfig I (newPackageFileContent u)
      = SafeParseSuccess manifestData ->
    Run (catchBlock lockFileName err)
      (preamble existing commit
       ++ execution lockData manifestData cacheDir (Some err))
| Run_lock_unchanged existing commit lockData manifestData cacheDir status :
    truthy existing = true ->
    parseComposerLock I (default "" existing) = SafeParseSuccess lockData ->
    parseComposerConfig I (newPackageFileContent u)
      = SafeParseSuccess manifestData ->
    lockFileName ∉ modified status ->
    Run (Returned None)
      (preamble existing commit
       ++ execution lockData manifestData cacheDir None
       ++ [GetRepoStatus status])
| Run_lock_only existing lockData manifestData cacheDir status contents :
    truthy existing = true ->
    parseComposerLock I (default "" existing) = SafeParseSuccess lockData ->
    parseComposerConfig I (newPackageFileContent u)
      = SafeParseSuccess manifestData ->
    lockFileName ∈ modified status ->
    Run (Returned (Some [FileAddition lockFileName contents]))
      (preamble existing false
       ++ execution lockData manifestData cacheDir None
       ++ [GetRepoStatus status; ReadLocalFile lockFileName contents])
| Run_vendored existing lockData manifestData cacheDir status contents
    added reads :
    truthy existing = true ->
    parseComposerLock I (default "" existing) = SafeParseSuccess lockData ->
    parseComposerConfig I (newPackageFileContent u)
      = SafeParseSuccess manifestData ->
    lockFileName ∈ modified status ->
    VendorReads (modified status ++ not_added status) added reads ->
    Run (Returned (Some (FileAddition lockFileName contents :: added
                         ++ map FileDeletion (deleted status))))
      (preamble existing true
       ++ execution lockData manifestData cacheDir None
       ++ [GetRepoStatus status; ReadLocalFile lockFileName contents]
       ++ reads).

End OfRequest.

End WithWorld.

End Artifacts.

(** ** Sample inputs

    Concrete manifests, lock files and collaborators on which the two
    functions are evaluated below. *)

Module Samples.

(** A stand-in for [semverComposer.isVersion]: an optional [v], then a
    digit. *)
Definition startsWithDigit (s : string) : bool :=
  match s with
  | String c _ => (48 <=? nat_of_ascii c)%nat && (nat_of_ascii c <=? 57)%nat
  | EmptyString => false
  end.

Definition sampleIsVersion (s : string) : bool :=
  startsWithDigit (JsString.stripLeadingV s).

(** The imports of extract.ts for a manifest [composer.json] whose text
    parses to [composerJson], next to a lock file parsing to [lock], if
    any. *)
Definition extractImports (composerJson : Extract.ComposerConfig)
    (lock : option Extract.ComposerLock) : Extract.Imports :=
  {| Extract.GithubTagsDatasource_id := "github-tags";
     Extract.GitTagsDatasource_id := "git-tags";
     Extract.PackagistDatasource_id := "packagist";
     Extract.isVersion := sampleIsVersion;
     Extract.readLocalFile := fun path =>
       if String.eqb path "composer.lock"
       then match lock with Some _ => Some "<lock>" | None => None end
       else None;
     Extract.JSON_parse_config := fun text =>
       if String.eqb text "<manifest>" then Some composerJson else None;
     Extract.JSON_parse_lock := fun _ => lock |}.

Definition manifest (repos : option Extract.ComposerRepositories)
    (req : list (string * string)) : Extract.ComposerConfig :=
  {| Extract.cfg_type := None;
     Extract.cfg_repositories := repos;
     Extract.cfg_require := Some req;
     Extract.cfg_require_dev := None |}.

Definition repository (name type url : string) : Extract.ComposerRepository :=
  {| Extract.repo_name := Some name;
     Extract.repo_type := Some type;
     Extract.repo_url := url;
     Extract.repo_packagist := None;
     Extract.repo_packagist_org := None |}.

Definition lockWith (name version : string) : Extract.ComposerLock :=
  {| Extract.lock_packages :=
       Some [{| Extract.lock_name := name; Extract.lock_version := version |}];
     Extract.lock_packages_dev := None |}.

(** A composer repository declared the way GitLab's guide writes it. *)
Definition gitlabRepo : Extract.ComposerRepository :=
  repository "gitlab" "composer"
    "https://gitlab.example/api/v4/group/7/-/packages/composer/packages.json".

(** A composer repository declared with the suffix twice. *)
Definition doubledSuffixRepo : Extract.ComposerRepository :=
  repository "mirror" "composer"
    "https://repo.example/packages.json/packages.json".

(** [{"require": {"php": ">=7.4", "ext-json": "*"}}] *)
Definition platformOnly : Extract.ComposerConfig :=
  manifest None [("php", ">=7.4"); ("ext-json", "*")].

(** [{"require": {"ext-json": "*", "monolog": "^2.0"}}] *)
Definition unscopedOnly : Extract.ComposerConfig :=
  manifest None [("ext-json", "*"); ("monolog", "^2.0")].

(** A path repository named like the dependency [acme/local]. *)
Definition pathManifest : Extract.ComposerConfig :=
  manifest (Some (Extract.ReposArray [repository "acme/local" "path" "../local"]))
    [("acme/local", "^1.0")].

(** A path repository named [php]. *)
Definition phpPathManifest : Extract.ComposerConfig :=
  manifest (Some (Extract.ReposArray [repository "php" "path" "../php"]))
    [("php", "^8.1")].

(** [{"require": {"foo/bar": "^1.0"}}] *)
Definition fooBarManifest : Extract.ComposerConfig :=
  manifest None [("foo/bar", "^1.0")].

(** What extraction yields for [pathManifest] and for [fooBarManifest], each
    next to a lock file that has the dependency at [v1.2.3]. *)
Definition localDep : Extract.PackageDependency :=
  {| Extract.depType := Extract.require;
     Extract.depName := "acme/local";
     Extract.currentValue := "^1.0";
     Extract.datasource := None;
     Extract.packageName := None;
     Extract.extractVersion := None;
     Extract.skipReason := Some Extract.path_dependency;
     Extract.lockedVersion := None;
     Extract.registryUrls := None |}.

Definition fooBarDep : Extract.PackageDependency :=
  {| Extract.depType := Extract.require;
     Extract.depName := "foo/bar";
     Extract.currentValue := "^1.0";
     Extract.datasource := Some "packagist";
     Extract.packageName := None;
     Extract.extractVersion := None;
     Extract.skipReason := None;
     Extract.lockedVersion := Some "1.2.3";
     Extract.registryUrls := None |}.

Definition contentOf (d : Extract.PackageDependency)
  : Extract.PackageFileContent :=
  {| Extract.deps := [d];
     Extract.lockFiles := Some ["composer.lock"];
     Extract.managerData := None;
     Extract.extractedConstraints := None |}.

(** The world of the artifacts samples: the files of the working tree, the
    most recent write first. *)
Definition Files : Type := list (string * string).

Definition readFile (path : string) (w : Files) : option string :=
  snd <$> List.find (fun kv => String.eqb kv.1 path) w.

Definition dirExists (path : string) (w : Files) : bool :=
  existsb (fun kv => JsString.startsWith kv.1 (path +:+ "/")) w.

(** The imports of the artifacts module for a manifest at the root of the
    repository: the credential store finds [github] as the token of both
    GitHub lookups and [rules] as the host rules of a host type, [exec]
    behaves as [execEffect], the status query answers [status]. *)
Definition sampleImports (github : option string)
    (rules : string -> list Artifacts.HostRule)
    (execEffect : Files -> option Artifacts.JsError * Files)
    (status : Artifacts.StatusResult)
  : @Artifacts.Imports Files unit unit unit :=
  {| Artifacts.SYSTEM_INSUFFICIENT_DISK_SPACE := "disk-space";
     Artifacts.TEMPORARY_ERROR := "temporary-error";
     Artifacts.quote := fun s => "'" +:+ s +:+ "'";
     Artifacts.GitTagsDatasource_id := "git-tags";
     Artifacts.PackagistDatasource_id := "packagist";
     Artifacts.hostRules_findAll := rules;
     Artifacts.extractConstraints := fun _ _ => ∅;
     Artifacts.findGithubToken := fun _ _ => github;
     Artifacts.getComposerArguments := fun _ _ => " --no-ansi --no-interaction";
     Artifacts.getPhpConstraint := fun cs => cs !! "php";
     Artifacts.requireComposerDependencyInstallation := fun _ => false;
     Artifacts.takePersonalAccessTokenIfPossible := fun a b =>
       match a with Some _ => a | None => b end;
     Artifacts.parseComposerLock := fun _ => Artifacts.SafeParseSuccess tt;
     Artifacts.parseComposerConfig := fun _ => Artifacts.SafeParseSuccess tt;
     Artifacts.JSON_stringify := fun _ => "<auth.json>";
     Artifacts.getSiblingFileName := fun _ sibling => sibling;
     Artifacts.readLocalFile := fun path w => (readFile path w, w);
     Artifacts.localPathExists := fun path w => (dirExists path w, w);
     Artifacts.ensureLocalDir := fun _ w => w;
     Artifacts.writeLocalFile := fun path content w => (path, content) :: w;
     Artifacts.ensureCacheDir := fun name w => ("/tmp/cache/" +:+ name, w);
     Artifacts.exec := fun _ _ => execEffect;
     Artifacts.getRepoStatus := fun w => (status, w) |}.

(** The same with an empty credential store. *)
Definition artifactsImports
    (execEffect : Files -> option Artifacts.JsError * Files)
    (status : Artifacts.StatusResult)
  : @Artifacts.Imports Files unit unit unit :=
  sampleImports None (fun _ => []) execEffect status.

(** The request to update [acme/widget] in [composer.json]. *)
Definition request : @Artifacts.UpdateArtifact unit :=
  {| Artifacts.packageFileName := "composer.json";
     Artifacts.updatedDeps := [{| Artifacts.upd_depName := Some "acme/widget" |}];
     Artifacts.newPackageFileContent := "<new manifest>";
     Artifacts.config :=
       {| Artifacts.isLockFileMaintenance := None;
          Artifacts.constraints := None;
          Artifacts.otherOptions := tt |} |}.

(** A resolver that rewrites the lock file. *)
Definition relock (w : Files) : option Artifacts.JsError * Files :=
  (None, ("composer.lock", "<new lock>") :: w).

(** A resolver that rewrites the lock file, replaces a file of a vendored
    package by a new one and, through a script of the project, removes a
    source file. *)
Definition revendor (w : Files) : option Artifacts.JsError * Files :=
  (None,
   ("composer.lock", "<new lock>") :: ("vendor/acme/widget/New.php", "<new>")
   :: List.filter
        (fun kv => negb (String.eqb kv.1 "vendor/acme/widget/Old.php"
                         || String.eqb kv.1 "src/Legacy.php"))
        w).

(** A resolver that changes nothing. *)
Definition satisfied (w : Files) : option Artifacts.JsError * Files :=
  (None, w).

(** A resolver that fails with [msg]. *)
Definition failWith (msg : string) (w : Files)
  : option Artifacts.JsError * Files :=
  (Some {| Artifacts.message := Some msg |}, w).

Definition status (m n d : list string) : Artifacts.StatusResult :=
  {| Artifacts.modified := m; Artifacts.not_added := n; Artifacts.deleted := d |}.

(** A working tree with a lock file and no vendor directory, and one with a
    vendored package. *)
Definition plainTree : Files :=
  [("composer.json", "<manifest>"); ("composer.lock", "<lock>")].

Definition vendoredTree : Files :=
  [("composer.json", "<manifest>"); ("composer.lock", "<lock>");
   ("src/Legacy.php", "<legacy>");
   ("vendor/acme/widget/Old.php", "<old>")].

(** A working tree without a lock file. *)
Definition bareTree : Files := [("composer.json", "<manifest>")].

(** The status after [revendor]. *)
Definition vendorStatus : Artifacts.StatusResult :=
  status ["composer.lock"] ["vendor/acme/widget/New.php"]
    ["vendor/acme/widget/Old.php"; "src/Legacy.php"].

Definition revendorImports : @Artifacts.Imports Files unit unit unit :=
  artifactsImports revendor vendorStatus.

Definition relockImports : @Artifacts.Imports Files unit unit unit :=
  artifactsImports relock (status ["composer.lock"] [] []).

(** A credential store with a gitlab token, a packagist account and a
    packagist rule that has a token and no host; the GitHub lookups find an
    empty token. *)
Definition storedRules (hostType : string) : list Artifacts.HostRule :=
  if String.eqb hostType "gitlab" then
    [{| Artifacts.resolvedHost := None; Artifacts.username := None;
        Artifacts.password := None; Artifacts.token := Some "glpat-1" |}]
  else if String.eqb hostType "packagist" then
    [{| Artifacts.resolvedHost := Some "repo.example";
        Artifacts.username := Some "ci";
        Artifacts.password := Some "secret"; Artifacts.token := None |};
     {| Artifacts.resolvedHost := None; Artifacts.username := None;
        Artifacts.password := None; Artifacts.token := Some "orphan" |}]
  else [].

Definition storeImports : @Artifacts.Imports Files unit unit unit :=
  sampleImports (Some "") storedRules satisfied (status [] [] []).

(** The command planned for [request], and the options [exec] gets. *)
Definition plannedUpdate : list string :=
  ["composer update 'acme/widget' --with-dependencies --no-ansi --no-interaction"].

Definition plannedOptions : Artifacts.ExecOptions :=
  {| Artifacts.cwdFile := "composer.json";
     Artifacts.COMPOSER_CACHE_DIR := "/tmp/cache/composer";
     Artifacts.COMPOSER_AUTH := None;
     Artifacts.toolConstraints :=
       [{| Artifacts.toolName := "php"; Artifacts.constraint := None |};
        {| Artifacts.toolName := "composer"; Artifacts.constraint := None |}] |}.

(** A failure message carrying both the resolver's text and the disk-full
    indication. *)
Definition unresolvableOnFullDisk : string :=
  "Your requirements could not be resolved to an installable set of packages. write error (disk full?)".

(** A git repository for the package [acme/tool]. *)
Definition toolRepo : Extract.ComposerRepository :=
  repository "acme/tool" "git" "https://git.example/tool.git".

Definition mixedRepositories : Extract.ComposerRepositories :=
  Extract.ReposArray [gitlabRepo; toolRepo].

(** A manifest with a composer repository and a git repository, and
    dependencies in both groups. *)
Definition mixedManifest : Extract.ComposerConfig :=
  {| Extract.cfg_type := Some "project";
     Extract.cfg_repositories := Some mixedRepositories;
     Extract.cfg_require := Some [("acme/widget", " ^2.0 "); ("acme/tool", "^1.0")];
     Extract.cfg_require_dev := Some [("phpunit/phpunit", "^10.0")] |}.

Definition mixedLock : Extract.ComposerLock :=
  {| Extract.lock_packages :=
       Some [{| Extract.lock_name := "acme/widget";
                Extract.lock_version := "2.3.1" |}];
     Extract.lock_packages_dev :=
       Some [{| Extract.lock_name := "phpunit/phpunit";
                Extract.lock_version := "dev-main" |}] |}.

Definition mixedUrls : list string :=
  ["https://gitlab.example/api/v4/group/7/-/packages/composer";
   "https://packagist.org"].

(** The three records extraction yields for [mixedManifest] next to
    [mixedLock]. *)
Definition widgetDep : Extract.PackageDependency :=
  {| Extract.depType := Extract.require;
     Extract.depName := "acme/widget";
     Extract.currentValue := "^2.0";
     Extract.datasource := Some "packagist";
     Extract.packageName := None;
     Extract.extractVersion := None;
     Extract.skipReason := None;
     Extract.lockedVersion := Some "2.3.1";
     Extract.registryUrls := Some mixedUrls |}.

Definition toolDep : Extract.PackageDependency :=
  {| Extract.depType := Extract.require;
     Extract.depName := "acme/tool";
     Extract.currentValue := "^1.0";
     Extract.datasource := Some "git-tags";
     Extract.packageName := Some "https://git.example/tool.git";
     Extract.extractVersion := None;
     Extract.skipReason := None;
     Extract.lockedVersion := None;
     Extract.registryUrls := None |}.

Definition phpunitDep : Extract.PackageDependency :=
  {| Extract.depType := Extract.require_dev;
     Extract.depName := "phpunit/phpunit";
     Extract.currentValue := "^10.0";
     Extract.datasource := Some "packagist";
     Extract.packageName := None;
     Extract.extractVersion := None;
     Extract.skipReason := None;
     Extract.lockedVersion := None;
     Extract.registryUrls := Some mixedUrls |}.

Definition mixedContent : Extract.PackageFileContent :=
  {| Extract.deps := [widgetDep; toolDep; phpunitDep];
     Extract.lockFiles := Some ["composer.lock"];
     Extract.managerData := Some "project";
     Extract.extractedConstraints := None |}.

Definition mixedImports : Extract.Imports :=
  extractImports mixedManifest (Some mixedLock).

(** The record extraction yields for [phpPathManifest]. *)
Definition boundPhpDep : Extract.PackageDependency :=
  {| Extract.depType := Extract.require;
     Extract.depName := "php";
     Extract.currentValue := "^8.1";
     Extract.datasource := Some "github-tags";
     Extract.packageName := Some "php/php-src";
     Extract.extractVersion := Some "^php-(?<version>.*)$";
     Extract.skipReason := None;
     Extract.lockedVersion := None;
     Extract.registryUrls := None |}.

(** The two records extraction yields for [platformOnly]. *)
Definition platformDeps : list Extract.PackageDependency :=
  [{| Extract.depType := Extract.require;
      Extract.depName := "php";
      Extract.currentValue := ">=7.4";
      Extract.datasource := Some "github-tags";
      Extract.packageName := Some "php/php-src";
      Extract.extractVersion := Some "^php-(?<version>.*)$";
      Extract.skipReason := None;
      Extract.lockedVersion := None;
      Extract.registryUrls := None |};
   {| Extract.depType := Extract.require;
      Extract.depName := "ext-json";
      Extract.currentValue := "*";
      Extract.datasource := Some "packagist";
      Extract.packageName := None;
      Extract.extractVersion := None;
      Extract.skipReason := Some Extract.unsupported;
      Extract.lockedVersion := None;
      Extract.registryUrls := None |}].

(** The imports [relockImports] with a lock file that is not valid JSON. *)
Definition brokenLockImports : @Artifacts.Imports Files unit unit unit :=
  {| Artifacts.SYSTEM_INSUFFICIENT_DISK_SPACE :=
       Artifacts.SYSTEM_INSUFFICIENT_DISK_SPACE relockImports;
     Artifacts.TEMPORARY_ERROR := Artifacts.TEMPORARY_ERROR relockImports;
     Artifacts.quote := Artifacts.quote relockImports;
     Artifacts.GitTagsDatasource_id :=
       Artifacts.GitTagsDatasource_id relockImports;
     Artifacts.PackagistDatasource_id :=
       Artifacts.PackagistDatasource_id relockImports;
     Artifacts.hostRules_findAll := Artifacts.hostRules_findAll relockImports;
     Artifacts.extractConstraints := Artifacts.extractConstraints relockImports;
     Artifacts.findGithubToken := Artifacts.findGithubToken relockImports;
     Artifacts.getComposerArguments :=
       Artifacts.getComposerArguments relockImports;
     Artifacts.getPhpConstraint := Artifacts.getPhpConstraint relockImports;
     Artifacts.requireComposerDependencyInstallation :=
       Artifacts.requireComposerDependencyInstallation relockImports;
     Artifacts.takePersonalAccessTokenIfPossible :=
       Artifacts.takePersonalAccessTokenIfPossible relockImports;
     Artifacts.parseComposerLock := fun _ =>
       Artifacts.ParseThrows
         {| Artifacts.message := Some "Unexpected end of JSON input" |};
     Artifacts.parseComposerConfig := Artifacts.parseComposerConfig relockImports;
     Artifacts.JSON_stringify := Artifacts.JSON_stringify relockImports;
     Artifacts.getSiblingFileName := Artifacts.getSiblingFileName relockImports;
     Artifacts.readLocalFile := Artifacts.readLocalFile relockImports;
     Artifacts.localPathExists := Artifacts.localPathExists relockImports;
     Artifacts.ensureLocalDir := Artifacts.ensureLocalDir relockImports;
     Artifacts.writeLocalFile := Artifacts.writeLocalFile relockImports;
     Artifacts.ensureCacheDir := Artifacts.ensureCacheDir relockImports;
     Artifacts.exec := Artifacts.exec relockImports;
     Artifacts.getRepoStatus := Artifacts.getRepoStatus relockImports |}.

(** The imports when the resolver fails on a full disk, and when it fails
    for a reason of its own. *)
Definition fullDiskImports : @Artifacts.Imports Files unit unit unit :=
  artifactsImports (failWith "write error (disk full?)") (status [] [] []).

Definition crashImports : @Artifacts.Imports Files unit unit unit :=
  artifactsImports (failWith "Segmentation fault") (status [] [] []).

(** What the run of [revendorImports] on [vendoredTree] returns. *)
Definition revendored : list Artifacts.UpdateArtifactsResult :=
  [Artifacts.FileAddition "composer.lock" (Some "<new lock>");
   Artifacts.FileAddition "vendor/acme/widget/New.php" (Some "<new>");
   Artifacts.FileDeletion "vendor/acme/widget/Old.php";
   Artifacts.FileDeletion "src/Legacy.php"].

(** *** Manifests of any shape *)

(** The imports of [ExtractJson] for a manifest [composer.json] whose text
    parses to [composerJson], next to a lock file whose text parses to
    [lock], if there is one. *)
Definition parsedImports (composerJson : Json.Json) (lock : option Json.Json)
  : ExtractJson.Imports :=
  {| ExtractJson.GithubTagsDatasource_id := "github-tags";
     ExtractJson.GitTagsDatasource_id := "git-tags";
     ExtractJson.PackagistDatasource_id := "packagist";
     ExtractJson.isVersion := fun version =>
       match version with
       | Some (Json.JString v) => Some (sampleIsVersion v)
       | _ => Some false
       end;
     ExtractJson.readLocalFile := fun path =>
       if String.eqb path "composer.lock"
       then match lock with Some _ => Some "<lock>" | None => None end
       else None;
     ExtractJson.JSON_parse := fun text =>
       if String.eqb text "<manifest>" then Some composerJson
       else if String.eqb text "<lock>" then lock
       else None |}.

Definition repositoryObject (name type : string) (url : Json.Json)
  : Json.Json :=
  Json.JObject [("name", Json.JString name); ("type", Json.JString type);
                ("url", url)].

(** [[{"type": "composer", "url": ".../packages.json"},
      {"type": "composer", "url": 5},
      {"type": "composer", "url": "https://c.example"}]] *)
Definition numberedUrlRepositories : Json.Json :=
  Json.JArray
    [repositoryObject "a" "composer"
       (Json.JString "https://a.example/packages.json");
     repositoryObject "b" "composer" (Json.JNumber "5");
     repositoryObject "c" "composer" (Json.JString "https://c.example")].

(** Three repositories named [acme/tool], with a repository of type
    [composer] that has no string for a URL before the third. *)
Definition firstTool : Json.Json :=
  repositoryObject "acme/tool" "vcs" (Json.JString "https://git.example/one").

Definition secondTool : Json.Json :=
  repositoryObject "acme/tool" "path" (Json.JString "../tool").

Definition thirdTool : Json.Json :=
  repositoryObject "acme/tool" "git" (Json.JString "https://git.example/three").

Definition shadowedRepositories : Json.Json :=
  Json.JArray
    [firstTool; secondTool;
     repositoryObject "mirror" "composer" Json.JNull; thirdTool].

Definition manifestObject (repositories : option Json.Json)
    (req : list (string * Json.Json)) : Json.Json :=
  Json.JObject
    (match repositories with
     | Some repos => [("repositories", repos)]
     | None => []
     end ++ [("require", Json.JObject req)]).

(** [{"require": {"b": " ^1.0 ", "10": "^2.0"}}], whose [require] is
    enumerated with [10] first. *)
Definition numberedNames : Json.Json :=
  manifestObject None
    [("10", Json.JString "^2.0"); ("b", Json.JString " ^1.0 ")].

Definition numberedContent : ExtractJson.PackageFileContent :=
  {| ExtractJson.deps :=
       [{| ExtractJson.depType := Extract.require;
           ExtractJson.depName := "10";
           ExtractJson.currentValue := "^2.0";
           ExtractJson.datasource := Some "packagist";
           ExtractJson.packageName := None;
           ExtractJson.extractVersion := None;
           ExtractJson.skipReason := Some Extract.unsupported;
           ExtractJson.lockedVersion := None;
           ExtractJson.registryUrls := None |};
        {| ExtractJson.depType := Extract.require;
           ExtractJson.depName := "b";
           ExtractJson.currentValue := "^1.0";
           ExtractJson.datasource := Some "packagist";
           ExtractJson.packageName := None;
           ExtractJson.extractVersion := None;
           ExtractJson.skipReason := Some Extract.unsupported;
           ExtractJson.lockedVersion := None;
           ExtractJson.registryUrls := None |}];
     ExtractJson.lockFiles := None;
     ExtractJson.managerData := None;
     ExtractJson.extractedConstraints := None |}.

(** [{"require": {"acme/widget": "^2.0", "acme/tool": 1}}] *)
Definition numberedConstraint : Json.Json :=
  manifestObject None
    [("acme/widget", Json.JString "^2.0"); ("acme/tool", Json.JNumber "1")].

(** A lock file whose [packages] is an object. *)
Definition keyedLock : Json.Json :=
  Json.JObject [("packages", Json.JObject [])].

(** The imports of [ExtractJson] that [mixedImports] describes. *)
Definition mixedParsedImports : ExtractJson.Imports :=
  parsedImports (Declared.ofConfig mixedManifest)
    (Some (Declared.ofLock mixedLock)).

End Samples.

(** * Properties *)

(** ** Facts about the string primitives *)

Module JsStringFacts.
Import JsString.

(** [String.append] is never unfolded by [simpl]; these are its two
    equations. *)
Lemma append_nil_l (s : string) : "" +:+ s = s.
Proof. reflexivity. Qed.

Lemma append_cons (c : ascii) (s t : string) :
  String c s +:+ t = String c (s +:+ t).
Proof. reflexivity. Qed.

Lemma append_nil_r (s : string) : s +:+ "" = s.
Proof.
  induction s as [|c s IH]; [reflexivity |].
  now rewrite append_cons, IH.
Qed.

Lemma append_assoc (a b c : string) : (a +:+ b) +:+ c = a +:+ (b +:+ c).
Proof.
  induction a as [|x a IH]; [reflexivity |].
  now rewrite !append_cons, IH.
Qed.

Lemma length_append (a b : string) :
  String.length (a +:+ b) = String.length a + String.length b.
Proof.
  induction a as [|x a IH]; [reflexivity |].
  rewrite append_cons. simpl. now rewrite IH.
Qed.

(** A string is not a proper extension of itself at the front. *)
Lemma cons_append_neq (c : ascii) (a suf : string) :
  String c (a +:+ suf) <> suf.
Proof.
  intros H. apply (f_equal String.length) in H.
  simpl in H. rewrite length_append in H. lia.
Qed.

Lemma append_inj_r (a b suf : string) : a +:+ suf = b +:+ suf -> a = b.
Proof.
  revert b. induction a as [|c a IH]; intros [|d b]; rewrite ?append_cons,
    ?append_nil_l; intros H.
  - reflexivity.
  - symmetry in H. now apply cons_append_neq in H.
  - now apply cons_append_neq in H.
  - injection H as -> H. now rewrite (IH _ H).
Qed.

Lemma endsWith_eq (s suf : string) :
  endsWith s suf =
  if String.eqb s suf then true
  else match s with "" => false | String _ s' => endsWith s' suf end.
Proof. now destruct s. Qed.

Lemma replaceSuffix_eq (suf repl s : string) :
  replaceSuffix suf repl s =
  if String.eqb s suf then repl
  else match s with
       | "" => ""
       | String c s' => String c (replaceSuffix suf repl s')
       end.
Proof. now destruct s. Qed.

Lemma endsWith_refl (s : string) : endsWith s s = true.
Proof. now rewrite endsWith_eq, String.eqb_refl. Qed.

Lemma endsWith_append (a suf : string) : endsWith (a +:+ suf) suf = true.
Proof.
  induction a as [|c a IH].
  - apply endsWith_refl.
  - rewrite append_cons, endsWith_eq.
    destruct (String.eqb (String c (a +:+ suf)) suf); [reflexivity | exact IH].
Qed.

Lemma endsWith_inv (s suf : string) :
  endsWith s suf = true -> exists a, s = a +:+ suf.
Proof.
  induction s as [|c s IH]; rewrite endsWith_eq.
  - destruct (String.eqb_spec "" suf) as [<-|]; [|discriminate].
    intros _. now exists "".
  - destruct (String.eqb_spec (String c s) suf) as [<-|].
    + intros _. now exists "".
    + intros H. destruct (IH H) as [a ->]. now exists (String c a).
Qed.

Lemma endsWith_iff (s suf : string) :
  endsWith s suf = true <-> exists a, s = a +:+ suf.
Proof.
  split; [apply endsWith_inv |].
  intros [a ->]. apply endsWith_append.
Qed.

(** The regular expression matches: the suffix is replaced. *)
Lemma replaceSuffix_append (suf repl a : string) :
  replaceSuffix suf repl (a +:+ suf) = a +:+ repl.
Proof.
  induction a as [|c a IH].
  - now rewrite !append_nil_l, replaceSuffix_eq, String.eqb_refl.
  - rewrite !append_cons, replaceSuffix_eq.
    destruct (String.eqb_spec (String c (a +:+ suf)) suf) as [E|_].
    + now apply cons_append_neq in E.
    + now rewrite IH.
Qed.

(** It does not match: the string is returned as it is. *)
Lemma replaceSuffix_unchanged (suf repl s : string) :
  endsWith s suf = false -> replaceSuffix suf repl s = s.
Proof.
  induction s as [|c s IH]; rewrite endsWith_eq, replaceSuffix_eq.
  - now destruct (String.eqb "" suf).
  - destruct (String.eqb (String c s) suf); [discriminate |].
    intros H. now rewrite IH.
Qed.

Lemma trimEnd_cons (c : ascii) (s : string) :
  trimEnd (String c s) =
  if isWhiteSpace c && String.eqb (trimEnd s) "" then ""
  else String c (trimEnd s).
Proof. reflexivity. Qed.

(** Trimming the end leaves a string alone when it ends with a non-empty
    string that trimming leaves alone. *)
Lemma trimEnd_append_fixed (a b : string) :
  b <> "" -> trimEnd b = b -> trimEnd (a +:+ b) = a +:+ b.
Proof.
  intros Hne Hb. induction a as [|c a IH]; [exact Hb |].
  rewrite append_cons, trimEnd_cons, IH.
  destruct (String.eqb_spec (a +:+ b) "") as [E|_].
  - destruct a; [now rewrite append_nil_l in E | discriminate E].
  - now rewrite andb_false_r.
Qed.

Lemma join_cons_cons (sep x y : string) (l : list string) :
  join sep (x :: y :: l) = x +:+ sep +:+ join sep (y :: l).
Proof. reflexivity. Qed.

Lemma append_eq_nil (a b : string) : a +:+ b = "" -> a = "".
Proof. now destruct a. Qed.

End JsStringFacts.

(** ** Properties of extract.ts *)

Module ExtractSpec.
Import JsString JsStringFacts Extract.

(** *** Registry URLs of composer repositories *)

(** [transformRegUrl] removes one trailing [/packages.json]. *)
Lemma transformRegUrl_suffix (base : string) :
  transformRegUrl (base +:+ "/packages.json") = base.
Proof.
  unfold transformRegUrl. now rewrite replaceSuffix_append, append_nil_r.
Qed.

Lemma transformRegUrl_other (url : string) :
  endsWith url "/packages.json" = false -> transformRegUrl url = url.
Proof. apply replaceSuffix_unchanged. Qed.

Lemma transformRegUrl_endsWith (url : string) :
  endsWith (transformRegUrl url) "/packages.json" = true <->
  endsWith url "/packages.json/packages.json" = true.
Proof.
  change "/packages.json/packages.json"
    with ("/packages.json" +:+ "/packages.json").
  destruct (endsWith url "/packages.json") eqn:E.
  - apply endsWith_inv in E as [base ->].
    rewrite transformRegUrl_suffix, !endsWith_iff. split.
    + intros [a ->]. exists a. now rewrite append_assoc.
    + intros [a H]. exists a. rewrite <- append_assoc in H.
      now apply append_inj_r in H.
  - rewrite (transformRegUrl_other _ E), E. split; [discriminate |].
    rewrite endsWith_iff. intros [a ->].
    rewrite <- append_assoc, endsWith_append in E. discriminate.
Qed.

(** What one entry of the repositories block appends to the registry URL
    list. *)
Lemma parseRepository_registryUrls (isArray : bool) (st : RepoState)
    (entry : string * RepoEntry) :
  registryUrls_acc (parseRepository isArray st entry)
    = registryUrls_acc st ++ composerUrl entry.
Proof.
  destruct entry as [key [repo|b]]; unfold parseRepository, composerUrl.
  - destruct (type_is repo "composer") eqn:Hty.
    + simpl. rewrite Hty.
      assert (Hother : (type_is repo "vcs" || type_is repo "git"
                        || type_is repo "path")%bool = false).
      { unfold type_is in *. destruct (repo_type repo) as [t|]; [|discriminate].
        apply String.eqb_eq in Hty. now subst t. }
      rewrite Hother. simpl.
      now destruct (is_false (repo_packagist repo)
                    || is_false (repo_packagist_org repo))%bool.
    + simpl. rewrite Hty, app_nil_r.
      now destruct (type_is repo "vcs" || type_is repo "git"
                    || type_is repo "path")%bool,
        (is_false (repo_packagist repo)
         || is_false (repo_packagist_org repo))%bool.
  - simpl. rewrite app_nil_r.
    now destruct ((String.eqb key "packagist" || String.eqb key "packagist.org")
                  && negb b)%bool.
Qed.

Lemma fold_parseRepository_registryUrls (isArray : bool)
    (l : list (string * RepoEntry)) (st : RepoState) :
  registryUrls_acc (fold_left (parseRepository isArray) l st)
    = registryUrls_acc st ++ flat_map composerUrl l.
Proof.
  revert st. induction l as [|entry l IH]; intros st; simpl.
  - now rewrite app_nil_r.
  - now rewrite IH, parseRepository_registryUrls, <- app_assoc.
Qed.

(** The registry URL list after the repositories block: what it held, then
    the transformed URL of every composer repository in declaration order,
    then the default registry unless it was disabled. *)
Lemma parseRepositories_registryUrls (repoJson : ComposerRepositories)
    (repos : gmap string ComposerRepository) (registryUrls : list string) :
  exists defaultRegistry,
    (defaultRegistry = [] \/ defaultRegistry = ["https://packagist.org"]) /\
    (parseRepositories repoJson repos registryUrls).2
      = registryUrls ++ flat_map composerUrl (entries repoJson)
        ++ defaultRegistry.
Proof.
  unfold parseRepositories. simpl.
  rewrite fold_parseRepository_registryUrls. simpl.
  destruct (packagist _).
  - exists ["https://packagist.org"]. rewrite <- app_assoc. auto.
  - exists []. rewrite app_nil_r. auto.
Qed.

(** C5 (as amended): for a repository declaration of type [composer], the
    URL appended to the registry URL list is the declared URL with one
    trailing [/packages.json] removed, and it is the declared URL itself
    when there is none; so it still ends in [/packages.json] exactly when
    the declared URL ends in [/packages.json/packages.json]. *)
Theorem composer_registry_url (repoJson : ComposerRepositories)
    (repos : gmap string ComposerRepository) (registryUrls : list string)
    (key : string) (repo : ComposerRepository) :
  In (key, RepoObject repo) (entries repoJson) ->
  type_is repo "composer" = true ->
  exists url,
    In url (parseRepositories repoJson repos registryUrls).2 /\
    composerUrl (key, RepoObject repo) = [url] /\
    (endsWith (repo_url repo) "/packages.json" = true ->
       repo_url repo = url +:+ "/packages.json") /\
    (endsWith (repo_url repo) "/packages.json" = false -> url = repo_url repo) /\
    (endsWith url "/packages.json" = true <->
       endsWith (repo_url repo) "/packages.json/packages.json" = true).
Proof.
  intros Hin Hty. exists (transformRegUrl (repo_url repo)).
  assert (Hurl : composerUrl (key, RepoObject repo)
                 = [transformRegUrl (repo_url repo)]).
  { unfold composerUrl. simpl. now rewrite Hty. }
  repeat split.
  - destruct (parseRepositories_registryUrls repoJson repos registryUrls)
      as (tail & _ & ->).
    rewrite !in_app_iff, in_flat_map. right. left.
    exists (key, RepoObject repo). rewrite Hurl. simpl. auto.
  - exact Hurl.
  - intros E. apply endsWith_inv in E as [base E].
    now rewrite E, transformRegUrl_suffix.
  - apply transformRegUrl_other.
  - apply transformRegUrl_endsWith.
  - apply transformRegUrl_endsWith.
Qed.

(** The hypotheses of the theorem hold for a repository declared the way
    GitLab's guide writes it. *)
Lemma composer_registry_url_witness :
  exists url,
    In url (parseRepositories (ReposArray [Samples.gitlabRepo]) ∅ []).2 /\
    composerUrl ("0", RepoObject Samples.gitlabRepo) = [url] /\
    (endsWith (repo_url Samples.gitlabRepo) "/packages.json" = true ->
       repo_url Samples.gitlabRepo = url +:+ "/packages.json") /\
    (endsWith (repo_url Samples.gitlabRepo) "/packages.json" = false ->
       url = repo_url Samples.gitlabRepo) /\
    (endsWith url "/packages.json" = true <->
       endsWith (repo_url Samples.gitlabRepo) "/packages.json/packages.json"
         = true).
Proof.
  apply (composer_registry_url (ReposArray [Samples.gitlabRepo]) ∅ []
           "0" Samples.gitlabRepo).
  - simpl. left. reflexivity.
  - reflexivity.
Defined.

(** C5 (as stated) fails: a composer repository declared with the suffix
    twice contributes a registry URL that still ends in [/packages.json]. *)
Lemma composer_registry_url_counterexample :
  type_is Samples.doubledSuffixRepo "composer" = true /\
  (parseRepositories (ReposArray [Samples.doubledSuffixRepo]) ∅ []).2
    = ["https://repo.example/packages.json"; "https://packagist.org"] /\
  endsWith "https://repo.example/packages.json" "/packages.json" = true.
Proof. repeat split; vm_compute; reflexivity. Qed.

(** *** The records built for the declared dependencies *)

Section Dependencies.
Variable I : Imports.

Lemma type_is_path_not_vcs (repo : ComposerRepository) :
  type_is repo "path" = true ->
  (type_is repo "vcs" || type_is repo "git")%bool = false.
Proof.
  unfold type_is. destruct (repo_type repo) as [t|]; [|discriminate].
  intros E. apply String.eqb_eq in E. now subst t.
Qed.

Lemma extractDependency_depName repos urls lock t name value :
  depName (extractDependency I repos urls lock t (name, value)) = name.
Proof.
  unfold extractDependency, registryDependency.
  destruct (String.eqb name "php"); [reflexivity |].
  destruct (repos !! name) as [repo|]; [|reflexivity].
  destruct (type_is repo "vcs" || type_is repo "git")%bool; [reflexivity |].
  now destruct (type_is repo "path").
Qed.

Lemma extractDependency_depType repos urls lock t entry :
  depType (extractDependency I repos urls lock t entry) = t.
Proof.
  destruct entry as [name value].
  unfold extractDependency, registryDependency.
  destruct (String.eqb name "php"); [reflexivity |].
  destruct (repos !! name) as [repo|]; [|reflexivity].
  destruct (type_is repo "vcs" || type_is repo "git")%bool; [reflexivity |].
  now destruct (type_is repo "path").
Qed.

(** The skip reason on each of the three paths of the loop body. *)
Lemma extractDependency_skipReason repos urls lock t name value :
  skipReason (extractDependency I repos urls lock t (name, value)) =
  if String.eqb name "php" then None
  else if boundToPath repos name then Some path_dependency
  else if includes name "/" then None
  else Some unsupported.
Proof.
  unfold extractDependency, registryDependency, boundToPath.
  destruct (String.eqb name "php"); [reflexivity |].
  destruct (repos !! name) as [repo|]; [|reflexivity].
  destruct (type_is repo "path") eqn:Hpath.
  - now rewrite (type_is_path_not_vcs _ Hpath).
  - now destruct (type_is repo "vcs" || type_is repo "git")%bool.
Qed.

(** The record pushed for a name bound to a [path] repository. *)
Lemma extractDependency_path repos urls lock t name value :
  String.eqb name "php" = false ->
  boundToPath repos name = true ->
  extractDependency I repos urls lock t (name, value) =
  {| depType := t; depName := name; currentValue := trim value;
     datasource := None; packageName := None; extractVersion := None;
     skipReason := Some path_dependency; lockedVersion := None;
     registryUrls := None |}.
Proof.
  unfold extractDependency, boundToPath. intros -> Hb.
  destruct (repos !! name) as [repo|]; [|discriminate].
  now rewrite (type_is_path_not_vcs _ Hb), Hb.
Qed.

(** The locked version of every other record but the one of [php]. *)
Lemma extractDependency_lockedVersion repos urls lock t name value :
  String.eqb name "php" = false ->
  boundToPath repos name = false ->
  lockedVersion (extractDependency I repos urls lock t (name, value)) =
  match lock with
  | Some l =>
      match findLocked t l name with
      | Some lockedDep =>
          if isVersion I (lock_version lockedDep)
          then Some (stripLeadingV (lock_version lockedDep))
          else None
      | None => None
      end
  | None => None
  end.
Proof.
  unfold extractDependency, registryDependency, boundToPath. intros -> Hb.
  destruct (repos !! name) as [repo|]; [|reflexivity].
  rewrite Hb. now destruct (type_is repo "vcs" || type_is repo "git")%bool.
Qed.

(** Every extracted record comes from one declared pair of one group. *)
Lemma in_extractDeps cfg fileName d :
  In d (extractDeps I cfg fileName) ->
  exists t name value,
    In (name, value) (declared t cfg) /\
    d = extractDependency I (customRepositories cfg).1
          (customRepositories cfg).2 (lockParsed I fileName) t (name, value).
Proof.
  unfold extractDeps. destruct (customRepositories cfg) as [repos urls].
  rewrite in_flat_map. intros (t & _ & Hd).
  apply in_map_iff in Hd as ([name value] & <- & Hin).
  now exists t, name, value.
Qed.

Lemma extractDeps_names cfg fileName :
  map depName (extractDeps I cfg fileName) =
  map fst (declared require cfg ++ declared require_dev cfg).
Proof.
  unfold extractDeps. destruct (customRepositories cfg) as [repos urls].
  simpl. rewrite app_nil_r, !map_app, !map_map.
  f_equal; apply map_ext; intros [name value];
    apply extractDependency_depName.
Qed.

(** What [extractPackageFile] returns, in terms of the array [deps]. *)
Lemma extractPackageFile_deps content fileName cfg res :
  JSON_parse_config I content = Some cfg ->
  extractPackageFile I content fileName = Some res ->
  deps res = extractDeps I cfg fileName.
Proof.
  unfold extractPackageFile. intros ->.
  destruct (extractDeps I cfg fileName); [discriminate |].
  now intros [= <-].
Qed.

Lemma extractPackageFile_some content fileName cfg :
  JSON_parse_config I content = Some cfg ->
  extractDeps I cfg fileName <> [] ->
  exists res, extractPackageFile I content fileName = Some res /\
              deps res = extractDeps I cfg fileName.
Proof.
  unfold extractPackageFile. intros -> Hne.
  destruct (extractDeps I cfg fileName); [congruence |].
  eexists. split; reflexivity.
Qed.

(** C6 (as amended): when every declared name lacks a [/] and at least one
    pair is declared, extraction emits one record per name/constraint pair
    of the parsed manifest, under the names of the pairs, so as many
    records as pairs; it marks each [unsupported], except the record of
    the reserved name [php], which carries no skip reason, and the record
    of a name bound to a [path] repository, which carries
    [path-dependency]. *)
Theorem unscoped_names_kept (content fileName : string) (cfg : ComposerConfig) :
  JSON_parse_config I content = Some cfg ->
  (forall t name value,
     In (name, value) (declared t cfg) -> includes name "/" = false) ->
  declared require cfg ++ declared require_dev cfg <> [] ->
  exists res,
    extractPackageFile I content fileName = Some res /\
    map depName (deps res)
      = map fst (declared require cfg ++ declared require_dev cfg) /\
    List.length (deps res)
      = List.length (declared require cfg ++ declared require_dev cfg) /\
    forall d, In d (deps res) ->
      skipReason d =
      if String.eqb (depName d) "php" then None
      else if boundToPath (customRepositories cfg).1 (depName d)
           then Some path_dependency
           else Some unsupported.
Proof.
  intros Hparse Hnames Hne.
  pose proof (extractDeps_names cfg fileName) as Hmap.
  destruct (extractPackageFile_some content fileName cfg Hparse)
    as (res & Hres & Hdeps).
  { intros E. rewrite E in Hmap. simpl in Hmap.
    symmetry in Hmap. apply map_eq_nil in Hmap. contradiction. }
  exists res. rewrite Hdeps. repeat split; [assumption .. | | ].
  - now rewrite <- (length_map depName), Hmap, length_map.
  - intros d Hd. apply in_extractDeps in Hd as (t & name & value & Hin & ->).
    rewrite extractDependency_depName, extractDependency_skipReason.
    now rewrite (Hnames _ _ _ Hin).
Qed.

(** C7 (as amended): the record extracted for a name other than [php] that
    a repository of type [path] is registered under carries the skip reason
    [path-dependency] and no datasource, package name, registry URLs or
    locked version. *)
Theorem path_repository_dependency (content fileName : string)
    (cfg : ComposerConfig) (res : PackageFileContent)
    (d : PackageDependency) (repo : ComposerRepository) :
  JSON_parse_config I content = Some cfg ->
  extractPackageFile I content fileName = Some res ->
  In d (deps res) ->
  (customRepositories cfg).1 !! depName d = Some repo ->
  repo_type repo = Some "path" ->
  depName d <> "php" ->
  skipReason d = Some path_dependency /\
  datasource d = None /\ packageName d = None /\ registryUrls d = None /\
  extractVersion d = None /\ lockedVersion d = None.
Proof.
  intros Hparse Hres Hd Hrepo Htype Hphp.
  rewrite (extractPackageFile_deps _ _ _ _ Hparse Hres) in Hd.
  apply in_extractDeps in Hd as (t & name & value & _ & ->).
  rewrite extractDependency_depName in Hrepo, Hphp.
  rewrite extractDependency_path; [now repeat split | |].
  - now apply String.eqb_neq.
  - unfold boundToPath, type_is. now rewrite Hrepo, Htype.
Qed.

(** C8 (as amended): for a declared name other than [php] that no [path]
    repository is registered under, if the first record of that name in the
    lock list of its group has a version that is a valid version, the
    locked version is that version without one leading [v] or [V]. *)
Theorem locked_version_stripped (content fileName : string)
    (cfg : ComposerConfig) (res : PackageFileContent)
    (d : PackageDependency) (lock : ComposerLock) (item : LockedPackage) :
  JSON_parse_config I content = Some cfg ->
  extractPackageFile I content fileName = Some res ->
  In d (deps res) ->
  lockParsed I fileName = Some lock ->
  findLocked (depType d) lock (depName d) = Some item ->
  isVersion I (lock_version item) = true ->
  depName d <> "php" ->
  boundToPath (customRepositories cfg).1 (depName d) = false ->
  lockedVersion d = Some (stripLeadingV (lock_version item)).
Proof.
  intros Hparse Hres Hd Hlock Hitem Hver Hphp Hpath.
  rewrite (extractPackageFile_deps _ _ _ _ Hparse Hres) in Hd.
  apply in_extractDeps in Hd as (t & name & value & _ & ->).
  rewrite extractDependency_depName in Hitem, Hphp, Hpath.
  rewrite extractDependency_depType in Hitem.
  rewrite extractDependency_lockedVersion;
    [| now apply String.eqb_neq | assumption].
  now rewrite Hlock, Hitem, Hver.
Qed.

End Dependencies.

(** [v1.2.3] and [V1.2.3] both become [1.2.3]; only one letter is removed. *)
Example stripLeadingV_examples :
  stripLeadingV "v1.2.3" = "1.2.3" /\ stripLeadingV "V1.2.3" = "1.2.3" /\
  stripLeadingV "1.2.3" = "1.2.3" /\ stripLeadingV "vv1" = "v1".
Proof. repeat split. Qed.

(** The hypotheses of [unscoped_names_kept] hold for a manifest that
    requires [ext-json] and [monolog]. *)
Lemma unscoped_names_kept_witness :
  exists res,
    extractPackageFile (Samples.extractImports Samples.unscopedOnly None)
      "<manifest>" "composer.json" = Some res /\
    map depName (deps res) = ["ext-json"; "monolog"] /\
    List.length (deps res) = 2 /\
    forall d, In d (deps res) ->
      skipReason d =
      if String.eqb (depName d) "php" then None
      else if boundToPath (customRepositories Samples.unscopedOnly).1 (depName d)
           then Some path_dependency
           else Some unsupported.
Proof.
  apply (unscoped_names_kept
           (Samples.extractImports Samples.unscopedOnly None)
           "<manifest>" "composer.json" Samples.unscopedOnly).
  - reflexivity.
  - intros [] name value H; simpl in H;
      repeat destruct H as [[= <- <-]|H]; try reflexivity; destruct H.
  - discriminate.
Defined.

(** C6 (as stated) fails: in a manifest that requires only [php] and
    [ext-json], no name has a [/], and the record of [php] is not marked
    [unsupported]. *)
Lemma unscoped_names_kept_counterexample :
  forallb (fun kv => negb (includes kv.1 "/"))
    (declared require Samples.platformOnly
     ++ declared require_dev Samples.platformOnly) = true /\
  (map (fun d => (depName d, skipReason d)) ∘ deps)
    <$> extractPackageFile (Samples.extractImports Samples.platformOnly None)
          "<manifest>" "composer.json"
  = Some [("php", None); ("ext-json", Some unsupported)].
Proof. split; vm_compute; reflexivity. Qed.

(** The hypotheses of [path_repository_dependency] hold for [acme/local],
    bound to a [path] repository. *)
Lemma path_repository_dependency_witness :
  skipReason Samples.localDep = Some path_dependency /\
  datasource Samples.localDep = None /\
  packageName Samples.localDep = None /\
  registryUrls Samples.localDep = None /\
  extractVersion Samples.localDep = None /\
  lockedVersion Samples.localDep = None.
Proof.
  apply (path_repository_dependency
           (Samples.extractImports Samples.pathManifest
              (Some (Samples.lockWith "acme/local" "v1.2.3")))
           "<manifest>" "composer.json" Samples.pathManifest
           (Samples.contentOf Samples.localDep) Samples.localDep
           (Samples.repository "acme/local" "path" "../local")).
  - reflexivity.
  - vm_compute. reflexivity.
  - simpl. left. reflexivity.
  - vm_compute. reflexivity.
  - reflexivity.
  - discriminate.
Defined.

(** C7 (as stated) fails: with a [path] repository registered under the
    name [php], the record of the dependency [php] has a datasource and a
    package name and no skip reason. *)
Lemma path_repository_dependency_counterexample :
  (customRepositories Samples.phpPathManifest).1 !! "php"
    = Some (Samples.repository "php" "path" "../php") /\
  (map (fun d => (depName d, skipReason d, datasource d, packageName d)) ∘ deps)
    <$> extractPackageFile
          (Samples.extractImports Samples.phpPathManifest None)
          "<manifest>" "composer.json"
  = Some [("php", None, Some "github-tags", Some "php/php-src")].
Proof. split; vm_compute; reflexivity. Qed.

(** The hypotheses of [locked_version_stripped] hold for [foo/bar], locked
    at [v1.2.3]. *)
Lemma locked_version_stripped_witness :
  lockedVersion Samples.fooBarDep = Some (stripLeadingV "v1.2.3").
Proof.
  apply (locked_version_stripped
           (Samples.extractImports Samples.fooBarManifest
              (Some (Samples.lockWith "foo/bar" "v1.2.3")))
           "<manifest>" "composer.json" Samples.fooBarManifest
           (Samples.contentOf Samples.fooBarDep) Samples.fooBarDep
           (Samples.lockWith "foo/bar" "v1.2.3")
           {| lock_name := "foo/bar"; lock_version := "v1.2.3" |}).
  - reflexivity.
  - vm_compute. reflexivity.
  - simpl. left. reflexivity.
  - reflexivity.
  - reflexivity.
  - reflexivity.
  - discriminate.
  - reflexivity.
Defined.

(** C8 (as stated) fails: the dependency [acme/local] is bound to a [path]
    repository; the lock list has a record of that name with the valid
    version [v1.2.3], and the extracted record has no locked version. *)
Lemma locked_version_stripped_counterexample :
  findLocked require (Samples.lockWith "acme/local" "v1.2.3") "acme/local"
    = Some {| lock_name := "acme/local"; lock_version := "v1.2.3" |} /\
  Samples.sampleIsVersion "v1.2.3" = true /\
  (map (fun d => (depName d, lockedVersion d)) ∘ deps)
    <$> extractPackageFile
          (Samples.extractImports Samples.pathManifest
             (Some (Samples.lockWith "acme/local" "v1.2.3")))
          "<manifest>" "composer.json"
  = Some [("acme/local", None)].
Proof. repeat split; vm_compute; reflexivity. Qed.

End ExtractSpec.

(** ** Properties of the artifacts module *)

Module ArtifactsSpec.
Import JsString JsStringFacts Artifacts.

(** *** The credential payload *)

Section Credentials.
Context {World Options Lock Manifest : Type}.
Variable I : @Imports World Options Lock Manifest.

Lemma emptyObject_branches (authJson : AuthJson) :
  emptyObject authJson = negb (existsb id (branches authJson)).
Proof.
  unfold emptyObject, branches.
  now destruct (github_oauth authJson), (gitlab_token authJson),
    (gitlab_domains authJson), (http_basic authJson), (bearer authJson).
Qed.

Lemma branches_addGithub (authJson : AuthJson) :
  branches (addGithub I authJson) =
  zip_with orb (branches authJson)
    [truthy (selectedGithubToken I); false; false; false; false].
Proof.
  unfold addGithub, branches.
  destruct (truthy (selectedGithubToken I)); simpl;
    now rewrite ?orb_true_r, ?orb_false_r.
Qed.

Lemma branches_addGitlab (authJson : AuthJson) (rule : HostRule) :
  branches (addGitlab authJson rule) =
  zip_with orb (branches authJson)
    [false; gitlabYields rule; gitlabYields rule; false; false].
Proof.
  unfold addGitlab, branches, gitlabYields.
  destruct (truthy (token rule)); simpl;
    now rewrite ?orb_true_r, ?orb_false_r.
Qed.

Lemma branches_addPackagist (authJson : AuthJson) (rule : HostRule) :
  branches (addPackagist authJson rule) =
  zip_with orb (branches authJson)
    [false; false; false; basicYields rule; bearerYields rule].
Proof.
  unfold addPackagist, branches, bearerYields, basicYields.
  destruct (truthy (resolvedHost rule) && truthy (username rule)
            && truthy (password rule)); simpl.
  - now rewrite ?orb_true_r, ?orb_false_r.
  - destruct (truthy (resolvedHost rule) && truthy (token rule)); simpl;
      now rewrite ?orb_true_r, ?orb_false_r.
Qed.

Lemma branches_fold_addGitlab (rules : list HostRule) (authJson : AuthJson) :
  branches (fold_left addGitlab rules authJson) =
  zip_with orb (branches authJson)
    [false; existsb gitlabYields rules; existsb gitlabYields rules;
     false; false].
Proof.
  revert authJson. induction rules as [|rule rules IH]; intros authJson; simpl.
  - unfold branches. simpl. now rewrite ?orb_false_r.
  - rewrite IH, branches_addGitlab. unfold branches. simpl.
    now rewrite ?orb_false_r, ?orb_assoc.
Qed.

Lemma branches_fold_addPackagist (rules : list HostRule) (authJson : AuthJson) :
  branches (fold_left addPackagist rules authJson) =
  zip_with orb (branches authJson)
    [false; false; false; existsb basicYields rules;
     existsb bearerYields rules].
Proof.
  revert authJson. induction rules as [|rule rules IH]; intros authJson; simpl.
  - unfold branches. simpl. now rewrite ?orb_false_r.
  - rewrite IH, branches_addPackagist. unfold branches. simpl.
    now rewrite ?orb_false_r, ?orb_assoc.
Qed.

(** Which branches [authJson] has when [getAuthJson] returns. *)
Lemma branches_buildAuthJson :
  branches (buildAuthJson I) =
  [truthy (selectedGithubToken I);
   existsb gitlabYields (hostRules_findAll I "gitlab");
   existsb gitlabYields (hostRules_findAll I "gitlab");
   existsb basicYields (hostRules_findAll I (PackagistDatasource_id I));
   existsb bearerYields (hostRules_findAll I (PackagistDatasource_id I))].
Proof.
  unfold buildAuthJson.
  rewrite branches_fold_addPackagist, branches_fold_addGitlab,
    branches_addGithub.
  simpl. now rewrite ?orb_false_r.
Qed.

Lemma populated_empty : populated emptyAuthJson.
Proof. repeat split; intros ? [=]. Qed.

Lemma populated_addGithub (authJson : AuthJson) :
  populated authJson -> populated (addGithub I authJson).
Proof.
  unfold addGithub. destruct (truthy (selectedGithubToken I)); [|trivial].
  intros (_ & H2 & H3 & H4 & H5). repeat split; try assumption.
  intros m [= <-]. apply map_non_empty_singleton.
Qed.

Lemma populated_addGitlab (authJson : AuthJson) (rule : HostRule) :
  populated authJson -> populated (addGitlab authJson rule).
Proof.
  unfold addGitlab. destruct (truthy (token rule)); [|trivial].
  intros (H1 & _ & _ & H4 & H5). repeat split; try assumption.
  - intros m [= <-]. apply insert_non_empty.
  - intros l [= <-]. discriminate.
Qed.

Lemma populated_addPackagist (authJson : AuthJson) (rule : HostRule) :
  populated authJson -> populated (addPackagist authJson rule).
Proof.
  unfold addPackagist.
  destruct (truthy (resolvedHost rule) && truthy (username rule)
            && truthy (password rule)).
  - intros (H1 & H2 & H3 & _ & H5). repeat split; try assumption.
    intros m [= <-]. apply insert_non_empty.
  - destruct (truthy (resolvedHost rule) && truthy (token rule)); [|trivial].
    intros (H1 & H2 & H3 & H4 & _). repeat split; try assumption.
    intros m [= <-]. apply insert_non_empty.
Qed.

Lemma populated_fold (step : AuthJson -> HostRule -> AuthJson)
    (rules : list HostRule) (authJson : AuthJson) :
  (forall a rule, populated a -> populated (step a rule)) ->
  populated authJson -> populated (fold_left step rules authJson).
Proof.
  intros Hstep. revert authJson.
  induction rules as [|rule rules IH]; intros authJson H; simpl; auto.
Qed.

Lemma populated_buildAuthJson : populated (buildAuthJson I).
Proof.
  unfold buildAuthJson.
  apply populated_fold; [apply populated_addPackagist |].
  apply populated_fold; [apply populated_addGitlab |].
  apply populated_addGithub, populated_empty.
Qed.

Lemma existsb_orb {A : Type} (f g : A -> bool) (l : list A) :
  existsb (fun x => f x || g x) l = existsb f l || existsb g l.
Proof.
  induction l as [|x l IH]; simpl; [reflexivity |].
  rewrite IH. now destruct (f x), (g x), (existsb f l).
Qed.


End Credentials.

(** *** The runs of [updateArtifacts] *)

Section Runs.
Context {World Options Lock Manifest : Type}.
Variable I : @Imports World Options Lock Manifest.
Variable u : @UpdateArtifact Options.

(** The loop never throws; it appends its additions and its reads. *)
Lemma addVendorFiles_run (files : list string)
    (res : list UpdateArtifactsResult) (s : State) :
  exists added reads w,
    addVendorFiles I (vendorDir I u) files res s
      = (Returned (res ++ added), (w, s.2 ++ reads)) /\
    VendorReads I u files added reads.
Proof.
  revert res s. induction files as [|f files IH]; intros res [w log]; simpl.
  - exists [], [], w. rewrite !app_nil_r. split; [reflexivity | constructor].
  - destruct (startsWith f (vendorDir I u)) eqn:Hf.
    + unfold await_readLocalFile, call, mbind, M_bind. simpl.
      destruct (readLocalFile I f w) as [contents w1].
      destruct (IH (res ++ [FileAddition f contents])
                  (w1, log ++ [ReadLocalFile f contents]))
        as (added & reads & w2 & -> & Hrest).
      exists (FileAddition f contents :: added),
        (ReadLocalFile f contents :: reads), w2.
      simpl. rewrite <- !app_assoc. simpl.
      split; [reflexivity | now constructor].
    + destruct (IH res (w, log)) as (added & reads & w2 & -> & Hrest).
      exists added, reads, w2. split; [reflexivity | now constructor].
Qed.

(** Every run of [updateArtifacts] is one of the runs of [Run]. *)
Lemma run_updateArtifacts (w : World)
    (o : Outcome (option (list UpdateArtifactsResult))) (log : list Event) :
  run (updateArtifacts I u) w = (o, log) -> Run I u o log.
Proof.
  unfold run, updateArtifacts.
  fold (lockFileName u). fold (vendorDir I u).
  cbv [mbind M_bind mret M_ret call tryCatch await_readLocalFile
       await_localPathExists await_ensureLocalDir await_writeLocalFile
       await_ensureCacheDir await_getRepoStatus await_exec safeParse throw
       fst snd].
  destruct (readLocalFile I (lockFileName u) w) as [existing w1].
  destruct (truthy existing) eqn:Hlock; cbn [negb].
  2:{ intros [= <- <-]. apply Run_no_lock; assumption. }
  destruct (localPathExists I _ w1) as [commit w2].
  destruct (parseComposerLock I _) as [err| |lockData] eqn:Hl.
  - intros [= <- <-]. exact (Run_lock_throws I u existing commit err Hlock Hl).
  - intros [= <- <-]. exact (Run_lock_invalid I u existing commit Hlock Hl).
  - destruct (parseComposerConfig I _) as [err| |manifestData] eqn:Hm.
    + intros [= <- <-].
      exact (Run_manifest_throws I u existing commit lockData err Hlock Hl Hm).
    + intros [= <- <-].
      exact (Run_manifest_invalid I u existing commit lockData Hlock Hl Hm).
    + destruct (ensureCacheDir I "composer" _) as [cacheDir w3].
      destruct (exec I _ _ w3) as [[err|] w4].
      * intros [= <- <-].
        exact (Run_exec_raises I u existing commit lockData manifestData
                 cacheDir err Hlock Hl Hm).
      * destruct (getRepoStatus I w4) as [status w5].
        case_bool_decide as Hmod; cbn [negb].
        2:{ intros [= <- <-].
            exact (Run_lock_unchanged I u existing commit lockData manifestData
                     cacheDir status Hlock Hl Hm Hmod). }
        destruct (readLocalFile I (lockFileName u) w5) as [contents w6].
        destruct commit; cbn [negb].
        2:{ intros [= <- <-].
            exact (Run_lock_only I u existing lockData manifestData
                     cacheDir status contents Hlock Hl Hm Hmod). }
        match goal with |- context [addVendorFiles I ?v ?f ?r ?s] =>
          destruct (addVendorFiles_run f r s)
            as (added & reads & w7 & -> & Hv) end.
        intros [= <- <-].
        exact (Run_vendored I u existing lockData manifestData cacheDir
                 status contents added reads Hlock Hl Hm Hmod Hv).
Qed.

(** The loop only reads files, and only those it adds. *)
Lemma VendorReads_reads files added reads e :
  VendorReads I u files added reads -> In e reads ->
  exists f contents, e = ReadLocalFile f contents /\
                     In (FileAddition f contents) added.
Proof.
  induction 1 as [|f files added reads Hf Hrest IH
                  |f files contents added reads Hf Hrest IH]; simpl.
  - intros [].
  - exact IH.
  - intros [<-|Hin].
    + exists f, contents. auto.
    + destruct (IH Hin) as (f' & c' & -> & Hadd). exists f', c'. auto.
Qed.

(** It adds the paths that start with the vendor directory, in order, each
    with the contents it read. *)
Lemma VendorReads_paths files added reads :
  VendorReads I u files added reads ->
  map resultPath added
    = List.filter (fun f => startsWith f (vendorDir I u)) files.
Proof.
  induction 1 as [|f files added reads Hf Hrest IH
                  |f files contents added reads Hf Hrest IH]; simpl;
    rewrite ?Hf; simpl; congruence.
Qed.

Lemma VendorReads_additions files added reads r :
  VendorReads I u files added reads -> In r added ->
  exists f contents, r = FileAddition f contents /\
                     In (ReadLocalFile f contents) reads /\
                     startsWith f (vendorDir I u) = true.
Proof.
  induction 1 as [|f files added reads Hf Hrest IH
                  |f files contents added reads Hf Hrest IH]; simpl.
  - intros [].
  - exact IH.
  - intros [<-|Hin].
    + exists f, contents. auto.
    + destruct (IH Hin) as (f' & c' & -> & Hread & Hf').
      exists f', c'. auto.
Qed.

(** Splits the membership of an event in the log of a run. *)
Ltac in_log H :=
  unfold preamble, execution in H;
  rewrite ?in_app_iff in H; simpl in H;
  repeat match type of H with
         | _ \/ _ => destruct H as [H|H]
         | False => destruct H
         end;
  try discriminate H.

(** C10: when the lock file next to the manifest reads as absent or empty,
    [updateArtifacts] returns [null] at once: reading the lock file is the
    only call it makes, so the manifest is not written, no command is
    planned and nothing is executed. *)
Theorem no_lock_returns_at_once (w : World) :
  (readLocalFile I (lockFileName u) w).1 = None \/
  (readLocalFile I (lockFileName u) w).1 = Some "" ->
  updateArtifacts I u (w, []) =
    (Returned None,
     ((readLocalFile I (lockFileName u) w).2,
      [ReadLocalFile (lockFileName u) (readLocalFile I (lockFileName u) w).1])).
Proof.
  intros Hlock. unfold updateArtifacts. fold (lockFileName u).
  cbv [mbind M_bind mret M_ret call await_readLocalFile fst snd].
  destruct (readLocalFile I (lockFileName u) w) as [existing w1]. simpl in *.
  now destruct Hlock as [-> | ->].
Qed.

(** C2: a run whose status query does not list the lock file among the
    modified paths returns [null]: neither a file change nor an artifact
    error. *)
Theorem unchanged_lock_returns_absent (w : World) (status : StatusResult) :
  In (GetRepoStatus status) (run (updateArtifacts I u) w).2 ->
  ~ In (lockFileName u) (modified status) ->
  (run (updateArtifacts I u) w).1 = Returned None.
Proof.
  destruct (run (updateArtifacts I u) w) as [o log] eqn:Hrun.
  apply run_updateArtifacts in Hrun. simpl. intros Hin Hnot.
  destruct Hrun as [| | | | | | | ? ? ? ? status' ? ? ? ? Hmod
                    | ? ? ? ? status' ? ? ? ? ? ? Hmod Hreads];
    try reflexivity; exfalso; in_log Hin.
  - injection Hin as ->. now apply list_elem_of_In in Hmod.
  - injection Hin as ->. now apply list_elem_of_In in Hmod.
  - destruct (VendorReads_reads _ _ _ _ Hreads Hin) as (? & ? & [=] & _).
Qed.

(** C3 (as amended): when [exec] raises an error whose message is not the
    temporary-error sentinel, a message that contains the resolver's
    no-installable-set text gives a single artifact error with the lock
    file path and the raw message, whether or not it also contains the
    disk-full indication; a message that contains the disk-full indication
    and not the resolver's text makes [updateArtifacts] throw the fixed
    disk-space error. *)
Theorem exec_failure_classified (w : World) (commands : list string)
    (options : ExecOptions) (err : JsError) (msg : string) :
  In (Exec commands options (Some err)) (run (updateArtifacts I u) w).2 ->
  message err = Some msg ->
  msg <> TEMPORARY_ERROR I ->
  (includes msg
     "Your requirements could not be resolved to an installable set of packages."
     = true ->
   (run (updateArtifacts I u) w).1
     = Returned (Some [ArtifactError (lockFileName u) (Some msg)])) /\
  (includes msg
     "Your requirements could not be resolved to an installable set of packages."
     = false ->
   includes msg "write error (disk full?)" = true ->
   (run (updateArtifacts I u) w).1
     = Thrown {| message := Some (SYSTEM_INSUFFICIENT_DISK_SPACE I) |}).
Proof.
  destruct (run (updateArtifacts I u) w) as [o log] eqn:Hrun.
  apply run_updateArtifacts in Hrun. simpl. intros Hin Hmsg Htemp.
  assert (Hcatch : o = catchBlock I (lockFileName u) err).
  { destruct Hrun as [| | | | | | | | ? ? ? ? ? ? ? ? ? ? ? ? Hreads];
      in_log Hin.
    - congruence.
    - destruct (VendorReads_reads _ _ _ _ Hreads Hin) as (? & ? & [=] & _). }
  subst o. unfold catchBlock, messageIncludes. rewrite Hmsg.
  rewrite bool_decide_eq_false_2 by congruence.
  split.
  - now intros ->.
  - now intros -> ->.
Qed.

(** *** The planned commands *)

Lemma join_quoted_fixed (n : string) (names : list string) :
  quotesWords I ->
  join " " (map (quote I) (n :: names)) <> "" /\
  trimEnd (join " " (map (quote I) (n :: names)))
    = join " " (map (quote I) (n :: names)).
Proof.
  intros Hq. revert n. induction names as [|n' names IH]; intros n.
  - exact (Hq n).
  - destruct (IH n') as [Hne Hfix]. simpl map in *.
    rewrite join_cons_cons. split.
    + intros E. apply append_eq_nil in E. now apply (Hq n).
    + rewrite <- append_assoc. now apply trimEnd_append_fixed.
Qed.

Lemma join_quoted_concat (n : string) (names : list string) :
  " " +:+ join " " (map (quote I) (n :: names))
    = String.concat "" (map (fun n => " " +:+ quote I n) (n :: names)).
Proof.
  revert n. induction names as [|n' names IH]; intros n; [reflexivity |].
  simpl map in *. rewrite join_cons_cons.
  change (String.concat "" ((" " +:+ quote I n) :: (" " +:+ quote I n')
                            :: map (fun n => " " +:+ quote I n) names))
    with ((" " +:+ quote I n) +:+ "" +:+
          String.concat "" ((" " +:+ quote I n')
                            :: map (fun n => " " +:+ quote I n) names)).
  now rewrite <- IH, append_nil_l, append_assoc.
Qed.

(** With such a [quote], trimming only matters when no name is given. *)
Lemma trimmed_update_named (names : list string) :
  quotesWords I ->
  trim ("update " +:+ join " " (map (quote I) names)) +:+ " --with-dependencies"
    = namedUpdate I names.
Proof.
  intros Hq. unfold namedUpdate. destruct names as [|n names].
  - reflexivity.
  - destruct (join_quoted_fixed n names Hq) as [Hne Hfix].
    rewrite <- join_quoted_concat.
    set (J := join " " (map (quote I) (n :: names))) in *.
    unfold trim.
    change (trimStart ("update " +:+ J)) with ("update " +:+ J).
    rewrite trimEnd_append_fixed by assumption.
    reflexivity.
Qed.

(** The array [commands]: the update command, after the three install
    commands when an install is required. *)
Lemma plannedCommands_shape (lockData : Lock) (tc : ToolConstraint) :
  let common := getComposerArguments I (config u) tc in
  let final :=
    "composer " +:+
    match isLockFileMaintenance (config u) with
    | Some true => "update"
    | _ => trim ("update " +:+ join " " (map (quote I) (changedNames u)))
           +:+ " --with-dependencies"
    end +:+ common in
  plannedCommands I u lockData tc =
  (if requireComposerDependencyInstallation I lockData
   then ["git stash -- composer.json"; "composer install" +:+ common;
         "git stash pop || true"]
   else []) ++ [final].
Proof.
  unfold plannedCommands, changedNames.
  destruct (requireComposerDependencyInstallation I lockData),
    (isLockFileMaintenance (config u)) as [[]|]; reflexivity.
Qed.

(** Whatever [exec] is called with is the planned array. *)
Lemma exec_event_planned o log (commands : list string)
    (options : ExecOptions) (raised : option JsError) :
  Run I u o log ->
  In (Exec commands options raised) log ->
  exists lockData manifestData,
    commands = plannedCommands I u lockData
                 (composerToolConstraint
                    (mergedConstraints I u manifestData lockData)).
Proof.
  intros Hrun Hin.
  destruct Hrun as [| | | | | ? ? lockData manifestData
                    | ? ? lockData manifestData
                    | ? lockData manifestData
                    | ? lockData manifestData ? ? ? ? ? ? ? ? ? Hreads];
    in_log Hin;
    try (exists lockData, manifestData; congruence).
  destruct (VendorReads_reads _ _ _ _ Hreads Hin) as (? & ? & [=] & _).
Qed.

(** C4: the last command handed to [exec] is [composer update] without
    names in a lock-file-maintenance run, and otherwise [composer update]
    followed by the shell-quoted names of exactly the changed dependencies
    and by [--with-dependencies]; in both cases the common arguments
    derived from the run configuration come last. It is the only command,
    or it follows the three commands of the install step, whose install
    command ends with the same common arguments. *)
Theorem final_command_is_update (w : World) (commands : list string)
    (options : ExecOptions) (raised : option JsError) :
  In (Exec commands options raised) (run (updateArtifacts I u) w).2 ->
  exists (lockData : Lock) (manifestData : Manifest) (final : string),
    let common :=
      getComposerArguments I (config u)
        (composerToolConstraint (mergedConstraints I u manifestData lockData)) in
    last commands = Some final /\
    (commands = [final] \/
     commands = ["git stash -- composer.json"; "composer install" +:+ common;
                 "git stash pop || true"; final]) /\
    (isLockFileMaintenance (config u) = Some true ->
     final = "composer update" +:+ common) /\
    (isLockFileMaintenance (config u) <> Some true ->
     final = "composer "
             +:+ trim ("update " +:+ join " " (map (quote I) (changedNames u)))
             +:+ " --with-dependencies" +:+ common /\
     (quotesWords I ->
      final = "composer " +:+ namedUpdate I (changedNames u) +:+ common)).
Proof.
  destruct (run (updateArtifacts I u) w) as [o log] eqn:Hrun.
  apply run_updateArtifacts in Hrun. simpl. intros Hin.
  destruct (exec_event_planned _ _ _ _ _ Hrun Hin)
    as (lockData & manifestData & ->).
  exists lockData, manifestData.
  set (tc := composerToolConstraint
               (mergedConstraints I u manifestData lockData)).
  rewrite (plannedCommands_shape lockData tc).
  eexists. cbv zeta.
  split; [apply last_snoc |].
  split.
  { destruct (requireComposerDependencyInstallation I lockData);
      [right | left]; reflexivity. }
  split.
  - now intros ->.
  - intros Hscoped.
    assert (Hargs :
      match isLockFileMaintenance (config u) with
      | Some true => "update"
      | _ => trim ("update " +:+ join " " (map (quote I) (changedNames u)))
             +:+ " --with-dependencies"
      end = trim ("update " +:+ join " " (map (quote I) (changedNames u)))
            +:+ " --with-dependencies").
    { now destruct (isLockFileMaintenance (config u)) as [[]|]. }
    rewrite Hargs. split.
    + now rewrite append_assoc.
    + intros Hq. now rewrite (trimmed_update_named _ Hq).
Qed.

(** *** The result set when vendor files are committed *)

(** X22: what a run returns when the vendor directory existed and the lock
    file was modified: the lock file, then an addition for every modified or new
    path that starts with the vendor directory, each with the contents
    read, then a deletion for every deleted path that the status lists,
    wherever it lies. *)
Lemma vendored_result_set (w : World) (status : StatusResult) :
  In (LocalPathExists (vendorDir I u) true) (run (updateArtifacts I u) w).2 ->
  In (GetRepoStatus status) (run (updateArtifacts I u) w).2 ->
  In (lockFileName u) (modified status) ->
  exists contents added,
    (run (updateArtifacts I u) w).1
      = Returned (Some (FileAddition (lockFileName u) contents :: added
                        ++ map FileDeletion (deleted status))) /\
    In (ReadLocalFile (lockFileName u) contents)
       (run (updateArtifacts I u) w).2 /\
    map resultPath added
      = List.filter (fun f => startsWith f (vendorDir I u))
          (modified status ++ not_added status) /\
    forall r, In r added ->
      exists f c, r = FileAddition f c /\
                  In (ReadLocalFile f c) (run (updateArtifacts I u) w).2.
Proof.
  destruct (run (updateArtifacts I u) w) as [o log] eqn:Hrun.
  apply run_updateArtifacts in Hrun. simpl. intros Hdir Hstatus Hmod.
  destruct Hrun as [| | | | | | ? ? ? ? ? status' ? ? ? Hnot |
                    | existing ? ? ? status' contents added reads
                        ? ? ? ? Hreads];
    in_log Hstatus.
  - injection Hstatus as ->. now apply list_elem_of_In in Hmod.
  - in_log Hdir.
  - injection Hstatus as ->. exists contents, added.
    split; [reflexivity |]. split.
    { unfold preamble, execution. rewrite !in_app_iff. simpl. tauto. }
    split; [exact (VendorReads_paths _ _ _ Hreads) |].
    intros r Hr.
    destruct (VendorReads_additions _ _ _ _ Hreads Hr) as (f & c & -> & Hc & _).
    exists f, c. split; [reflexivity |].
    rewrite !in_app_iff. simpl. tauto.
  - destruct (VendorReads_reads _ _ _ _ Hreads Hstatus) as (? & ? & [=] & _).
Qed.

End Runs.

(** *** The properties on the sample runs *)

(** Finds an event in a log that has been computed. *)
Ltac find_event := vm_compute; repeat first [left; reflexivity | right].

(** The sample [quote] yields words as [quotesWords] asks. *)
Lemma sample_quote_words execEffect status :
  quotesWords (Samples.artifactsImports execEffect status).
Proof.
  intros n.
  change (quote (Samples.artifactsImports execEffect status) n)
    with ("'" +:+ n +:+ "'").
  split.
  - change ("'" +:+ n +:+ "'") with (String "'" (n +:+ "'")). discriminate.
  - rewrite <- (append_assoc "'" n "'").
    apply trimEnd_append_fixed; [discriminate | reflexivity].
Qed.

(** The hypothesis of [no_lock_returns_at_once] holds in a working tree
    without a lock file. *)
Lemma no_lock_returns_at_once_witness :
  updateArtifacts
    (Samples.artifactsImports Samples.relock (Samples.status [] [] []))
    Samples.request (Samples.bareTree, [])
  = (Returned None,
     (Samples.bareTree, [ReadLocalFile "composer.lock" None])).
Proof.
  apply (no_lock_returns_at_once
           (Samples.artifactsImports Samples.relock (Samples.status [] [] []))
           Samples.request Samples.bareTree).
  left. reflexivity.
Defined.

(** The hypotheses of [unchanged_lock_returns_absent] hold on a run whose
    resolver changes nothing. *)
Lemma unchanged_lock_returns_absent_witness :
  (run (updateArtifacts
          (Samples.artifactsImports Samples.satisfied (Samples.status [] [] []))
          Samples.request) Samples.plainTree).1
  = Returned None.
Proof.
  apply (unchanged_lock_returns_absent
           (Samples.artifactsImports Samples.satisfied (Samples.status [] [] []))
           Samples.request Samples.plainTree (Samples.status [] [] [])).
  - find_event.
  - simpl. tauto.
Defined.

(** The hypotheses of [exec_failure_classified] hold on a run whose
    resolver fails on a full disk. *)
Lemma exec_failure_classified_witness :
  (includes "write error (disk full?)"
     "Your requirements could not be resolved to an installable set of packages."
     = true ->
   (run (updateArtifacts
           (Samples.artifactsImports
              (Samples.failWith "write error (disk full?)")
              (Samples.status [] [] []))
           Samples.request) Samples.plainTree).1
     = Returned (Some [ArtifactError "composer.lock"
                         (Some "write error (disk full?)")])) /\
  (includes "write error (disk full?)"
     "Your requirements could not be resolved to an installable set of packages."
     = false ->
   includes "write error (disk full?)" "write error (disk full?)" = true ->
   (run (updateArtifacts
           (Samples.artifactsImports
              (Samples.failWith "write error (disk full?)")
              (Samples.status [] [] []))
           Samples.request) Samples.plainTree).1
     = Thrown {| message := Some "disk-space" |}).
Proof.
  apply (exec_failure_classified
           (Samples.artifactsImports
              (Samples.failWith "write error (disk full?)")
              (Samples.status [] [] []))
           Samples.request Samples.plainTree
           Samples.plannedUpdate Samples.plannedOptions
           {| message := Some "write error (disk full?)" |}
           "write error (disk full?)").
  - find_event.
  - reflexivity.
  - discriminate.
Defined.

(** C3 (as stated) fails: [exec] raises an error whose message contains the
    disk-full indication, after the resolver's text, and [updateArtifacts]
    returns an artifact error instead of throwing. *)
Lemma exec_failure_classified_counterexample :
  includes Samples.unresolvableOnFullDisk "write error (disk full?)" = true /\
  In (Exec Samples.plannedUpdate Samples.plannedOptions
        (Some {| message := Some Samples.unresolvableOnFullDisk |}))
     (run (updateArtifacts
             (Samples.artifactsImports
                (Samples.failWith Samples.unresolvableOnFullDisk)
                (Samples.status [] [] []))
             Samples.request) Samples.plainTree).2 /\
  (run (updateArtifacts
          (Samples.artifactsImports
             (Samples.failWith Samples.unresolvableOnFullDisk)
             (Samples.status [] [] []))
          Samples.request) Samples.plainTree).1
  = Returned (Some [ArtifactError "composer.lock"
                      (Some Samples.unresolvableOnFullDisk)]).
Proof.
  split; [vm_compute; reflexivity |].
  split; [find_event | vm_compute; reflexivity].
Qed.

(** The hypothesis of [final_command_is_update] holds on a run that
    updates [acme/widget]. *)
Lemma final_command_is_update_witness :
  exists (lockData manifestData : unit) (final : string),
    let common :=
      getComposerArguments Samples.relockImports (config Samples.request)
        (composerToolConstraint
           (mergedConstraints Samples.relockImports Samples.request
              manifestData lockData)) in
    last Samples.plannedUpdate = Some final /\
    (Samples.plannedUpdate = [final] \/
     Samples.plannedUpdate
       = ["git stash -- composer.json"; "composer install" +:+ common;
          "git stash pop || true"; final]) /\
    (isLockFileMaintenance (config Samples.request) = Some true ->
     final = "composer update" +:+ common) /\
    (isLockFileMaintenance (config Samples.request) <> Some true ->
     final = "composer "
             +:+ trim ("update "
                       +:+ join " " (map (quote Samples.relockImports)
                                       (changedNames Samples.request)))
             +:+ " --with-dependencies" +:+ common /\
     (quotesWords Samples.relockImports ->
      final = "composer "
              +:+ namedUpdate Samples.relockImports
                    (changedNames Samples.request)
              +:+ common)).
Proof.
  apply (final_command_is_update Samples.relockImports Samples.request
           Samples.plainTree Samples.plannedUpdate Samples.plannedOptions None).
  find_event.
Defined.

(** C1 fails on the deleted paths. The vendor directory exists before the
    run and the status lists the lock file as modified, a new file under
    the vendor directory, and two deleted files, one under the vendor
    directory and [src/Legacy.php] outside it: the result holds a deletion
    of [src/Legacy.php] as well, although the path does not start with the
    vendor directory. *)
Theorem deleted_outside_vendor_reported :
  vendorDir Samples.revendorImports Samples.request = "vendor" /\
  startsWith "src/Legacy.php" "vendor" = false /\
  In (LocalPathExists "vendor" true)
     (run (updateArtifacts Samples.revendorImports Samples.request)
        Samples.vendoredTree).2 /\
  In (GetRepoStatus Samples.vendorStatus)
     (run (updateArtifacts Samples.revendorImports Samples.request)
        Samples.vendoredTree).2 /\
  (run (updateArtifacts Samples.revendorImports Samples.request)
     Samples.vendoredTree).1
  = Returned (Some [FileAddition "composer.lock" (Some "<new lock>");
                    FileAddition "vendor/acme/widget/New.php" (Some "<new>");
                    FileDeletion "vendor/acme/widget/Old.php";
                    FileDeletion "src/Legacy.php"]).
Proof.
  split; [reflexivity |]. split; [reflexivity |].
  split; [find_event |]. split; [find_event |].
  vm_compute. reflexivity.
Qed.

(** On the sample credential store the payload has the three branches the
    rules fill, and no other; on an empty store it is absent. *)
Example auth_payload_sample :
  branches (buildAuthJson Samples.storeImports)
    = [false; true; true; true; false] /\
  gitlab_domains (buildAuthJson Samples.storeImports) = Some ["gitlab.com"] /\
  getAuthJson Samples.storeImports = Some "<auth.json>" /\
  getAuthJson Samples.relockImports = None.
Proof. repeat split; vm_compute; reflexivity. Qed.

End ArtifactsSpec.

(** ** Further properties of extract.ts *)

Module ExtractMore.
Import JsString JsStringFacts Extract.

Lemma parseRepository_repositories (isArray : bool) (st : RepoState)
    (entry : string * RepoEntry) :
  repositories (parseRepository isArray st entry)
    = match retainedAs isArray entry with
      | Some named => store (repositories st) named
      | None => repositories st
      end.
Proof.
  destruct entry as [key [repo|b]]; unfold parseRepository, retainedAs; simpl.
  - destruct (type_is repo "vcs" || type_is repo "git"
              || type_is repo "path")%bool;
      destruct (type_is repo "composer");
      now destruct (is_false (repo_packagist repo)
                    || is_false (repo_packagist_org repo))%bool.
  - now destruct ((String.eqb key "packagist" || String.eqb key "packagist.org")
                  && negb b)%bool.
Qed.

Lemma fold_parseRepository_repositories (isArray : bool)
    (l : list (string * RepoEntry)) (st : RepoState) :
  repositories (fold_left (parseRepository isArray) l st)
    = fold_left store (omap (retainedAs isArray) l) (repositories st).
Proof.
  revert st. induction l as [|entry l IH]; intros st; simpl; [reflexivity |].
  rewrite IH, parseRepository_repositories.
  now destruct (retainedAs isArray entry).
Qed.

Lemma fold_store_lookup (l : list (string * ComposerRepository))
    (m : gmap string ComposerRepository) (n : string)
    (repo : ComposerRepository) :
  fold_left store l m !! n = Some repo ->
  m !! n = Some repo \/ In (n, repo) l.
Proof.
  revert m. induction l as [|[n' r'] l IH]; intros m; simpl; [auto |].
  intros H. destruct (IH _ H) as [Hm|Hin]; [|auto].
  unfold store in Hm. simpl in Hm. rewrite lookup_insert in Hm.
  case_decide as E; [|auto]. subst n'. injection Hm as ->. auto.
Qed.

(** Where a repository found in [repositories] comes from. *)
Lemma parseRepositories_retained (repoJson : ComposerRepositories)
    (repos : gmap string ComposerRepository) (registryUrls : list string)
    (n : string) (repo : ComposerRepository) :
  (parseRepositories repoJson repos registryUrls).1 !! n = Some repo ->
  repos !! n = Some repo \/
  exists entry,
    In entry (entries repoJson) /\
    retainedAs (is_array repoJson) entry = Some (n, repo).
Proof.
  unfold parseRepositories. simpl.
  rewrite fold_parseRepository_repositories. simpl. intros H.
  apply fold_store_lookup in H as [H|H]; [now left | right].
  apply list_elem_of_In, list_elem_of_omap in H as (entry & Hin & Hret).
  apply list_elem_of_In in Hin. now exists entry.
Qed.

Lemma retainedAs_inv (isArray : bool) (entry : string * RepoEntry)
    (n : string) (repo : ComposerRepository) :
  retainedAs isArray entry = Some (n, repo) ->
  entry.2 = RepoObject repo /\
  (type_is repo "vcs" || type_is repo "git" || type_is repo "path")%bool
    = true /\
  n = propertyKey (if isArray then repo_name repo else Some entry.1).
Proof.
  unfold retainedAs. destruct entry as [key [repo'|b]]; simpl; [|discriminate].
  destruct (type_is repo' "vcs" || type_is repo' "git"
            || type_is repo' "path")%bool eqn:Hty; [|discriminate].
  intros [= <- <-]. auto.
Qed.


(** *** The extracted records *)

Section Records.
Variable I : Imports.

(** The repositories bound by name are of type [vcs], [git] or [path]. *)
Lemma customRepositories_types (cfg : ComposerConfig) (n : string)
    (repo : ComposerRepository) :
  (customRepositories cfg).1 !! n = Some repo ->
  (type_is repo "vcs" || type_is repo "git" || type_is repo "path")%bool = true.
Proof.
  unfold customRepositories.
  destruct (cfg_repositories cfg) as [repoJson|]; simpl.
  - intros H. apply parseRepositories_retained in H as [H|(entry & _ & Hret)].
    + now rewrite lookup_empty in H.
    + now apply retainedAs_inv in Hret as (_ & Hty & _).
  - now rewrite lookup_empty.
Qed.

Lemma not_composer (repo : ComposerRepository) :
  (type_is repo "vcs" || type_is repo "git" || type_is repo "path")%bool = true ->
  type_is repo "composer" = false.
Proof.
  unfold type_is. destruct (repo_type repo) as [t|]; [|reflexivity].
  destruct (String.eqb_spec t "composer") as [->|]; [discriminate | reflexivity].
Qed.

(** The registry URLs of the record built for a pair, when the named
    repositories are of type [vcs], [git] or [path]. *)
Lemma extractDependency_registryUrls repos urls lock t name value :
  (forall repo, repos !! name = Some repo ->
     (type_is repo "vcs" || type_is repo "git" || type_is repo "path")%bool
       = true) ->
  registryUrls (extractDependency I repos urls lock t (name, value)) =
  match repos !! name, urls with
  | None, _ :: _ =>
      if String.eqb name "php" then None
      else if includes name "/" then Some urls
      else None
  | _, _ => None
  end.
Proof.
  intros Htypes. unfold extractDependency, registryDependency.
  destruct (String.eqb name "php").
  { now destruct (repos !! name), urls. }
  destruct (repos !! name) as [repo|].
  - specialize (Htypes repo eq_refl). rewrite (not_composer _ Htypes).
    destruct (type_is repo "vcs" || type_is repo "git")%bool; simpl.
    + now destruct (includes name "/").
    + destruct (type_is repo "path"); [reflexivity |].
      now destruct (includes name "/").
  - simpl. now destruct (includes name "/"), urls.
Qed.


(** X7: without a [repositories] block in the manifest no record carries
    registry URLs, not even the default registry. *)
Theorem no_repositories_no_registry_urls (content fileName : string)
    (cfg : ComposerConfig) (res : PackageFileContent)
    (d : PackageDependency) :
  JSON_parse_config I content = Some cfg ->
  extractPackageFile I content fileName = Some res ->
  cfg_repositories cfg = None ->
  In d (deps res) ->
  registryUrls d = None.
Proof.
  intros Hparse Hres Hnone Hd.
  rewrite (ExtractSpec.extractPackageFile_deps I _ _ _ _ Hparse Hres) in Hd.
  apply ExtractSpec.in_extractDeps in Hd as (t & name & value & _ & ->).
  rewrite extractDependency_registryUrls by apply customRepositories_types.
  unfold customRepositories. rewrite Hnone. simpl.
  now destruct (∅ !! name).
Qed.

(** X8: a name other than [php] bound to a repository of type [vcs] or
    [git] is resolved through the git-tags datasource with the URL of the
    repository as package name (none when the URL is the name itself), and
    gets no registry URLs. *)
Theorem vcs_repository_dependency (content fileName : string)
    (cfg : ComposerConfig) (res : PackageFileContent)
    (d : PackageDependency) (repo : ComposerRepository) :
  JSON_parse_config I content = Some cfg ->
  extractPackageFile I content fileName = Some res ->
  In d (deps res) ->
  depName d <> "php" ->
  (customRepositories cfg).1 !! depName d = Some repo ->
  (type_is repo "vcs" || type_is repo "git")%bool = true ->
  datasource d = Some (GitTagsDatasource_id I) /\
  packageName d
    = (if String.eqb (depName d) (repo_url repo) then None
       else Some (repo_url repo)) /\
  registryUrls d = None /\
  skipReason d = (if includes (depName d) "/" then None else Some unsupported).
Proof.
  intros Hparse Hres Hd Hphp Hrepo Hty.
  rewrite (ExtractSpec.extractPackageFile_deps I _ _ _ _ Hparse Hres) in Hd.
  apply ExtractSpec.in_extractDeps in Hd as (t & name & value & _ & ->).
  rewrite ExtractSpec.extractDependency_depName in *.
  pose proof (extractDependency_registryUrls
                (customRepositories cfg).1 (customRepositories cfg).2
                (lockParsed I fileName) t name value
                (customRepositories_types cfg name)) as Hurls.
  rewrite Hrepo in Hurls.
  split; [|split; [|split; [exact Hurls |]]];
    unfold extractDependency, registryDependency;
    apply String.eqb_neq in Hphp; rewrite Hphp, Hrepo, Hty; reflexivity.
Qed.

(** X9: a locked version is never invented: it is the version, without one
    leading [v] or [V], of a record of the lock file that has the name of
    the dependency, lies in the list of the dependency's group and has a
    valid version; and the lock file is then reported in [lockFiles]. *)
Theorem locked_version_from_lock (content fileName : string)
    (cfg : ComposerConfig) (res : PackageFileContent)
    (d : PackageDependency) (v : string) :
  JSON_parse_config I content = Some cfg ->
  extractPackageFile I content fileName = Some res ->
  In d (deps res) ->
  lockedVersion d = Some v ->
  lockFiles res = Some [lockfilePath fileName] /\
  exists lock items item,
    lockParsed I fileName = Some lock /\
    lockField (depType d) lock = Some items /\
    In item items /\
    lock_name item = depName d /\
    isVersion I (lock_version item) = true /\
    v = stripLeadingV (lock_version item).
Proof.
  intros Hparse Hres Hd Hv. split.
  - assert (Hlock : lockParsed I fileName <> None).
    { rewrite (ExtractSpec.extractPackageFile_deps I _ _ _ _ Hparse Hres) in Hd.
      apply ExtractSpec.in_extractDeps in Hd as (t & name & value & _ & ->).
      revert Hv. unfold extractDependency, registryDependency.
      destruct (String.eqb name "php"); [discriminate |].
      destruct (lockParsed I fileName); [discriminate |].
      destruct (_ !! name) as [repo|]; [|discriminate].
      destruct (type_is repo "vcs" || type_is repo "git")%bool; [discriminate |].
      destruct (type_is repo "path"); discriminate. }
    revert Hres. unfold extractPackageFile. rewrite Hparse.
    destruct (extractDeps I cfg fileName); [discriminate |].
    intros [= <-]. simpl. unfold lockParsed in Hlock.
    now destruct (truthy (lockContents I fileName)).
  - rewrite (ExtractSpec.extractPackageFile_deps I _ _ _ _ Hparse Hres) in Hd.
    apply ExtractSpec.in_extractDeps in Hd as (t & name & value & _ & ->).
    rewrite ExtractSpec.extractDependency_depType,
      ExtractSpec.extractDependency_depName.
    assert (Hreg :
      match lockParsed I fileName with
      | Some lock =>
          match findLocked t lock name with
          | Some lockedDep =>
              if isVersion I (lock_version lockedDep)
              then Some (stripLeadingV (lock_version lockedDep))
              else None
          | None => None
          end
      | None => None
      end = Some v ->
      exists lock items item,
        lockParsed I fileName = Some lock /\
        lockField t lock = Some items /\ In item items /\
        lock_name item = name /\
        isVersion I (lock_version item) = true /\
        v = stripLeadingV (lock_version item)).
    { destruct (lockParsed I fileName) as [lock|] eqn:Hl; [|discriminate].
      unfold findLocked.
      destruct (lockField t lock) as [items|] eqn:Hf; [|discriminate].
      destruct (List.find _ items) as [item|] eqn:Hfind; [|discriminate].
      destruct (isVersion I (lock_version item)) eqn:Hver; [|discriminate].
      intros [= <-]. apply find_some in Hfind as [Hin Hname].
      apply String.eqb_eq in Hname. exists lock, items, item.
      repeat split; assumption || reflexivity. }
    revert Hv. unfold extractDependency. cbv zeta.
    destruct (String.eqb name "php"); [discriminate |].
    destruct (_ !! name) as [repo|]; [|exact Hreg].
    destruct (type_is repo "vcs" || type_is repo "git")%bool; [exact Hreg |].
    destruct (type_is repo "path"); [discriminate | exact Hreg].
Qed.

(** The pair found under a key in a list of pairs with distinct keys. *)
Lemma find_key (k : string) (l : list (string * string))
    (kv : string * string) :
  NoDup (map fst l) ->
  List.find (fun kv => String.eqb (fst kv) k) l = Some kv <->
  In kv l /\ fst kv = k.
Proof.
  induction l as [|[k' v'] l IH]; simpl; intros Hnd.
  - split; [discriminate | tauto].
  - apply NoDup_cons in Hnd as [Hk' Hnd]. specialize (IH Hnd).
    destruct (String.eqb k' k) eqn:E.
    + apply String.eqb_eq in E. subst k'. split.
      * intros [= <-]. auto.
      * intros [[<-|Hin] Hk]; [reflexivity |]. exfalso. apply Hk'.
        apply list_elem_of_In, in_map_iff. now exists kv.
    + apply String.eqb_neq in E. rewrite IH. split.
      * intros [Hin Hk]. auto.
      * intros [[<-|Hin] Hk]; [now simpl in Hk | auto].
Qed.

(** X23: the record of the name [php] is resolved through the github-tags
    datasource with package name [php/php-src] and the version pattern of
    the PHP tags; it has no skip reason, no locked version and no registry
    URLs, whatever the repositories and the lock file hold. No other
    record carries a version pattern. *)
Theorem php_record (content fileName : string)
    (cfg : ComposerConfig) (res : PackageFileContent)
    (d : PackageDependency) :
  JSON_parse_config I content = Some cfg ->
  extractPackageFile I content fileName = Some res ->
  In d (deps res) ->
  (depName d = "php" ->
   d = {| depType := depType d;
          depName := "php";
          currentValue := currentValue d;
          datasource := Some (GithubTagsDatasource_id I);
          packageName := Some "php/php-src";
          extractVersion := Some "^php-(?<version>.*)$";
          skipReason := None;
          lockedVersion := None;
          registryUrls := None |}) /\
  (depName d <> "php" -> extractVersion d = None).
Proof.
  intros Hparse Hres Hd.
  rewrite (ExtractSpec.extractPackageFile_deps I _ _ _ _ Hparse Hres) in Hd.
  apply ExtractSpec.in_extractDeps in Hd as (t & name & value & _ & ->).
  rewrite ExtractSpec.extractDependency_depName.
  unfold extractDependency, registryDependency. split.
  - intros ->. reflexivity.
  - intros Hne. apply String.eqb_neq in Hne. rewrite Hne.
    destruct (_ !! name) as [repo|]; [|reflexivity].
    destruct (type_is repo "vcs" || type_is repo "git")%bool; [reflexivity |].
    now destruct (type_is repo "path").
Qed.

(** X24: with distinct names in [require], the extracted PHP constraint is
    the constraint declared for [php] in [require], as written and when not
    empty; a constraint on [php] in [require-dev] alone is not
    extracted. *)
Theorem php_constraint_extracted (content fileName : string)
    (cfg : ComposerConfig) (res : PackageFileContent) (v : string) :
  JSON_parse_config I content = Some cfg ->
  extractPackageFile I content fileName = Some res ->
  NoDup (map fst (declared require cfg)) ->
  extractedConstraints res = Some v <->
  In ("php", v) (declared require cfg) /\ v <> "".
Proof.
  unfold extractPackageFile. intros -> Hres Hnd.
  destruct (extractDeps I cfg fileName); [discriminate |].
  injection Hres as <-. simpl in *.
  assert (Hphp : requiredPhp cfg = Some v <->
                 In ("php", v) (default [] (cfg_require cfg))).
  { unfold requiredPhp. destruct (cfg_require cfg) as [pairs|]; simpl in *.
    - split.
      + destruct (List.find _ pairs) as [[k v']|] eqn:Hfind; [|discriminate].
        simpl. intros [= ->].
        apply (find_key "php" pairs (k, v) Hnd) in Hfind as [Hin Hk].
        simpl in Hk. now subst k.
      + intros Hin.
        assert (Hfind : List.find (fun kv => String.eqb (fst kv) "php") pairs
                        = Some ("php", v))
          by now apply (find_key "php" pairs ("php", v) Hnd).
        now rewrite Hfind.
    - split; [discriminate | tauto]. }
  rewrite <- Hphp. unfold truthy.
  destruct (requiredPhp cfg) as [c|]; [|split; [discriminate | now intros []]].
  destruct (String.eqb c "") eqn:E; simpl.
  - apply String.eqb_eq in E. subst c.
    split; [discriminate | intros [[= <-] Hne]; now destruct Hne].
  - apply String.eqb_neq in E.
    split; [intros [= <-]; auto | now intros []].
Qed.

End Records.

(** X10: the path of the lock file is the name of the manifest with a
    final [.json] replaced by [.lock]; a name that does not end in [.json]
    is its own lock path. *)
Theorem lock_path_of_manifest (fileName : string) :
  (forall base, fileName = base +:+ ".json" ->
                lockfilePath fileName = base +:+ ".lock") /\
  (endsWith fileName ".json" = false -> lockfilePath fileName = fileName).
Proof.
  unfold lockfilePath. split.
  - intros base ->. apply replaceSuffix_append.
  - apply replaceSuffix_unchanged.
Qed.

(** *** The properties on the sample manifests *)



Lemma no_repositories_no_registry_urls_witness :
  registryUrls Samples.fooBarDep = None.
Proof.
  apply (no_repositories_no_registry_urls
           (Samples.extractImports Samples.fooBarManifest
              (Some (Samples.lockWith "foo/bar" "v1.2.3")))
           "<manifest>" "composer.json" Samples.fooBarManifest
           (Samples.contentOf Samples.fooBarDep)).
  - reflexivity.
  - vm_compute. reflexivity.
  - reflexivity.
  - simpl. left. reflexivity.
Defined.

Lemma vcs_repository_dependency_witness :
  datasource Samples.toolDep
    = Some (GitTagsDatasource_id Samples.mixedImports) /\
  packageName Samples.toolDep
    = (if String.eqb (depName Samples.toolDep) (repo_url Samples.toolRepo)
       then None else Some (repo_url Samples.toolRepo)) /\
  registryUrls Samples.toolDep = None /\
  skipReason Samples.toolDep
    = (if includes (depName Samples.toolDep) "/" then None
       else Some unsupported).
Proof.
  apply (vcs_repository_dependency Samples.mixedImports
           "<manifest>" "composer.json" Samples.mixedManifest
           Samples.mixedContent).
  - reflexivity.
  - vm_compute. reflexivity.
  - simpl. right. left. reflexivity.
  - discriminate.
  - vm_compute. reflexivity.
  - reflexivity.
Defined.

Lemma locked_version_from_lock_witness :
  lockFiles Samples.mixedContent = Some [lockfilePath "composer.json"] /\
  exists lock items item,
    lockParsed Samples.mixedImports "composer.json" = Some lock /\
    lockField (depType Samples.widgetDep) lock = Some items /\
    In item items /\
    lock_name item = depName Samples.widgetDep /\
    isVersion Samples.mixedImports (lock_version item) = true /\
    "2.3.1" = stripLeadingV (lock_version item).
Proof.
  apply (locked_version_from_lock Samples.mixedImports
           "<manifest>" "composer.json" Samples.mixedManifest
           Samples.mixedContent Samples.widgetDep "2.3.1").
  - reflexivity.
  - vm_compute. reflexivity.
  - simpl. left. reflexivity.
  - reflexivity.
Defined.

(** The hypotheses of [php_record] hold for the record of [php] in a
    manifest that binds the name to a path repository, next to a lock file
    that lists [php]. *)
Lemma php_record_witness :
  (depName Samples.boundPhpDep = "php" ->
   Samples.boundPhpDep
   = {| depType := depType Samples.boundPhpDep;
        depName := "php";
        currentValue := currentValue Samples.boundPhpDep;
        datasource :=
          Some (GithubTagsDatasource_id
                  (Samples.extractImports Samples.phpPathManifest
                     (Some (Samples.lockWith "php" "8.1.0"))));
        packageName := Some "php/php-src";
        extractVersion := Some "^php-(?<version>.*)$";
        skipReason := None;
        lockedVersion := None;
        registryUrls := None |}) /\
  (depName Samples.boundPhpDep <> "php" ->
   extractVersion Samples.boundPhpDep = None).
Proof.
  apply (php_record
           (Samples.extractImports Samples.phpPathManifest
              (Some (Samples.lockWith "php" "8.1.0")))
           "<manifest>" "composer.json" Samples.phpPathManifest
           {| deps := [Samples.boundPhpDep];
              lockFiles := Some ["composer.lock"];
              managerData := None;
              extractedConstraints := Some "^8.1" |}).
  - reflexivity.
  - vm_compute. reflexivity.
  - simpl. left. reflexivity.
Defined.

(** The hypotheses of [php_constraint_extracted] hold for a manifest that
    requires [php] and an extension. *)
Lemma php_constraint_extracted_witness :
  extractedConstraints
    {| deps := Samples.platformDeps;
       lockFiles := None;
       managerData := None;
       extractedConstraints := Some ">=7.4" |} = Some ">=7.4" <->
  In ("php", ">=7.4") (declared require Samples.platformOnly) /\ ">=7.4" <> "".
Proof.
  apply (php_constraint_extracted (Samples.extractImports Samples.platformOnly None)
           "<manifest>" "composer.json" Samples.platformOnly).
  - reflexivity.
  - vm_compute. reflexivity.
  - simpl. repeat constructor; simpl; intros H;
      repeat (apply elem_of_cons in H as [H|H]; [discriminate H |]);
      now apply elem_of_nil in H.
Defined.

End ExtractMore.

(** ** extract.ts on parsed values of any shape: properties *)

Module ExtractJsonSpec.
Import JsString JsStringFacts Json ExtractJson.

#[local] Arguments truthyValue : simpl never.

(** *** parseRepositories *)

Lemma type_is_exclusive (repo : Json) (t t' : string) :
  type_is repo t = true -> t <> t' -> type_is repo t' = false.
Proof.
  unfold type_is, is_string.
  destruct (get repo "type") as [[| | |s| |]|]; try discriminate.
  intros E Hne. apply String.eqb_eq in E. subst s.
  now apply String.eqb_neq.
Qed.

Lemma kept_not_composer (repo : Json) :
  kept repo = true -> type_is repo "composer" = false.
Proof.
  unfold kept. intros H.
  apply orb_true_iff in H as [H|H]; [apply orb_true_iff in H as [H|H] |];
    apply (type_is_exclusive _ _ _ H); discriminate.
Qed.

(** The callback throws exactly on the entries [throwsOn] names. *)
Lemma parseRepository_throws (isArray : bool) (st : RepoState)
    (entry : string * Json) :
  parseRepository isArray st entry = None <-> throwsOn isArray entry = true.
Proof.
  destruct entry as [key repo]. unfold parseRepository, throwsOn, nameOf.
  simpl. fold (kept repo).
  destruct (is_object repo); simpl.
  - destruct (kept repo).
    + destruct (propertyKey _); split; discriminate || reflexivity.
    + destruct (type_is repo "composer"); simpl.
      * destruct (get repo "url") as [[| | |url| |]|];
          split; discriminate || reflexivity.
      * split; discriminate.
  - destruct (_ && _)%bool; split; discriminate.
Qed.

(** What the callback does to the three accumulators when it returns. *)
Lemma parseRepository_returns (isArray : bool) (st st' : RepoState)
    (entry : string * Json) :
  parseRepository isArray st entry = Some st' ->
  registryUrls_acc st' = registryUrls_acc st ++ composerUrl entry /\
  packagist st' = (packagist st && negb (disablesDefault entry))%bool /\
  repositories st' =
    match retainedAs isArray entry with
    | Some (key, repo) => write (repositories st) key repo
    | None => repositories st
    end.
Proof.
  destruct entry as [key repo].
  unfold parseRepository, composerUrl, disablesDefault, retainedAs, nameOf.
  simpl. fold (kept repo).
  destruct (is_object repo); simpl.
  - destruct (kept repo) eqn:Hkept.
    + rewrite (kept_not_composer _ Hkept).
      destruct (propertyKey _) as [k|]; [|discriminate]. simpl.
      destruct (is_false _ || is_false _)%bool; intros [= <-]; simpl;
        rewrite app_nil_r, ?andb_false_r, ?andb_true_r; auto.
    + destruct (type_is repo "composer").
      * destruct (get repo "url") as [[| | |url| |]|]; try discriminate.
        destruct (is_false _ || is_false _)%bool; intros [= <-]; simpl;
          rewrite ?andb_false_r, ?andb_true_r; auto.
      * destruct (is_false _ || is_false _)%bool; intros [= <-]; simpl;
          rewrite app_nil_r, ?andb_false_r, ?andb_true_r; auto.
  - destruct (_ && _)%bool; intros [= <-]; simpl;
      rewrite app_nil_r, ?andb_false_r, ?andb_true_r; auto.
Qed.

(** The loop, in closed form: it handles the entries before the first one
    it throws on. *)
Lemma forEach_processed (isArray : bool) (entries : list (string * Json))
    (st : RepoState) :
  registryUrls_acc (forEach isArray entries st).1
    = registryUrls_acc st
      ++ flat_map composerUrl (processed isArray entries) /\
  packagist (forEach isArray entries st).1
    = (packagist st
       && negb (existsb disablesDefault (processed isArray entries)))%bool /\
  repositories (forEach isArray entries st).1
    = writeAll (repositories st)
        (omap (retainedAs isArray) (processed isArray entries)) /\
  (forEach isArray entries st).2
    = forallb (fun entry => negb (throwsOn isArray entry)) entries.
Proof.
  revert st. induction entries as [|entry rest IH]; intros st; simpl.
  - now rewrite app_nil_r, andb_true_r.
  - destruct (parseRepository isArray st entry) as [st'|] eqn:Hstep.
    + assert (Hok : throwsOn isArray entry = false).
      { destruct (throwsOn isArray entry) eqn:E; [|reflexivity].
        apply parseRepository_throws with (st := st) in E. congruence. }
      rewrite Hok. simpl.
      destruct (parseRepository_returns _ _ _ _ Hstep) as (Hu & Hp & Hr).
      destruct (IH st') as (-> & -> & -> & ->).
      rewrite Hu, Hp, Hr, <- app_assoc, negb_orb, andb_assoc.
      repeat split.
      now destruct (retainedAs isArray entry) as [[k repo]|].
    + apply parseRepository_throws in Hstep. rewrite Hstep. simpl.
      now rewrite app_nil_r, andb_true_r.
Qed.

Lemma processed_all (isArray : bool) (entries : list (string * Json)) :
  forallb (fun entry => negb (throwsOn isArray entry)) entries = true ->
  processed isArray entries = entries.
Proof.
  induction entries as [|entry rest IH]; simpl; [reflexivity |].
  destruct (throwsOn isArray entry); simpl; [discriminate |].
  intros H. now rewrite IH.
Qed.

(** X1: the registry URL list after [parseRepositories] is what it held
    before, then the transformed URL of every repository of type
    [composer] among the entries the loop handles, in the order of
    [Object.entries], then [https://packagist.org] when the loop handles
    every entry and none of them switches the default registry off. The
    loop stops at the first repository of type [composer] whose URL is not
    a string, and at the first repository to keep whose name has no string
    conversion: what was added before stays, and the default registry is
    not added. *)
Theorem registry_urls_until_throw (repoJson : Json)
    (entries : list (string * Json))
    (repos : Repositories) (registryUrls : list string) :
  Object_entries repoJson = Some entries ->
  (parseRepositories repoJson repos registryUrls).2
    = registryUrls
      ++ flat_map composerUrl (processed (is_array repoJson) entries)
      ++ (if (forallb (fun entry => negb (throwsOn (is_array repoJson) entry))
                entries
              && negb (existsb disablesDefault entries))%bool
          then ["https://packagist.org"] else []).
Proof.
  intros Hentries. unfold parseRepositories. rewrite Hentries.
  pose proof (forEach_processed (is_array repoJson) entries
                {| repositories := repos;
                   registryUrls_acc := registryUrls;
                   packagist := true |}) as (Hu & Hp & _ & Hc).
  destruct (forEach _ _ _) as [st completed]. simpl in *. subst completed.
  rewrite Hu, Hp.
  destruct (forallb _ entries) eqn:Hall; simpl.
  - rewrite (processed_all _ _ Hall).
    destruct (existsb disablesDefault entries); simpl.
    + now rewrite app_nil_r.
    + now rewrite <- app_assoc.
  - now rewrite app_nil_r.
Qed.

Lemma own_write (r : Repositories) (key n : string) (repo : Json) :
  n <> "__proto__" ->
  own_properties (write r key repo) !! n
    = if String.eqb key n then Some repo else own_properties r !! n.
Proof.
  intros Hn. unfold write.
  destruct (String.eqb key "__proto__") eqn:Ep.
  - apply String.eqb_eq in Ep. subst key.
    assert (En : String.eqb "__proto__" n = false)
      by (apply String.eqb_neq; congruence).
    rewrite En.
    destruct (own_properties r !! "__proto__"),
      (getOptional (prototype r) "__proto__"); simpl;
      rewrite ?lookup_insert_ne by congruence; reflexivity.
  - simpl. destruct (String.eqb key n) eqn:E.
    + apply String.eqb_eq in E. subst. apply lookup_insert_eq.
    + apply String.eqb_neq in E. now apply lookup_insert_ne.
Qed.

Lemma own_writeAll_other (named : list (string * Json)) (r : Repositories)
    (n : string) :
  n <> "__proto__" ->
  (forall kv, In kv named -> kv.1 <> n) ->
  own_properties (writeAll r named) !! n = own_properties r !! n.
Proof.
  intros Hn. revert r. induction named as [|kv named IH]; intros r Hother;
    [reflexivity |].
  change (writeAll r (kv :: named)) with (writeAll (write r kv.1 kv.2) named).
  rewrite IH by (intros; apply Hother; now right).
  rewrite own_write by exact Hn.
  assert (E : String.eqb kv.1 n = false)
    by (apply String.eqb_neq, Hother; now left).
  now rewrite E.
Qed.

Lemma writeAll_app (r : Repositories) (named named' : list (string * Json))
    (kv : string * Json) :
  writeAll r (named ++ kv :: named')
    = writeAll (write (writeAll r named) kv.1 kv.2) named'.
Proof. unfold writeAll. now rewrite fold_left_app. Qed.

(** X3: of the repositories the loop writes under one name, other than
    [__proto__], the last one is the one read under that name afterwards.
    Repositories that follow the entry the loop stops at are not
    written. *)
Theorem last_written_repository_wins (repoJson : Json)
    (entries before after : list (string * Json)) (entry : string * Json)
    (repos : Repositories) (registryUrls : list string)
    (n : string) (repo : Json) :
  Object_entries repoJson = Some entries ->
  processed (is_array repoJson) entries = before ++ entry :: after ->
  retainedAs (is_array repoJson) entry = Some (n, repo) ->
  n <> "__proto__" ->
  (forall e repo', In e after ->
                   retainedAs (is_array repoJson) e <> Some (n, repo')) ->
  read (parseRepositories repoJson repos registryUrls).1 n = Some repo.
Proof.
  intros Hentries Hproc Hentry Hn Hafter.
  unfold parseRepositories. rewrite Hentries.
  pose proof (forEach_processed (is_array repoJson) entries
                {| repositories := repos;
                   registryUrls_acc := registryUrls;
                   packagist := true |}) as (_ & _ & Hr & _).
  destruct (forEach _ _ _) as [st completed]. simpl in *.
  rewrite Hr, Hproc, omap_app. simpl. rewrite Hentry.
  rewrite writeAll_app. simpl.
  unfold read. rewrite own_writeAll_other.
  - rewrite own_write by exact Hn. now rewrite String.eqb_refl.
  - exact Hn.
  - intros [n' repo'] Hin E. simpl in E. subst n'.
    apply list_elem_of_In, list_elem_of_omap in Hin as (e & He & Hret).
    apply list_elem_of_In in He. exact (Hafter e repo' He Hret).
Qed.

(** *** extractPackageFile *)

Section Records.
Variable I : Imports.

Lemma registryDependency_throws bound urls lock t name value ds pkg :
  registryDependency I bound urls lock t name value ds pkg = None <->
  lockedVersionOf I lock t name = None.
Proof.
  unfold registryDependency.
  destruct (lockedVersionOf I lock t name); split; discriminate || reflexivity.
Qed.

(** The loop body throws exactly when the constraint is not a string, or
    when the look-up in the lock file throws for a name that is looked
    up. *)
Lemma extractDependency_throws repos urls lock t name version :
  extractDependency I repos urls lock t (name, version) = None <->
  is_a_string version = false \/
  (name <> "php" /\ boundToPath repos name = false /\
   lockedVersionOf I lock t name = None).
Proof.
  unfold extractDependency, boundToPath.
  destruct version as [| | |version| |]; simpl;
    try (split; [now left | reflexivity]).
  destruct (String.eqb name "php") eqn:Ephp.
  - apply String.eqb_eq in Ephp.
    split; [discriminate | intros [[=]|(Hne & _)]; contradiction].
  - apply String.eqb_neq in Ephp.
    destruct (read repos name) as [repo|] eqn:Hread.
    + destruct (truthyValue (Some repo)) eqn:Htruthy; simpl.
      * destruct (type_is repo "vcs" || type_is repo "git")%bool eqn:Hvcs.
        -- assert (Hpath : type_is repo "path" = false).
           { apply orb_true_iff in Hvcs as [H|H];
               apply (type_is_exclusive _ _ _ H); discriminate. }
           rewrite Hpath, registryDependency_throws.
           split; [auto | now intros [[=]|(_ & _ & H)]].
        -- destruct (type_is repo "path").
           ++ split; [discriminate | now intros [[=]|(_ & [=] & _)]].
           ++ rewrite registryDependency_throws.
              split; [auto | now intros [[=]|(_ & _ & H)]].
      * rewrite registryDependency_throws.
        split; [auto | now intros [[=]|(_ & _ & H)]].
    + rewrite registryDependency_throws.
      split; [auto | now intros [[=]|(_ & _ & H)]].
Qed.

Lemma extractDependency_fields repos urls lock t name version d :
  extractDependency I repos urls lock t (name, version) = Some d ->
  depType d = t /\ depName d = name /\ currentValue d = trimmed version /\
  is_a_string version = true.
Proof.
  unfold extractDependency, registryDependency.
  destruct version as [| | |version| |]; try discriminate. simpl.
  destruct (String.eqb name "php"); [now intros [= <-] |].
  destruct (lockedVersionOf I lock t name) as [locked|].
  - destruct (read repos name) as [repo|]; [|now intros [= <-]].
    destruct (truthyValue (Some repo)); [|now intros [= <-]].
    destruct (type_is repo "vcs" || type_is repo "git")%bool;
      [now intros [= <-] |].
    destruct (type_is repo "path"); now intros [= <-].
  - destruct (read repos name) as [repo|]; [|discriminate].
    destruct (truthyValue (Some repo)); [|discriminate].
    destruct (type_is repo "vcs" || type_is repo "git")%bool; [discriminate |].
    destruct (type_is repo "path"); [now intros [= <-] | discriminate].
Qed.

Lemma extractGroup_throws repos urls lock t pairs :
  extractGroup I repos urls lock t pairs = None <->
  exists entry, In entry pairs /\
                extractDependency I repos urls lock t entry = None.
Proof.
  induction pairs as [|entry rest IH]; simpl.
  - split; [discriminate | now intros (? & [] & _)].
  - destruct (extractDependency I repos urls lock t entry) as [d|] eqn:Hd.
    + destruct (extractGroup I repos urls lock t rest) as [ds|]; simpl.
      * split; [discriminate |].
        intros (e & [<-|Hin] & He); [congruence |].
        assert (H : @None (list PackageDependency) = None) by reflexivity.
        enough (Some ds = None) by discriminate.
        apply IH. now exists e.
      * split; [|reflexivity]. intros _.
        destruct IH as [IH _]. destruct (IH eq_refl) as (e & Hin & He).
        exists e. auto.
    + split; [|reflexivity]. intros _. exists entry. auto.
Qed.

Lemma extractGroup_records repos urls lock t pairs ds :
  extractGroup I repos urls lock t pairs = Some ds ->
  map (fun d => (depType d, depName d, currentValue d)) ds
    = map (fun kv => (t, kv.1, trimmed kv.2)) pairs /\
  forall name version, In (name, version) pairs -> is_a_string version = true.
Proof.
  revert ds. induction pairs as [|[name version] rest IH]; intros ds;
    cbn [extractGroup].
  - intros [= <-]. split; [reflexivity | now intros ? ? []].
  - destruct (extractDependency I repos urls lock t (name, version))
      as [d|] eqn:Hd; [|discriminate].
    destruct (extractGroup I repos urls lock t rest) as [ds'|];
      [|discriminate].
    simpl. intros [= <-].
    destruct (extractDependency_fields _ _ _ _ _ _ _ Hd) as (Ht & Hn & Hv & Hs).
    destruct (IH ds' eq_refl) as [Hmap Hrest]. split.
    + simpl. now rewrite Ht, Hn, Hv, Hmap.
    + intros n v [[= <- <-]|Hin]; [exact Hs | now apply (Hrest n v)].
Qed.

Lemma extractGroup_nil repos urls lock t pairs :
  extractGroup I repos urls lock t pairs = Some [] <-> pairs = [].
Proof.
  destruct pairs as [|entry rest]; simpl; [tauto |].
  destruct (extractDependency I repos urls lock t entry); [|split; discriminate].
  destruct (extractGroup I repos urls lock t rest); simpl; split; discriminate.
Qed.

(** [extractDeps] reaches the [catch] exactly when the body throws on a
    declared pair. *)
Lemma extractDeps_throws composerJson fileName :
  extractDeps I composerJson fileName = None <->
  exists t entry,
    In entry (declared t composerJson) /\
    extractDependency I (customRepositories composerJson).1
      (customRepositories composerJson).2 (lockParsed I fileName) t entry
    = None.
Proof.
  unfold extractDeps. destruct (customRepositories composerJson) as [repos urls].
  simpl.
  destruct (extractGroup I repos urls _ require _) as [ds|] eqn:Hreq.
  - destruct (extractGroup I repos urls _ require_dev _) as [ds'|] eqn:Hdev.
    + split; [discriminate |]. intros ([] & entry & Hin & He).
      * enough (Some ds = None) by discriminate.
        rewrite <- Hreq. apply extractGroup_throws. now exists entry.
      * enough (Some ds' = None) by discriminate.
        rewrite <- Hdev. apply extractGroup_throws. now exists entry.
    + split; [|reflexivity]. intros _.
      apply extractGroup_throws in Hdev as (entry & Hin & He).
      now exists require_dev, entry.
  - split; [|reflexivity]. intros _.
    apply extractGroup_throws in Hreq as (entry & Hin & He).
    now exists require, entry.
Qed.

Lemma extractDeps_nil composerJson fileName :
  extractDeps I composerJson fileName = Some [] <->
  declared require composerJson = [] /\ declared require_dev composerJson = [].
Proof.
  unfold extractDeps. destruct (customRepositories composerJson) as [repos urls].
  destruct (extractGroup I repos urls _ require _) as [ds|] eqn:Hreq.
  - destruct (extractGroup I repos urls _ require_dev _) as [ds'|] eqn:Hdev.
    + split.
      * intros [= E]. apply app_eq_nil in E as [-> ->].
        apply extractGroup_nil in Hreq, Hdev. auto.
      * intros [E E']. rewrite E in Hreq. rewrite E' in Hdev.
        simpl in Hreq, Hdev. now injection Hreq as <-; injection Hdev as <-.
    + split; [discriminate |]. intros [_ E]. rewrite E in Hdev. discriminate.
  - split; [discriminate |]. intros [E _]. rewrite E in Hreq. discriminate.
Qed.

(** X4: how [extractPackageFile] ends on any manifest text. Its promise is
    rejected exactly when the text is the JSON value [null]. It returns
    [null] exactly when the text is not valid JSON, or the parsed value
    declares no pair in [require] and [require-dev], or the loop throws on
    a declared pair: the constraint is not a string, or the look-up in the
    lock file throws for a name that is neither [php] nor bound to a
    repository of type [path]. *)
Theorem extract_null_or_rejected (content fileName : string) :
  (extractPackageFile I content fileName = ThrowsTypeError <->
   JSON_parse I content = Some JNull) /\
  (extractPackageFile I content fileName = Returns None <->
   match JSON_parse I content with
   | None => True
   | Some JNull => False
   | Some composerJson =>
       (declared require composerJson = [] /\
        declared require_dev composerJson = []) \/
       exists t name version,
         In (name, version) (declared t composerJson) /\
         (is_a_string version = false \/
          (name <> "php" /\
           boundToPath (customRepositories composerJson).1 name = false /\
           lockedVersionOf I (lockParsed I fileName) t name = None))
   end).
Proof.
  unfold extractPackageFile.
  destruct (JSON_parse I content) as [composerJson|];
    [|split; split; (discriminate || tauto)].
  assert (Hcases :
    match extractDeps I composerJson fileName with
    | None | Some [] => True
    | Some (_ :: _) => False
    end <->
    (declared require composerJson = [] /\
     declared require_dev composerJson = []) \/
    exists t name version,
      In (name, version) (declared t composerJson) /\
      (is_a_string version = false \/
       (name <> "php" /\
        boundToPath (customRepositories composerJson).1 name = false /\
        lockedVersionOf I (lockParsed I fileName) t name = None))).
  { destruct (extractDeps I composerJson fileName) as [[|d ds]|] eqn:Hdeps.
    - apply extractDeps_nil in Hdeps. tauto.
    - split; [contradiction |]. intros [Hnil|(t & name & version & Hin & Hthrow)].
      + apply (proj2 (extractDeps_nil composerJson fileName)) in Hnil.
        congruence.
      + enough (Some (d :: ds) = None) by discriminate.
        rewrite <- Hdeps. apply extractDeps_throws.
        exists t, (name, version). split; [exact Hin |].
        now apply extractDependency_throws.
    - apply extractDeps_throws in Hdeps as (t & [name version] & Hin & He).
      apply extractDependency_throws in He.
      split; [|tauto]. intros _. right. now exists t, name, version. }
  destruct composerJson;
    (split; [split; [try discriminate | try discriminate] |]);
    try (destruct (extractDeps I _ fileName) as [[|? ?]|]; discriminate);
    try (split; [discriminate | contradiction]);
    try reflexivity;
    rewrite <- Hcases;
    destruct (extractDeps I _ fileName) as [[|? ?]|];
    split; (discriminate || tauto || reflexivity || contradiction).
Qed.

(** X5: when extraction returns a result every declared constraint is a
    string, and the records come one per declared pair in the order in
    which [Object.entries] enumerates [require] and then [require-dev];
    each carries its group, its name and its constraint trimmed. *)
Theorem dependencies_in_entries_order (content fileName : string)
    (composerJson : Json) (res : PackageFileContent) :
  JSON_parse I content = Some composerJson ->
  extractPackageFile I content fileName = Returns (Some res) ->
  (forall t name version,
     In (name, version) (declared t composerJson) ->
     is_a_string version = true) /\
  map (fun d => (depType d, depName d, currentValue d)) (deps res)
    = map (fun kv => (require, kv.1, trimmed kv.2))
        (declared require composerJson)
      ++ map (fun kv => (require_dev, kv.1, trimmed kv.2))
           (declared require_dev composerJson).
Proof.
  unfold extractPackageFile. intros ->.
  assert (Hdeps : forall ds,
            extractDeps I composerJson fileName = Some ds ->
            (forall t name version,
               In (name, version) (declared t composerJson) ->
               is_a_string version = true) /\
            map (fun d => (depType d, depName d, currentValue d)) ds
              = map (fun kv => (require, kv.1, trimmed kv.2))
                  (declared require composerJson)
                ++ map (fun kv => (require_dev, kv.1, trimmed kv.2))
                     (declared require_dev composerJson)).
  { unfold extractDeps.
    destruct (customRepositories composerJson) as [repos urls].
    destruct (extractGroup I repos urls _ require _) as [ds1|] eqn:Hreq;
      [|discriminate].
    destruct (extractGroup I repos urls _ require_dev _) as [ds2|] eqn:Hdev;
      [|discriminate].
    intros ds [= <-].
    apply extractGroup_records in Hreq as [Hreq Hs], Hdev as [Hdev Hs'].
    split; [intros [] name version; [apply Hs | apply Hs'] |].
    now rewrite map_app, Hreq, Hdev. }
  destruct composerJson; try discriminate;
    (destruct (extractDeps I _ fileName) as [[|d ds]|] eqn:E;
       [discriminate | | discriminate]);
    intros [= <-]; simpl; exact (Hdeps _ eq_refl).
Qed.

End Records.

(** *** The properties on the sample manifests *)

(** The hypothesis of [registry_urls_until_throw] holds for three
    repositories of type [composer], the second with a number for a URL:
    the first URL is added, the loop stops at the second, and neither the
    third URL nor the default registry is added. *)
Lemma registry_urls_until_throw_witness :
  (parseRepositories Samples.numberedUrlRepositories newObject []).2
    = ["https://a.example"].
Proof.
  etransitivity.
  - apply (registry_urls_until_throw Samples.numberedUrlRepositories
             (indexed
                [Samples.repositoryObject "a" "composer"
                   (JString "https://a.example/packages.json");
                 Samples.repositoryObject "b" "composer" (JNumber "5");
                 Samples.repositoryObject "c" "composer"
                   (JString "https://c.example")])).
    reflexivity.
  - reflexivity.
Defined.

(** The hypotheses of [last_written_repository_wins] hold for the second
    of three repositories named [acme/tool]: it is written after the
    first, and the loop stops before it reaches the third. *)
Lemma last_written_repository_wins_witness :
  read (parseRepositories Samples.shadowedRepositories newObject []).1
    "acme/tool"
    = Some Samples.secondTool.
Proof.
  apply (last_written_repository_wins Samples.shadowedRepositories
           (indexed [Samples.firstTool; Samples.secondTool;
                     Samples.repositoryObject "mirror" "composer" JNull;
                     Samples.thirdTool])
           [("0", Samples.firstTool)] [] ("1", Samples.secondTool)).
  - reflexivity.
  - vm_compute. reflexivity.
  - reflexivity.
  - discriminate.
  - intros e repo' [].
Defined.

(** The hypotheses of [dependencies_in_entries_order] hold for a manifest
    whose [require] is enumerated with the name [10] before the name
    [b]. *)
Lemma dependencies_in_entries_order_witness :
  (forall t name version,
     In (name, version) (declared t Samples.numberedNames) ->
     is_a_string version = true) /\
  map (fun d => (depType d, depName d, currentValue d))
    (deps Samples.numberedContent)
    = map (fun kv => (require, kv.1, trimmed kv.2))
        (declared require Samples.numberedNames)
      ++ map (fun kv => (require_dev, kv.1, trimmed kv.2))
           (declared require_dev Samples.numberedNames).
Proof.
  apply (dependencies_in_entries_order
           (Samples.parsedImports Samples.numberedNames None)
           "<manifest>" "composer.json").
  - reflexivity.
  - vm_compute. reflexivity.
Defined.

(** A manifest with a number for a constraint, a manifest next to a lock
    file whose [packages] is an object, and the manifest [null]. *)
Example ill_shaped_manifests :
  extractPackageFile (Samples.parsedImports Samples.numberedConstraint None)
    "<manifest>" "composer.json" = Returns None /\
  extractPackageFile
    (Samples.parsedImports
       (Samples.manifestObject None [("foo/bar", JString "^1.0")])
       (Some Samples.keyedLock))
    "<manifest>" "composer.json" = Returns None /\
  extractPackageFile (Samples.parsedImports JNull None)
    "<manifest>" "composer.json" = ThrowsTypeError.
Proof. repeat split; vm_compute; reflexivity. Qed.

End ExtractJsonSpec.

(** ** [Extract] is [ExtractJson] on values of the declared types *)

Module Refinement.
Import JsString JsStringFacts Json Declared.

#[local] Arguments truthyValue : simpl never.

(** *** Property reads on values of the declared types *)

Lemma get_repository (repo : Extract.ComposerRepository) :
  get (ofRepository repo) "name" = JString <$> Extract.repo_name repo /\
  get (ofRepository repo) "type" = JString <$> Extract.repo_type repo /\
  get (ofRepository repo) "url" = Some (JString (Extract.repo_url repo)) /\
  get (ofRepository repo) "packagist" = JBool <$> Extract.repo_packagist repo /\
  get (ofRepository repo) "packagist.org"
    = JBool <$> Extract.repo_packagist_org repo /\
  get (ofRepository repo) "__proto__" = None.
Proof.
  destruct repo as [[name|] [type|] url [p|] [q|]]; repeat split.
Qed.

Lemma type_is_typed (repo : Extract.ComposerRepository) (t : string) :
  ExtractJson.type_is (ofRepository repo) t = Extract.type_is repo t.
Proof.
  unfold ExtractJson.type_is, Extract.type_is.
  destruct (get_repository repo) as (_ & -> & _).
  now destruct (Extract.repo_type repo).
Qed.

Lemma pretty_N_char_digit (x : N) :
  headIsDigit (String (pretty_N_char x) "") = true.
Proof. unfold pretty_N_char. repeat case_match; reflexivity. Qed.

Lemma pretty_N_go_digit (x : N) (s : string) :
  (x <> 0%N \/ headIsDigit s = true) ->
  headIsDigit (pretty_N_go x s) = true.
Proof.
  revert s. induction (N.lt_wf_0 x) as [x _ IH]; intros s Hs.
  assert (x = 0 \/ 0 < x)%N as [->|Hpos] by lia.
  - rewrite pretty_N_go_0. now destruct Hs.
  - rewrite pretty_N_go_step by exact Hpos. apply IH.
    + now apply N.div_lt.
    + right. apply pretty_N_char_digit.
Qed.

Lemma pretty_nat_digit (i : nat) : headIsDigit (pretty i) = true.
Proof.
  unfold pretty, pretty_nat, pretty, pretty_N.
  case_decide; [reflexivity |]. apply pretty_N_go_digit. now left.
Qed.

Lemma own_indexed (key : string) (items : list Json) (v : Json) :
  own key (indexed items) = Some v -> headIsDigit key = true.
Proof.
  unfold own, indexed.
  destruct (List.find _ _) as [[k x]|] eqn:Hfind; [|discriminate].
  intros _. apply find_some in Hfind as [Hin Hk]. simpl in Hk.
  apply String.eqb_eq in Hk. subst k.
  apply list_elem_of_In, elem_of_lookup_imap in Hin as (i & y & [= -> _] & _).
  apply pretty_nat_digit.
Qed.

Lemma get_of_string (s key : string) :
  headIsDigit key = false -> get (JString s) key = None.
Proof.
  intros Hkey. simpl.
  destruct (own key (indexed (characters s))) as [v|] eqn:E; [|reflexivity].
  apply own_indexed in E. congruence.
Qed.

(** A repository of the declared type has the declared properties only:
    none is named with a [/] and none has a [type]. *)
Lemma get_repository_other (repo : Extract.ComposerRepository)
    (name : string) (v : Json) :
  get (ofRepository repo) name = Some v ->
  includes name "/" = false /\ forall t, ExtractJson.type_is v t = false.
Proof.
  assert (Hs : forall s t, ExtractJson.type_is (JString s) t = false).
  { intros s t. unfold ExtractJson.type_is.
    now rewrite get_of_string. }
  destruct repo as [[n|] [ty|] url [p|] [q|]];
    unfold ofRepository, get, own; cbn -[String.eqb includes];
    repeat match goal with
           | |- context [String.eqb ?k name] =>
               let E := fresh "E" in
               destruct (String.eqb k name) eqn:E;
               [apply String.eqb_eq in E; subst name; cbn -[includes];
                intros [= <-]; split; [reflexivity | auto]
               |]
           end; cbn; intros [=].
Qed.

(** *** The object [repositories] *)

Lemma sim_empty : sim ∅ ExtractJson.newObject.
Proof.
  split; simpl.
  - now rewrite delete_empty, fmap_empty.
  - now rewrite lookup_empty.
Qed.

Lemma sim_write m r (key : string) (repo : Extract.ComposerRepository) :
  sim m r ->
  sim (<[key := repo]> m) (ExtractJson.write r key (ofRepository repo)).
Proof.
  intros [Hown Hproto]. unfold ExtractJson.write.
  destruct (String.eqb key "__proto__") eqn:E.
  - apply String.eqb_eq in E. subst key.
    assert (Hnone : ExtractJson.own_properties r !! "__proto__" = None)
      by now rewrite Hown, lookup_fmap, lookup_delete_eq.
    assert (Hget : getOptional (ExtractJson.prototype r) "__proto__" = None).
    { rewrite Hproto. destruct (m !! "__proto__") as [p|]; [|reflexivity].
      simpl. apply (get_repository p). }
    rewrite Hnone, Hget. split; simpl.
    + now rewrite Hown, delete_insert_eq.
    + now rewrite lookup_insert_eq.
  - apply String.eqb_neq in E. split; simpl.
    + now rewrite Hown, delete_insert_ne, fmap_insert by congruence.
    + now rewrite lookup_insert_ne.
Qed.

(** A read gives the repository stored under the name; under a name
    nothing is stored under, it gives nothing or a property of the
    repository stored under [__proto__]. *)
Lemma sim_read m r (name : string) :
  sim m r ->
  match m !! name with
  | Some repo => ExtractJson.read r name = Some (ofRepository repo)
  | None =>
      ExtractJson.read r name = None \/
      exists v, ExtractJson.read r name = Some v /\
                includes name "/" = false /\
                forall t, ExtractJson.type_is v t = false
  end.
Proof.
  intros [Hown Hproto]. unfold ExtractJson.read. rewrite Hown, Hproto.
  rewrite lookup_fmap.
  destruct (String.eqb name "__proto__") eqn:E.
  - apply String.eqb_eq in E. subst name. rewrite lookup_delete_eq.
    cbn [fmap option_fmap option_map].
    destruct (m !! "__proto__") as [p|]; cbn [fmap option_fmap option_map];
      [|now left].
    now destruct (get_repository p) as (_ & _ & _ & _ & _ & ->).
  - apply String.eqb_neq in E. rewrite lookup_delete_ne by congruence.
    destruct (m !! name) as [repo|]; cbn [fmap option_fmap option_map];
      [reflexivity |].
    destruct (m !! "__proto__") as [p|]; cbn [fmap option_fmap option_map];
      [|now left].
    destruct (get (ofRepository p) name) as [v|] eqn:Hget; [|now left].
    right. exists v. split; [reflexivity |].
    exact (get_repository_other p name v Hget).
Qed.

(** *** parseRepositories *)

Lemma parseRepository_typed (isArray : bool) (st : Extract.RepoState)
    (st' : ExtractJson.RepoState) (entry : string * Extract.RepoEntry) :
  simState st st' ->
  exists st'',
    ExtractJson.parseRepository isArray st' (ofKeyed entry) = Some st'' /\
    simState (Extract.parseRepository isArray st entry) st''.
Proof.
  intros (Hsim & Hacc & Hp). destruct entry as [key [repo|b]];
    unfold ExtractJson.parseRepository, Extract.parseRepository, ofKeyed;
    cbn [fst snd ofEntry].
  - assert (Hobj : is_object (ofRepository repo) = true) by reflexivity.
    rewrite Hobj, !type_is_typed.
    destruct (get_repository repo) as (Hname & _ & Hurl & Hpk & Hpo & _).
    rewrite Hname, Hurl, Hpk, Hpo.
    assert (Hkey : propertyKey (if isArray
                                then JString <$> Extract.repo_name repo
                                else Some (JString key))
                   = Some (Extract.propertyKey
                             (if isArray then Extract.repo_name repo
                              else Some key))).
    { destruct isArray; [|reflexivity].
      now destruct (Extract.repo_name repo). }
    rewrite Hkey.
    assert (Hf : forall o : option bool,
               is_false (JBool <$> o) = Extract.is_false o).
    { now intros [[]|]. }
    rewrite !Hf.
    destruct (Extract.type_is repo "vcs" || Extract.type_is repo "git"
              || Extract.type_is repo "path")%bool;
      [|destruct (Extract.type_is repo "composer")];
      destruct (Extract.is_false _ || Extract.is_false _)%bool;
      eexists; (split; [reflexivity |]); repeat split; simpl;
      try (apply sim_write; exact Hsim); try exact Hsim;
      try (now rewrite Hacc); try exact Hp; try apply Hsim.
  - assert (Hobj : is_object (JBool b) = false) by reflexivity.
    rewrite Hobj.
    assert (Hf : is_false (Some (JBool b)) = negb b) by now destruct b.
    rewrite Hf.
    destruct ((String.eqb key "packagist" || String.eqb key "packagist.org")
              && negb b)%bool;
      eexists; (split; [reflexivity |]); repeat split; simpl;
      try exact Hacc; try exact Hp; apply Hsim.
Qed.

Lemma forEach_typed (isArray : bool)
    (entries : list (string * Extract.RepoEntry))
    (st : Extract.RepoState) (st' : ExtractJson.RepoState) :
  simState st st' ->
  exists st'',
    ExtractJson.forEach isArray (map ofKeyed entries) st' = (st'', true) /\
    simState (fold_left (Extract.parseRepository isArray) entries st) st''.
Proof.
  revert st st'. induction entries as [|entry rest IH]; intros st st' Hsim.
  - now exists st'.
  - destruct (parseRepository_typed isArray st st' entry Hsim)
      as (st1 & Hstep & Hsim1).
    cbn [map ExtractJson.forEach fold_left]. rewrite Hstep.
    exact (IH _ _ Hsim1).
Qed.

Lemma entries_typed (repoJson : Extract.ComposerRepositories) :
  Object_entries (ofRepositories repoJson)
    = Some (map ofKeyed (Extract.entries repoJson)) /\
  is_array (ofRepositories repoJson) = Extract.is_array repoJson.
Proof.
  destruct repoJson as [items|props]; simpl; split; try reflexivity.
  f_equal. unfold indexed.
  rewrite imap_fmap. change (map ofKeyed ?l) with (ofKeyed <$> l).
  rewrite fmap_imap. now apply imap_ext.
Qed.

Lemma parseRepositories_typed (repoJson : Extract.ComposerRepositories)
    m r (registryUrls : list string) :
  sim m r ->
  sim (Extract.parseRepositories repoJson m registryUrls).1
      (ExtractJson.parseRepositories (ofRepositories repoJson) r
         registryUrls).1 /\
  (ExtractJson.parseRepositories (ofRepositories repoJson) r registryUrls).2
    = (Extract.parseRepositories repoJson m registryUrls).2.
Proof.
  intros Hsim. unfold ExtractJson.parseRepositories, Extract.parseRepositories.
  destruct (entries_typed repoJson) as [-> ->].
  destruct (forEach_typed (Extract.is_array repoJson)
              (Extract.entries repoJson)
              {| Extract.repositories := m;
                 Extract.registryUrls_acc := registryUrls;
                 Extract.packagist := true |}
              {| ExtractJson.repositories := r;
                 ExtractJson.registryUrls_acc := registryUrls;
                 ExtractJson.packagist := true |})
    as (st'' & -> & Hrepos & Hacc & Hp).
  { split; [exact Hsim | now split]. }
  cbn [fst snd andb]. rewrite Hacc, Hp. now split.
Qed.

(** *** extractPackageFile *)

Section Records.
Variable I : Extract.Imports.
Variable J : ExtractJson.Imports.
Variables content fileName : string.
Hypothesis HIJ : Describes I J content fileName.

Lemma get_lock (lock : Extract.ComposerLock) (t : Extract.DepType) :
  get (ofLock lock) (ExtractJson.lockFieldName t)
    = ofLockList <$> Extract.lockField t lock.
Proof.
  destruct lock as [[items|] [items'|]], t; reflexivity.
Qed.

Lemma find_named_typed (name : string) (items : list Extract.LockedPackage) :
  ExtractJson.find_named name (map ofLocked items)
    = Some (ofLocked <$>
            List.find (fun item => String.eqb (Extract.lock_name item) name)
              items).
Proof.
  induction items as [|item rest IH]; [reflexivity |].
  cbn [map ExtractJson.find_named List.find].
  assert (Hname : is_string (get (ofLocked item) "name") name
                  = String.eqb (Extract.lock_name item) name) by reflexivity.
  cbn [ofLocked]. fold (ofLocked item). rewrite Hname.
  now destruct (String.eqb (Extract.lock_name item) name).
Qed.

Lemma lockedVersionOf_typed (lock : option Extract.ComposerLock)
    (t : Extract.DepType) (name : string) :
  ExtractJson.lockedVersionOf J (ofLock <$> lock) t name
    = Some (lockedTyped I lock t name).
Proof.
  destruct lock as [lock|]; [|reflexivity].
  unfold ExtractJson.lockedVersionOf, lockedTyped, Extract.findLocked.
  cbn [fmap option_fmap option_map].
  assert (Htruthy : truthyValue (Some (ofLock lock)) = true) by reflexivity.
  rewrite Htruthy, get_lock.
  destruct (Extract.lockField t lock) as [items|]; [|reflexivity].
  cbn [fmap option_fmap option_map ofLockList].
  rewrite find_named_typed.
  destruct (List.find _ items) as [item|]; [|reflexivity].
  cbn [fmap option_fmap option_map].
  assert (Hversion : get (ofLocked item) "version"
                     = Some (JString (Extract.lock_version item)))
    by reflexivity.
  rewrite Hversion, (same_versions _ _ _ _ HIJ).
  now destruct (Extract.isVersion I (Extract.lock_version item)).
Qed.

Lemma registryDependency_typed (bound : option Extract.ComposerRepository)
    (bound' : Value) (urls : list string)
    (lock : option Extract.ComposerLock) (t : Extract.DepType)
    (name value ds pkg : string) :
  match bound with
  | Some repo => bound' = Some (ofRepository repo)
  | None =>
      bound' = None \/
      exists v, bound' = Some v /\ includes name "/" = false /\
                forall t, ExtractJson.type_is v t = false
  end ->
  ExtractJson.registryDependency J bound' urls (ofLock <$> lock) t name value
    ds (Some (JString pkg))
  = Some (ofDependency
            (Extract.registryDependency I bound urls lock t name value
               ds pkg)).
Proof.
  intros Hbound.
  unfold ExtractJson.registryDependency, Extract.registryDependency.
  rewrite lockedVersionOf_typed. fold (lockedTyped I lock t name).
  unfold ofDependency. cbn -[includes lockedTyped truthyValue].
  f_equal. f_equal.
  - unfold is_string. rewrite String.eqb_sym.
    now destruct (String.eqb name pkg).
  - destruct (includes name "/") eqn:Hslash; [|reflexivity].
    destruct bound as [repo|].
    + subst bound'.
      assert (Ht : truthyValue (Some (ofRepository repo)) = true)
        by reflexivity.
      now rewrite Ht, type_is_typed.
    + destruct Hbound as [->|(v & -> & Hno & _)]; [reflexivity | congruence].
Qed.

Lemma extractDependency_typed m r (urls : list string)
    (lock : option Extract.ComposerLock) (t : Extract.DepType)
    (entry : string * string) :
  sim m r ->
  ExtractJson.extractDependency J r urls (ofLock <$> lock) t (ofPair entry)
  = Some (ofDependency (Extract.extractDependency I m urls lock t entry)).
Proof.
  intros Hsim. destruct entry as [name version].
  unfold ExtractJson.extractDependency, Extract.extractDependency, ofPair.
  cbn [fst snd].
  destruct (String.eqb name "php").
  { unfold ofDependency. cbn. now rewrite (same_github _ _ _ _ HIJ). }
  rewrite (same_git _ _ _ _ HIJ), (same_packagist _ _ _ _ HIJ).
  pose proof (sim_read m r name Hsim) as Hread.
  destruct (m !! name) as [repo|] eqn:Hm.
  - rewrite Hread.
    assert (Ht : truthyValue (Some (ofRepository repo)) = true)
      by reflexivity.
    rewrite Ht, !type_is_typed.
    destruct (get_repository repo) as (_ & _ & -> & _).
    destruct (Extract.type_is repo "vcs" || Extract.type_is repo "git")%bool.
    + now apply registryDependency_typed.
    + destruct (Extract.type_is repo "path"); [reflexivity |].
      now apply registryDependency_typed.
  - destruct Hread as [Hread|(v & Hread & Hno & Hty)]; rewrite Hread.
    + apply registryDependency_typed. now left.
    + rewrite !Hty. cbn [orb].
      destruct (truthyValue (Some v));
        apply registryDependency_typed; right; now exists v.
Qed.

Lemma extractGroup_typed m r (urls : list string)
    (lock : option Extract.ComposerLock) (t : Extract.DepType)
    (pairs : list (string * string)) :
  sim m r ->
  ExtractJson.extractGroup J r urls (ofLock <$> lock) t (map ofPair pairs)
  = Some (map ofDependency
            (map (Extract.extractDependency I m urls lock t) pairs)).
Proof.
  intros Hsim. induction pairs as [|entry rest IH]; [reflexivity |].
  cbn [map ExtractJson.extractGroup].
  now rewrite (extractDependency_typed m r urls lock t entry Hsim), IH.
Qed.

Lemma get_config (cfg : Extract.ComposerConfig) :
  get (ofConfig cfg) "type" = JString <$> Extract.cfg_type cfg /\
  get (ofConfig cfg) "repositories"
    = ofRepositories <$> Extract.cfg_repositories cfg /\
  get (ofConfig cfg) "require" = ofGroup <$> Extract.cfg_require cfg /\
  get (ofConfig cfg) "require-dev" = ofGroup <$> Extract.cfg_require_dev cfg.
Proof.
  destruct cfg as [[type|] [repos|] [req|] [dev|]]; repeat split.
Qed.

Lemma declared_typed (cfg : Extract.ComposerConfig) (t : Extract.DepType) :
  ExtractJson.declared t (ofConfig cfg)
    = map ofPair (Extract.declared t cfg).
Proof.
  unfold ExtractJson.declared, Extract.declared.
  destruct (get_config cfg) as (_ & _ & Hreq & Hdev).
  destruct t; [rewrite Hreq | rewrite Hdev];
    [destruct (Extract.cfg_require cfg) | destruct (Extract.cfg_require_dev cfg)];
    reflexivity.
Qed.

Lemma customRepositories_typed (cfg : Extract.ComposerConfig) :
  sim (Extract.customRepositories cfg).1
      (ExtractJson.customRepositories (ofConfig cfg)).1 /\
  (ExtractJson.customRepositories (ofConfig cfg)).2
    = (Extract.customRepositories cfg).2.
Proof.
  unfold ExtractJson.customRepositories, Extract.customRepositories.
  destruct (get_config cfg) as (_ & -> & _).
  destruct (Extract.cfg_repositories cfg) as [repoJson|];
    cbn [fmap option_fmap option_map].
  - assert (Ht : truthyValue (Some (ofRepositories repoJson)) = true)
      by now destruct repoJson.
    rewrite Ht. apply parseRepositories_typed, sim_empty.
  - split; [apply sim_empty | reflexivity].
Qed.

Lemma lockContents_typed :
  ExtractJson.lockContents J fileName = Extract.lockContents I fileName.
Proof. apply (same_files _ _ _ _ HIJ). Qed.

Lemma lockParsed_typed :
  ExtractJson.lockParsed J fileName = ofLock <$> Extract.lockParsed I fileName.
Proof.
  unfold ExtractJson.lockParsed, Extract.lockParsed.
  rewrite lockContents_typed.
  destruct (Extract.lockContents I fileName) as [text|] eqn:Htext;
    [|reflexivity].
  destruct (truthy (Some text)); [|reflexivity].
  cbn [mbind option_bind]. exact (typed_lock _ _ _ _ HIJ text Htext).
Qed.

Lemma extractDeps_typed (cfg : Extract.ComposerConfig) :
  ExtractJson.extractDeps J (ofConfig cfg) fileName
    = Some (map ofDependency (Extract.extractDeps I cfg fileName)).
Proof.
  unfold ExtractJson.extractDeps, Extract.extractDeps.
  destruct (customRepositories_typed cfg) as [Hsim Hurls].
  destruct (ExtractJson.customRepositories (ofConfig cfg)) as [r urls'].
  destruct (Extract.customRepositories cfg) as [m urls].
  cbn [fst snd] in Hsim, Hurls. subst urls'.
  rewrite lockParsed_typed, !declared_typed.
  rewrite !(extractGroup_typed m r urls _ _ _ Hsim).
  cbn [flat_map]. now rewrite app_nil_r, map_app.
Qed.

Lemma requiredPhp_typed (cfg : Extract.ComposerConfig) :
  ExtractJson.requiredPhp (ofConfig cfg)
    = JString <$> Extract.requiredPhp cfg.
Proof.
  unfold ExtractJson.requiredPhp, Extract.requiredPhp.
  destruct (get_config cfg) as (_ & _ & -> & _).
  destruct (Extract.cfg_require cfg) as [pairs|]; [|reflexivity].
  cbn [fmap option_fmap option_map getOptional ofGroup get]. unfold own.
  induction pairs as [|[k v] rest IH]; [reflexivity |].
  cbn [map List.find ofPair fst snd].
  now destruct (String.eqb k "php").
Qed.

End Records.



End Refinement.

(** ** Further properties of the artifacts module *)

Module ArtifactsMore.
Import JsString JsStringFacts Artifacts.

(** *** The credential payload *)

Lemma fold_left_invariant {A B : Type} (P : A -> Prop) (step : A -> B -> A)
    (l : list B) (a : A) :
  (forall a b, In b l -> P a -> P (step a b)) ->
  P a -> P (fold_left step l a).
Proof.
  revert a. induction l as [|b l IH]; intros a Hstep Ha; simpl; [exact Ha |].
  apply IH.
  - intros a' b' Hb'. apply Hstep. now right.
  - apply Hstep; [now left | exact Ha].
Qed.

Lemma truthy_Some (o : option string) :
  truthy o = true -> o = Some (default "" o) /\ default "" o <> "".
Proof.
  destruct o as [s|]; [|discriminate]. simpl.
  destruct (String.eqb_spec s ""); [discriminate | auto].
Qed.

Lemma gitlab_addPackagist (authJson : AuthJson) (rule : HostRule) :
  gitlab_token (addPackagist authJson rule) = gitlab_token authJson /\
  gitlab_domains (addPackagist authJson rule) = gitlab_domains authJson.
Proof.
  unfold addPackagist.
  destruct (truthy (resolvedHost rule) && truthy (username rule)
            && truthy (password rule)); [now split |].
  now destruct (truthy (resolvedHost rule) && truthy (token rule)).
Qed.

Lemma gitlab_fold_addPackagist (rules : list HostRule) (authJson : AuthJson) :
  gitlab_token (fold_left addPackagist rules authJson) = gitlab_token authJson /\
  gitlab_domains (fold_left addPackagist rules authJson)
    = gitlab_domains authJson.
Proof.
  apply (fold_left_invariant
           (fun a => gitlab_token a = gitlab_token authJson /\
                     gitlab_domains a = gitlab_domains authJson));
    [|now split].
  intros a rule _ [<- <-]. apply gitlab_addPackagist.
Qed.

Lemma domains_fold_addGitlab (rules : list HostRule) (authJson : AuthJson) :
  gitlab_domains (fold_left addGitlab rules authJson) =
  match map gitlabHost (List.filter gitlabYields rules) with
  | [] => gitlab_domains authJson
  | hosts => Some (rev hosts ++ default [] (gitlab_domains authJson))
  end.
Proof.
  revert authJson. induction rules as [|rule rules IH]; intros authJson;
    simpl; [reflexivity |].
  rewrite IH. unfold addGitlab, gitlabYields at 2.
  destruct (truthy (token rule)); simpl; [|reflexivity].
  fold (gitlabHost rule).
  destruct (map gitlabHost (List.filter gitlabYields rules)) as [|h hs];
    [reflexivity |].
  simpl. now rewrite <- !app_assoc.
Qed.

Section Credentials.
Context {World Options Lock Manifest : Type}.
Variable I : @Imports World Options Lock Manifest.

(** The gitlab branches when [getAuthJson] returns are those the gitlab
    rules left. *)
Lemma gitlab_buildAuthJson :
  gitlab_token (buildAuthJson I)
    = gitlab_token (fold_left addGitlab (hostRules_findAll I "gitlab")
                      emptyAuthJson) /\
  gitlab_domains (buildAuthJson I)
    = gitlab_domains (fold_left addGitlab (hostRules_findAll I "gitlab")
                        emptyAuthJson).
Proof.
  unfold buildAuthJson.
  destruct (gitlab_fold_addPackagist
              (hostRules_findAll I (PackagistDatasource_id I))
              (fold_left addGitlab (hostRules_findAll I "gitlab")
                 (addGithub I emptyAuthJson))) as [-> ->].
  unfold addGithub. destruct (truthy (selectedGithubToken I)); [|now split].
  generalize (hostRules_findAll I "gitlab"). intros rules.
  set (a := {| github_oauth := _ |}).
  assert (H : gitlab_token a = gitlab_token emptyAuthJson /\
              gitlab_domains a = gitlab_domains emptyAuthJson) by now split.
  revert H. generalize a emptyAuthJson. clear a.
  induction rules as [|rule rules IH]; intros a b H; simpl; [exact H |].
  apply IH. unfold addGitlab. destruct H as [Ht Hd].
  destruct (truthy (token rule)); simpl; [|now split].
  now rewrite Ht, Hd.
Qed.

(** X11: the gitlab domain list holds the host of every gitlab rule that
    has a token, the host of the last such rule first ([gitlab.com] for a
    rule without a resolved host); it is absent when no rule has a
    token. *)
Theorem gitlab_domains_latest_first :
  gitlab_domains (buildAuthJson I) =
  match map gitlabHost
          (List.filter gitlabYields (hostRules_findAll I "gitlab")) with
  | [] => None
  | hosts => Some (rev hosts)
  end.
Proof.
  destruct gitlab_buildAuthJson as [_ ->].
  rewrite domains_fold_addGitlab. simpl.
  destruct (map gitlabHost _); [reflexivity |]. now rewrite app_nil_r.
Qed.

Lemma tokens_addGitlab (authJson : AuthJson) (rule : HostRule) (h : string) :
  is_Some (default ∅ (gitlab_token (addGitlab authJson rule)) !! h) <->
  (gitlabYields rule = true /\ gitlabHost rule = h) \/
  is_Some (default ∅ (gitlab_token authJson) !! h).
Proof.
  unfold addGitlab, gitlabYields. fold (gitlabHost rule).
  destruct (truthy (token rule)); simpl.
  - rewrite lookup_insert_is_Some.
    destruct (decide (gitlabHost rule = h)); tauto.
  - split; [auto | intros [[[=] _]|H]; exact H].
Qed.

Lemma tokens_fold_addGitlab (rules : list HostRule) (authJson : AuthJson)
    (h : string) :
  is_Some (default ∅ (gitlab_token (fold_left addGitlab rules authJson)) !! h)
  <->
  In h (map gitlabHost (List.filter gitlabYields rules)) \/
  is_Some (default ∅ (gitlab_token authJson) !! h).
Proof.
  revert authJson. induction rules as [|rule rules IH]; intros authJson; simpl.
  - tauto.
  - rewrite IH, tokens_addGitlab.
    destruct (gitlabYields rule); simpl; intuition discriminate.
Qed.


Lemma registry_branches_before_packagist :
  http_basic (fold_left addGitlab (hostRules_findAll I "gitlab")
                (addGithub I emptyAuthJson)) = None /\
  bearer (fold_left addGitlab (hostRules_findAll I "gitlab")
            (addGithub I emptyAuthJson)) = None.
Proof.
  apply (fold_left_invariant
           (fun a => http_basic a = None /\ bearer a = None)).
  - intros a rule _ Ha. unfold addGitlab.
    now destruct (truthy (token rule)).
  - unfold addGithub. now destruct (truthy (selectedGithubToken I)).
Qed.

(** X13: every entry of the http-basic branch is the non-empty username
    and password of a packagist rule resolved to that host, and every entry
    of the bearer branch is the non-empty token of a packagist rule
    resolved to that host that lacks such a pair; a rule without a resolved
    host contributes to neither. *)
Theorem registry_credentials_from_rules (h : string) :
  (forall user pass,
     default ∅ (http_basic (buildAuthJson I)) !! h = Some (user, pass) ->
     h <> "" /\ user <> "" /\ pass <> "" /\
     exists rule,
       In rule (hostRules_findAll I (PackagistDatasource_id I)) /\
       resolvedHost rule = Some h /\
       username rule = Some user /\ password rule = Some pass) /\
  (forall t,
     default ∅ (bearer (buildAuthJson I)) !! h = Some t ->
     h <> "" /\ t <> "" /\
     exists rule,
       In rule (hostRules_findAll I (PackagistDatasource_id I)) /\
       resolvedHost rule = Some h /\ token rule = Some t /\
       basicYields rule = false).
Proof.
  unfold buildAuthJson.
  apply (fold_left_invariant
           (fun a =>
              (forall user pass,
                 default ∅ (http_basic a) !! h = Some (user, pass) ->
                 h <> "" /\ user <> "" /\ pass <> "" /\
                 exists rule,
                   In rule (hostRules_findAll I (PackagistDatasource_id I)) /\
                   resolvedHost rule = Some h /\
                   username rule = Some user /\ password rule = Some pass) /\
              (forall t,
                 default ∅ (bearer a) !! h = Some t ->
                 h <> "" /\ t <> "" /\
                 exists rule,
                   In rule (hostRules_findAll I (PackagistDatasource_id I)) /\
                   resolvedHost rule = Some h /\ token rule = Some t /\
                   basicYields rule = false))).
  - intros a rule Hin [Hbasic Hbearer]. unfold addPackagist.
    destruct (truthy (resolvedHost rule) && truthy (username rule)
              && truthy (password rule)) eqn:Hb; simpl.
    + split; [|exact Hbearer]. intros user pass.
      rewrite lookup_insert. case_decide as E; [|apply Hbasic].
      intros [= <- <-]. apply andb_prop in Hb as [Hb Hpass].
      apply andb_prop in Hb as [Hhost Huser].
      destruct (truthy_Some _ Hhost) as [Hh Hh'].
      destruct (truthy_Some _ Huser) as [Hu Hu'].
      destruct (truthy_Some _ Hpass) as [Hp Hp'].
      rewrite E in Hh, Hh'. repeat split; try assumption.
      exists rule. auto.
    + destruct (truthy (resolvedHost rule) && truthy (token rule)) eqn:Ht;
        simpl; [|now split].
      split; [exact Hbasic |]. intros t.
      rewrite lookup_insert. case_decide as E; [|apply Hbearer].
      intros [= <-]. apply andb_prop in Ht as [Hhost Htok].
      destruct (truthy_Some _ Hhost) as [Hh Hh'].
      destruct (truthy_Some _ Htok) as [Ht Ht'].
      rewrite E in Hh, Hh'. repeat split; try assumption.
      exists rule. auto.
  - destruct registry_branches_before_packagist as [-> ->]. simpl.
    split; intros *; now rewrite lookup_empty.
Qed.

(** X25: the github branch holds the selected github token under
    [github.com] and nothing else, and is absent when no token is
    selected or the selected one is empty; the host rules of gitlab and
    packagist never touch it. *)
Theorem github_branch_from_selected_token :
  github_oauth (buildAuthJson I) =
  if truthy (selectedGithubToken I)
  then Some {[ "github.com" := default "" (selectedGithubToken I) ]}
  else None.
Proof.
  unfold buildAuthJson.
  apply (fold_left_invariant
           (fun a => github_oauth a
                     = if truthy (selectedGithubToken I)
                       then Some {[ "github.com"
                                    := default "" (selectedGithubToken I) ]}
                       else None)).
  { intros a rule _ Ha. unfold addPackagist.
    destruct (truthy (resolvedHost rule) && truthy (username rule)
              && truthy (password rule))%bool; [exact Ha |].
    now destruct (truthy (resolvedHost rule) && truthy (token rule))%bool. }
  apply (fold_left_invariant
           (fun a => github_oauth a
                     = if truthy (selectedGithubToken I)
                       then Some {[ "github.com"
                                    := default "" (selectedGithubToken I) ]}
                       else None)).
  { intros a rule _ Ha. unfold addGitlab.
    now destruct (truthy (token rule)). }
  unfold addGithub. now destruct (truthy (selectedGithubToken I)).
Qed.

End Credentials.

(** *** The runs of [updateArtifacts] *)

(** Splits the membership of an event in the log of a run. *)
Ltac split_log H :=
  unfold preamble, execution in H;
  rewrite ?in_app_iff in H; simpl in H;
  repeat match type of H with
         | _ \/ _ => destruct H as [H|H]
         | False => destruct H
         end;
  try discriminate H.

Section Runs.
Context {World Options Lock Manifest : Type}.
Variable I : @Imports World Options Lock Manifest.
Variable u : @UpdateArtifact Options.

(** How the [catch] block ends. *)
Lemma catchBlock_cases (err : JsError) :
  (catchBlock I (lockFileName u) err = Thrown err /\
   message err = Some (TEMPORARY_ERROR I)) \/
  catchBlock I (lockFileName u) err
    = Thrown {| message := Some (SYSTEM_INSUFFICIENT_DISK_SPACE I) |} \/
  catchBlock I (lockFileName u) err
    = Returned (Some [ArtifactError (lockFileName u) (message err)]).
Proof.
  unfold catchBlock. case_bool_decide; [auto |].
  destruct (messageIncludes err _); [auto |].
  destruct (messageIncludes err _); auto.
Qed.

Lemma VendorReads_only_reads files added reads :
  VendorReads I u files added reads ->
  forallb (fun e => negb (isExec e || isStatus e || isWrite e)) reads = true /\
  forallb isFileChange added = true.
Proof.
  induction 1 as [| ? ? ? ? ? ? IH | ? ? ? ? ? ? ? IH]; simpl; auto.
Qed.

Lemma deletions_are_changes (paths : list string) :
  forallb isFileChange (map FileDeletion paths) = true.
Proof. induction paths as [|f paths IH]; simpl; auto. Qed.

(** X14: a run never returns file changes together with an artifact error.
    What it returns, when not [null], is a single artifact error for the
    lock file, or the addition of the lock file followed by additions and
    deletions only. *)
Theorem result_is_error_or_changes (w : World)
    (res : list UpdateArtifactsResult) :
  (run (updateArtifacts I u) w).1 = Returned (Some res) ->
  (exists stderr, res = [ArtifactError (lockFileName u) stderr]) \/
  (exists contents rest,
     res = FileAddition (lockFileName u) contents :: rest /\
     forallb isFileChange rest = true).
Proof.
  destruct (run (updateArtifacts I u) w) as [o log] eqn:Hrun.
  apply ArtifactsSpec.run_updateArtifacts in Hrun. simpl. intros ->.
  assert (Hcatch : forall err,
            catchBlock I (lockFileName u) err = Returned (Some res) ->
            exists stderr, res = [ArtifactError (lockFileName u) stderr]).
  { intros err H.
    destruct (catchBlock_cases err) as [[E _]|[E|E]]; rewrite E in H;
      try discriminate H.
    injection H as <-. eauto. }
  inversion Hrun; subst; eauto;
    try (right; eexists _, []; split; reflexivity).
  right. eexists _, _. split; [reflexivity |].
  rewrite forallb_app.
  match goal with H : VendorReads _ _ _ _ _ |- _ =>
    apply VendorReads_only_reads in H as [_ ->] end.
  simpl. apply deletions_are_changes.
Qed.

(** X15: a run throws only the error it caught whose message is the
    temporary-error sentinel, or the fixed disk-space error. *)
Theorem thrown_errors (w : World) (e : JsError) :
  (run (updateArtifacts I u) w).1 = Thrown e ->
  message e = Some (TEMPORARY_ERROR I) \/
  e = {| message := Some (SYSTEM_INSUFFICIENT_DISK_SPACE I) |}.
Proof.
  destruct (run (updateArtifacts I u) w) as [o log] eqn:Hrun.
  apply ArtifactsSpec.run_updateArtifacts in Hrun. simpl. intros ->.
  assert (Hcatch : forall err,
            catchBlock I (lockFileName u) err = Thrown e ->
            message e = Some (TEMPORARY_ERROR I) \/
            e = {| message := Some (SYSTEM_INSUFFICIENT_DISK_SPACE I) |}).
  { intros err H.
    destruct (catchBlock_cases err) as [[E Hm]|[E|E]]; rewrite E in H;
      try discriminate H; injection H as <-; auto. }
  inversion Hrun; subst; eauto.
Qed.

Lemma VendorReads_forallb (P : Event -> bool) files added reads :
  (forall f contents, P (ReadLocalFile f contents) = true) ->
  VendorReads I u files added reads ->
  forallb P reads = true.
Proof.
  intros HP. induction 1 as [| ? ? ? ? ? ? IH | ? ? ? ? ? ? ? IH]; simpl; auto.
  now rewrite HP.
Qed.

Lemma VendorReads_effects files added reads :
  VendorReads I u files added reads -> effects reads = [].
Proof.
  induction 1 as [| ? ? ? ? ? ? IH | ? ? ? ? ? ? ? IH]; simpl; auto.
Qed.

(** X16: once the lock file is found, the vendor directory is looked up
    and created and the new manifest is written, whatever happens next:
    these four calls open the log of every such run. *)
Theorem lock_found_prepares_tree (w : World) (existing : option string) :
  hd_error (run (updateArtifacts I u) w).2
    = Some (ReadLocalFile (lockFileName u) existing) ->
  truthy existing = true ->
  exists commit rest,
    (run (updateArtifacts I u) w).2
      = [ReadLocalFile (lockFileName u) existing;
         LocalPathExists (vendorDir I u) commit;
         EnsureLocalDir (vendorDir I u);
         WriteLocalFile (packageFileName u) (newPackageFileContent u)]
        ++ rest.
Proof.
  destruct (run (updateArtifacts I u) w) as [o log] eqn:Hrun.
  apply ArtifactsSpec.run_updateArtifacts in Hrun. simpl.
  intros Hhd Htruthy.
  inversion Hrun; subst; simpl in Hhd; injection Hhd as ->;
    try congruence; eexists _, _; reflexivity.
Qed.

(** X17: when the existing lock file or the new manifest does not parse,
    no command is run: the run ends after the four opening calls. It
    returns [null] when the schema rejects the parsed value, and ends as
    the [catch] block decides when [JSON.parse] throws. *)
Theorem unparseable_input_runs_nothing (w : World)
    (existing : option string) :
  hd_error (run (updateArtifacts I u) w).2
    = Some (ReadLocalFile (lockFileName u) existing) ->
  truthy existing = true ->
  match parseComposerLock I (default "" existing) with
  | SafeParseSuccess _ =>
      forall data,
        parseComposerConfig I (newPackageFileContent u) <> SafeParseSuccess data
  | _ => True
  end ->
  (exists commit,
     (run (updateArtifacts I u) w).2 = preamble I u existing commit) /\
  (run (updateArtifacts I u) w).1 =
  match parseComposerLock I (default "" existing) with
  | ParseThrows err => catchBlock I (lockFileName u) err
  | SafeParseFailure => Returned None
  | SafeParseSuccess _ =>
      match parseComposerConfig I (newPackageFileContent u) with
      | ParseThrows err => catchBlock I (lockFileName u) err
      | _ => Returned None
      end
  end.
Proof.
  destruct (run (updateArtifacts I u) w) as [o log] eqn:Hrun.
  apply ArtifactsSpec.run_updateArtifacts in Hrun. simpl.
  intros Hhd Htruthy Hparse.
  inversion Hrun; subst; simpl in Hhd; injection Hhd as ->;
    try congruence;
    repeat match goal with
           | H : parseComposerLock _ _ = _ |- _ => rewrite H in *; clear H
           | H : parseComposerConfig _ _ = _ |- _ => rewrite H in *; clear H
           end;
    try (split; [eexists; reflexivity | reflexivity]);
    now exfalso; eapply Hparse.
Qed.

(** X18: when the vendor directory did not exist before the run and the
    lock file was modified, the result is the addition of the lock file
    alone, with the contents read after the status query; the paths the
    status lists under the vendor directory are neither read nor
    returned. *)
Theorem lock_only_without_vendor (w : World) (status : StatusResult) :
  In (LocalPathExists (vendorDir I u) false) (run (updateArtifacts I u) w).2 ->
  In (GetRepoStatus status) (run (updateArtifacts I u) w).2 ->
  In (lockFileName u) (modified status) ->
  exists contents before,
    (run (updateArtifacts I u) w).1
      = Returned (Some [FileAddition (lockFileName u) contents]) /\
    (run (updateArtifacts I u) w).2
      = before ++ [GetRepoStatus status;
                   ReadLocalFile (lockFileName u) contents].
Proof.
  destruct (run (updateArtifacts I u) w) as [o log] eqn:Hrun.
  apply ArtifactsSpec.run_updateArtifacts in Hrun. simpl.
  intros Hdir Hstatus Hmod.
  inversion Hrun; subst; split_log Hstatus.
  - injection Hstatus as ->.
    match goal with H : _ ∉ _ |- _ => now apply list_elem_of_In in Hmod end.
  - injection Hstatus as ->. eexists _, _. split; [reflexivity |].
    unfold preamble, execution. rewrite app_assoc. reflexivity.
  - split_log Hdir.
    match goal with H : VendorReads _ _ _ _ _ |- _ =>
      destruct (ArtifactsSpec.VendorReads_reads _ _ _ _ _ _ H Hdir)
        as (? & ? & [=] & _) end.
  - match goal with H : VendorReads _ _ _ _ _ |- _ =>
      destruct (ArtifactsSpec.VendorReads_reads _ _ _ _ _ _ H Hstatus)
        as (? & ? & [=] & _) end.
Qed.

(** X19: the options [exec] is called with: the manifest as working
    directory file, the cache directory that [ensureCacheDir] returned, the
    credential payload of [getAuthJson], and the tool constraints of [php]
    and [composer], in this order, taken from constraints in which a
    constraint of the run configuration overrides the one of the same name
    extracted from the parsed new manifest and the parsed existing lock
    file. *)
Theorem exec_options_of_run (w : World) (commands : list string)
    (options : ExecOptions) (raised : option JsError) :
  In (Exec commands options raised) (run (updateArtifacts I u) w).2 ->
  exists existing lockData manifestData cacheDir merged,
    hd_error (run (updateArtifacts I u) w).2
      = Some (ReadLocalFile (lockFileName u) existing) /\
    parseComposerLock I (default "" existing) = SafeParseSuccess lockData /\
    parseComposerConfig I (newPackageFileContent u)
      = SafeParseSuccess manifestData /\
    (forall name,
       merged !! name =
       match default ∅ (constraints (config u)) !! name with
       | Some c => Some c
       | None => extractConstraints I manifestData lockData !! name
       end) /\
    In (EnsureCacheDir "composer" cacheDir) (run (updateArtifacts I u) w).2 /\
    options =
      {| cwdFile := packageFileName u;
         COMPOSER_CACHE_DIR := cacheDir;
         COMPOSER_AUTH := getAuthJson I;
         toolConstraints :=
           [{| toolName := "php"; constraint := getPhpConstraint I merged |};
            {| toolName := "composer";
               constraint := merged !! "composer" |}] |}.
Proof.
  destruct (run (updateArtifacts I u) w) as [o log] eqn:Hrun.
  apply ArtifactsSpec.run_updateArtifacts in Hrun. simpl. intros Hin.
  assert (Hmerged : forall manifestData lockData name,
            mergedConstraints I u manifestData lockData !! name =
            match default ∅ (constraints (config u)) !! name with
            | Some c => Some c
            | None => extractConstraints I manifestData lockData !! name
            end).
  { intros manifestData lockData name. unfold mergedConstraints.
    rewrite lookup_union.
    now destruct (default ∅ (constraints (config u)) !! name),
      (extractConstraints I manifestData lockData !! name). }
  inversion Hrun; subst; split_log Hin;
    try (match goal with H : VendorReads _ _ _ _ _ |- _ =>
           destruct (ArtifactsSpec.VendorReads_reads _ _ _ _ _ _ H Hin)
             as (? & ? & [=] & _) end);
    injection Hin as <- <- <-;
    eexists _, _, _, _, _;
    (split; [reflexivity |]); (split; [eassumption |]);
    (split; [eassumption |]); (split; [apply Hmerged |]);
    (split; [|reflexivity]);
    unfold preamble, execution; rewrite ?in_app_iff; simpl; tauto.
Qed.

(** X20: the calls of a run other than file reads and the existence test,
    in order: it creates the vendor directory, writes the manifest, asks
    for the cache directory of [composer], runs the planned commands and
    queries the status, each at most once and none without the one before;
    it creates no other directory and writes no other file. *)
Theorem effects_in_order (w : World) :
  exists cacheDir commands options raised status,
    effects (run (updateArtifacts I u) w).2 `prefix_of`
    [EnsureLocalDir (vendorDir I u);
     WriteLocalFile (packageFileName u) (newPackageFileContent u);
     EnsureCacheDir "composer" cacheDir;
     Exec commands options raised;
     GetRepoStatus status].
Proof.
  destruct (run (updateArtifacts I u) w) as [o log] eqn:Hrun.
  apply ArtifactsSpec.run_updateArtifacts in Hrun. simpl.
  set (opts := {| cwdFile := ""; COMPOSER_CACHE_DIR := "";
                  COMPOSER_AUTH := None; toolConstraints := [] |}).
  set (st := {| modified := []; not_added := []; deleted := [] |}).
  inversion Hrun; subst; unfold effects, preamble, execution;
    rewrite ?filter_app; simpl;
    try (match goal with H : VendorReads _ _ _ _ _ |- _ =>
           apply VendorReads_effects in H; unfold effects in H; rewrite H end);
    first
      [ exists "", [], opts, None, st; now eexists
      | eexists _, _, _, _, st; now eexists
      | eexists _, _, _, _, _; now eexists ].
Qed.

(** X21: an error raised by [exec] that is not the temporary-error sentinel
    and whose message lacks the disk-full text, or is missing, is returned
    as a single artifact error that carries the lock file path and the
    message as it is; the call of [exec] is the last call of the run. *)
Theorem exec_failure_reported (w : World) (commands : list string)
    (options : ExecOptions) (err : JsError) :
  In (Exec commands options (Some err)) (run (updateArtifacts I u) w).2 ->
  message err <> Some (TEMPORARY_ERROR I) ->
  messageIncludes err "write error (disk full?)" = false ->
  (run (updateArtifacts I u) w).1
    = Returned (Some [ArtifactError (lockFileName u) (message err)]) /\
  last (run (updateArtifacts I u) w).2
    = Some (Exec commands options (Some err)).
Proof.
  destruct (run (updateArtifacts I u) w) as [o log] eqn:Hrun.
  apply ArtifactsSpec.run_updateArtifacts in Hrun. simpl.
  intros Hin Htemp Hdisk.
  inversion Hrun; subst; split_log Hin;
    try (match goal with H : VendorReads _ _ _ _ _ |- _ =>
           destruct (ArtifactsSpec.VendorReads_reads _ _ _ _ _ _ H Hin)
             as (? & ? & [=] & _) end).
  injection Hin as Hc Ho He. subst. split; [|reflexivity].
  unfold catchBlock. rewrite bool_decide_eq_false_2 by exact Htemp.
  rewrite Hdisk.
  match goal with |- (if ?b then _ else _) = _ => destruct b end; reflexivity.
Qed.

End Runs.

(** *** The properties on the sample runs *)

(** Finds an event in a log that has been computed. *)
Ltac find_in_log := vm_compute; repeat first [left; reflexivity | right].

Lemma result_is_error_or_changes_witness :
  (exists stderr,
     Samples.revendored = [ArtifactError (lockFileName Samples.request) stderr])
  \/
  (exists contents rest,
     Samples.revendored
       = FileAddition (lockFileName Samples.request) contents :: rest /\
     forallb isFileChange rest = true).
Proof.
  apply (result_is_error_or_changes Samples.revendorImports Samples.request
           Samples.vendoredTree).
  vm_compute. reflexivity.
Defined.

Lemma thrown_errors_witness :
  message {| message := Some "disk-space" |}
    = Some (TEMPORARY_ERROR Samples.fullDiskImports) \/
  {| message := Some "disk-space" |}
    = {| message :=
           Some (SYSTEM_INSUFFICIENT_DISK_SPACE Samples.fullDiskImports) |}.
Proof.
  apply (thrown_errors Samples.fullDiskImports Samples.request
           Samples.plainTree).
  vm_compute. reflexivity.
Defined.

Lemma lock_found_prepares_tree_witness :
  exists commit rest,
    (run (updateArtifacts Samples.relockImports Samples.request)
       Samples.plainTree).2
      = [ReadLocalFile (lockFileName Samples.request) (Some "<lock>");
         LocalPathExists
           (vendorDir Samples.relockImports Samples.request) commit;
         EnsureLocalDir (vendorDir Samples.relockImports Samples.request);
         WriteLocalFile (packageFileName Samples.request)
           (newPackageFileContent Samples.request)]
        ++ rest.
Proof.
  apply (lock_found_prepares_tree Samples.relockImports Samples.request
           Samples.plainTree (Some "<lock>")).
  - vm_compute. reflexivity.
  - reflexivity.
Defined.

Lemma unparseable_input_runs_nothing_witness :
  (exists commit,
     (run (updateArtifacts Samples.brokenLockImports Samples.request)
        Samples.plainTree).2
       = preamble Samples.brokenLockImports Samples.request
           (Some "<lock>") commit) /\
  (run (updateArtifacts Samples.brokenLockImports Samples.request)
     Samples.plainTree).1 =
  match parseComposerLock Samples.brokenLockImports
          (default "" (Some "<lock>")) with
  | ParseThrows err =>
      catchBlock Samples.brokenLockImports
        (lockFileName Samples.request) err
  | SafeParseFailure => Returned None
  | SafeParseSuccess _ =>
      match parseComposerConfig Samples.brokenLockImports
              (newPackageFileContent Samples.request) with
      | ParseThrows err =>
          catchBlock Samples.brokenLockImports
            (lockFileName Samples.request) err
      | _ => Returned None
      end
  end.
Proof.
  apply (unparseable_input_runs_nothing Samples.brokenLockImports
           Samples.request Samples.plainTree (Some "<lock>")).
  - vm_compute. reflexivity.
  - reflexivity.
  - simpl. exact Logic.I.
Defined.

Lemma lock_only_without_vendor_witness :
  exists contents before,
    (run (updateArtifacts Samples.relockImports Samples.request)
       Samples.plainTree).1
      = Returned (Some [FileAddition (lockFileName Samples.request) contents])
    /\
    (run (updateArtifacts Samples.relockImports Samples.request)
       Samples.plainTree).2
      = before ++ [GetRepoStatus (Samples.status ["composer.lock"] [] []);
                   ReadLocalFile (lockFileName Samples.request) contents].
Proof.
  apply (lock_only_without_vendor Samples.relockImports Samples.request
           Samples.plainTree (Samples.status ["composer.lock"] [] [])).
  - find_in_log.
  - find_in_log.
  - simpl. left. reflexivity.
Defined.

Lemma exec_options_of_run_witness :
  exists existing (lockData manifestData : unit) cacheDir merged,
    hd_error (run (updateArtifacts Samples.relockImports Samples.request)
                Samples.plainTree).2
      = Some (ReadLocalFile (lockFileName Samples.request) existing) /\
    parseComposerLock Samples.relockImports (default "" existing)
      = SafeParseSuccess lockData /\
    parseComposerConfig Samples.relockImports
        (newPackageFileContent Samples.request)
      = SafeParseSuccess manifestData /\
    (forall name,
       merged !! name =
       match default ∅ (constraints (config Samples.request)) !! name with
       | Some c => Some c
       | None =>
           extractConstraints Samples.relockImports manifestData lockData
             !! name
       end) /\
    In (EnsureCacheDir "composer" cacheDir)
       (run (updateArtifacts Samples.relockImports Samples.request)
          Samples.plainTree).2 /\
    Samples.plannedOptions =
      {| cwdFile := packageFileName Samples.request;
         COMPOSER_CACHE_DIR := cacheDir;
         COMPOSER_AUTH := getAuthJson Samples.relockImports;
         toolConstraints :=
           [{| toolName := "php";
               constraint := getPhpConstraint Samples.relockImports merged |};
            {| toolName := "composer";
               constraint := merged !! "composer" |}] |}.
Proof.
  apply (exec_options_of_run Samples.relockImports Samples.request
           Samples.plainTree Samples.plannedUpdate Samples.plannedOptions None).
  find_in_log.
Defined.

Lemma exec_failure_reported_witness :
  (run (updateArtifacts Samples.crashImports Samples.request)
     Samples.plainTree).1
    = Returned (Some [ArtifactError (lockFileName Samples.request)
                        (message {| message := Some "Segmentation fault" |})])
  /\
  last (run (updateArtifacts Samples.crashImports Samples.request)
          Samples.plainTree).2
    = Some (Exec Samples.plannedUpdate Samples.plannedOptions
              (Some {| message := Some "Segmentation fault" |})).
Proof.
  apply (exec_failure_reported Samples.crashImports Samples.request
           Samples.plainTree).
  - find_in_log.
  - discriminate.
  - reflexivity.
Defined.

Lemma vendored_result_set_witness :
  exists contents added,
    (run (updateArtifacts Samples.revendorImports Samples.request)
       Samples.vendoredTree).1
      = Returned (Some (FileAddition (lockFileName Samples.request) contents
                        :: added
                        ++ map FileDeletion (deleted Samples.vendorStatus))) /\
    In (ReadLocalFile (lockFileName Samples.request) contents)
       (run (updateArtifacts Samples.revendorImports Samples.request)
          Samples.vendoredTree).2 /\
    map resultPath added
      = List.filter
          (fun f => startsWith f
                      (vendorDir Samples.revendorImports Samples.request))
          (modified Samples.vendorStatus ++ not_added Samples.vendorStatus) /\
    forall r, In r added ->
      exists f c, r = FileAddition f c /\
                  In (ReadLocalFile f c)
                     (run (updateArtifacts Samples.revendorImports
                             Samples.request) Samples.vendoredTree).2.
Proof.
  apply (ArtifactsSpec.vendored_result_set Samples.revendorImports
           Samples.request Samples.vendoredTree Samples.vendorStatus).
  - find_in_log.
  - find_in_log.
  - simpl. left. reflexivity.
Defined.

End ArtifactsMore.
